(** * The Expo upgrade repair loop of wm-reactnative-cli

    A shallow embedding of [expo-upgrade.js] (the file that requires
    [./gemini-api], [./ollama-api] and [./prompts]), of [gemini-api.js],
    [ollama-api.js] and [prompts.js], and the properties of the bounded
    diagnose / repair / reinstall loop.

    Layout:
    - [Text]     substrings and decimal digits;
    - [JS]       the fragment of JavaScript values the sources compute
                 with: property access, truthiness, conversions,
                 [JSON.stringify] and [JSON.parse];
    - [Prompts]  [prompts.js];
    - [Proc]     the process: three paths of the project directory, the
                 external collaborators, the trace of calls, and the
                 monad of returning / throwing / exiting computations;
    - [Api]      [callGeminiAPI] and [callOllamaAPI];
    - [Upgrade]  [resolveExpoDoctor], [checkExpoDoctor],
                 [installDependencies] and the loop of [expoUpgrade];
    - [Logic]    postconditions of computations;
    - [Facts]    what each function does to the world, and the rule of
                 the loop;
    - [Scenario] concrete projects and collaborators;
    - the properties of the repair loop, the clients and the prompts. *)

From Stdlib Require Import ZArith List Bool Ascii String Lia Arith.
Import ListNotations.

Local Open Scope string_scope.

Set Warnings "-register-all".

(* ================================================================== *)
(** ** Strings *)

Module Text.

(** [includes s sub]: [sub] occurs in [s] as a contiguous run of bytes. *)
Definition includes (s sub : string) : Prop :=
  exists pre post, s = pre ++ sub ++ post.

Fixpoint includesb (s sub : string) : bool :=
  if String.prefix sub s then true
  else match s with
       | EmptyString => false
       | String _ s' => includesb s' sub
       end.

Fixpoint concat_all (l : list string) : string :=
  match l with
  | [] => ""
  | x :: r => x ++ concat_all r
  end.

Fixpoint repeat_str (s : string) (n : nat) : string :=
  match n with
  | O => ""
  | S k => s ++ repeat_str s k
  end.

(** Decimal digits of a natural number, most significant first. *)
Fixpoint digits_fuel (fuel : nat) (n : N) (acc : string) : string :=
  match fuel with
  | O => acc
  | S f =>
      let d := ascii_of_N (48 + N.modulo n 10) in
      let q := N.div n 10 in
      if N.eqb q 0 then String d acc
      else digits_fuel f q (String d acc)
  end.

Definition of_N (n : N) : string := digits_fuel (S (N.to_nat (N.log2 n))) n "".

Definition of_Z (z : Z) : string :=
  match z with
  | Z0 => "0"
  | Zpos p => of_N (Npos p)
  | Zneg p => "-" ++ of_N (Npos p)
  end.

Definition hex_digit (n : N) : ascii :=
  if N.ltb n 10 then ascii_of_N (48 + n) else ascii_of_N (87 + n).

(** Four lower-case hexadecimal digits of a 16-bit code unit. *)
Definition hex4 (n : N) : string :=
  String (hex_digit (N.modulo (N.div n 4096) 16))
    (String (hex_digit (N.modulo (N.div n 256) 16))
       (String (hex_digit (N.modulo (N.div n 16) 16))
          (String (hex_digit (N.modulo n 16)) ""))).

End Text.

(* ================================================================== *)
(** ** JavaScript values

    Strings are byte strings holding UTF-8.  A number is kept as the
    decimal [m * 10^e] it was written as; what the sources observe of a
    number (whether it is zero, whether it is positive, its decimal
    text) is computed from that decimal, with the underflow and overflow
    thresholds of IEEE doubles.  The decimal text is the code's for
    zero and for decimals of at most 15 significant digits in the
    normal range, which come back from a double as they were written.
    A numeral of more digits, or a subnormal one, is rounded by the
    code and printed with other digits than here; [Exact.plain],
    further down, is the condition under which the two agree, and the
    theorems on a JSON text that the code writes assume it. *)

Module JS.

Inductive value : Type :=
| VUndefined
| VNull
| VBool (b : bool)
| VNumber (m e : Z)
| VString (s : string)
| VArray (elems : list value)
| VObject (props : list (string * value)).

Definition byte (c : ascii) : N := N_of_ascii c.

(** *** White space ([String.prototype.trim], [StringToNumber]) *)

(** Drops leading WhiteSpace and LineTerminator code points: U+0009 to
    U+000D, U+0020, U+00A0, U+1680, U+2000 to U+200A, U+2028, U+2029,
    U+202F, U+205F, U+3000 and U+FEFF, in their UTF-8 encodings. *)
Fixpoint trimStart (s : string) : string :=
  match s with
  | String a r =>
      let x := byte a in
      if ((9 <=? x) && (x <=? 13) || (x =? 32))%N then trimStart r
      else
        match r with
        | String b r1 =>
            let y := byte b in
            if ((x =? 194) && (y =? 160))%N then trimStart r1
            else
              match r1 with
              | String c r2 =>
                  let z := byte c in
                  if ((x =? 225) && (y =? 154) && (z =? 128)
                      || (x =? 226) && (y =? 128)
                         && ((128 <=? z) && (z <=? 138) || (z =? 168)
                             || (z =? 169) || (z =? 175))
                      || (x =? 226) && (y =? 129) && (z =? 159)
                      || (x =? 227) && (y =? 128) && (z =? 128)
                      || (x =? 239) && (y =? 187) && (z =? 191))%N
                  then trimStart r2
                  else s
              | EmptyString => s
              end
        | EmptyString => s
        end
  | EmptyString => s
  end.

(** [s.trim()] is the empty string. *)
Definition blank (s : string) : bool :=
  match trimStart s with EmptyString => true | _ => false end.

(** [s.trim()]: the white space of both ends dropped. *)
Fixpoint trimEnd (s : string) : string :=
  match s with
  | EmptyString => ""
  | String c r => if blank s then "" else String c (trimEnd r)
  end.

Definition trim (s : string) : string := trimEnd (trimStart s).

(** *** Numbers *)

(** The decimal rounds to +0 or -0: it is at most 2^-1075 in size. *)
Definition number_is_zero (m e : Z) : bool :=
  if (0 <=? e)%Z then (m =? 0)%Z
  else (Z.abs m * 2 ^ 1075 <=? 10 ^ (- e))%Z.

(** The decimal rounds to an infinity: it is at least 2^1024 - 2^970
    in size. *)
Definition number_is_infinite (m e : Z) : bool :=
  let c := (2 ^ 1024 - 2 ^ 970)%Z in
  if (0 <=? e)%Z then (c <=? Z.abs m * 10 ^ e)%Z
  else (c * 10 ^ (- e) <=? Z.abs m)%Z.

Definition number_is_positive (m e : Z) : bool :=
  (0 <? m)%Z && negb (number_is_zero m e).

(** Strips the trailing zeros of a mantissa into the exponent. *)
Fixpoint strip_zeros (fuel : nat) (m e : Z) : Z * Z :=
  match fuel with
  | O => (m, e)
  | S f =>
      if ((m =? 0) || negb (m mod 10 =? 0))%Z then (m, e)
      else strip_zeros f (m / 10)%Z (e + 1)%Z
  end.

Definition zeros (n : Z) : string := Text.repeat_str "0" (Z.to_nat n).

(** [Number::toString] on the digits [s] and the exponent position [n]
    of a finite non-zero number: the value is [0.s * 10^n]. *)
Definition digits_to_string (s : string) (n : Z) : string :=
  let k := Z.of_nat (String.length s) in
  if ((k <=? n) && (n <=? 21))%Z then s ++ zeros (n - k)
  else if ((0 <? n) && (n <=? 21))%Z then
    substring 0 (Z.to_nat n) s ++ "." ++
    substring (Z.to_nat n) (Z.to_nat (k - n)) s
  else if ((-6 <? n) && (n <=? 0))%Z then "0." ++ zeros (- n) ++ s
  else
    let ex := (if (0 <=? n - 1)%Z then "+" else "-") ++
              Text.of_Z (Z.abs (n - 1)) in
    if (k =? 1)%Z then s ++ "e" ++ ex
    else substring 0 1 s ++ "." ++ substring 1 (Z.to_nat (k - 1)) s ++
         "e" ++ ex.

Definition number_to_string (m e : Z) : string :=
  if number_is_zero m e then "0"
  else if number_is_infinite m e then
    if (m <? 0)%Z then "-Infinity" else "Infinity"
  else
    let '(m', e') := strip_zeros (Z.to_nat (Z.log2 (Z.abs m))) m e in
    let s := Text.of_Z (Z.abs m') in
    (if (m <? 0)%Z then "-" else "") ++
    digits_to_string s (Z.of_nat (String.length s) + e').

(** *** [StringToNumber], as far as the sign of the result *)

Fixpoint take_while (p : ascii -> bool) (s : string) : string * string :=
  match s with
  | String c r =>
      if p c then let '(a, b) := take_while p r in (String c a, b)
      else ("", s)
  | EmptyString => ("", "")
  end.

Definition is_digit (c : ascii) : bool :=
  ((48 <=? byte c) && (byte c <=? 57))%N.

Definition is_hex_digit (c : ascii) : bool :=
  is_digit c || ((97 <=? byte c) && (byte c <=? 102))%N
             || ((65 <=? byte c) && (byte c <=? 70))%N.

Definition hex_value (c : ascii) : N :=
  if is_digit c then (byte c - 48)%N
  else if (97 <=? byte c)%N then (byte c - 87)%N
  else (byte c - 55)%N.

Fixpoint digits_value (acc : Z) (s : string) : Z :=
  match s with
  | String c r => digits_value (10 * acc + Z.of_N (byte c - 48))%Z r
  | EmptyString => acc
  end.

(** An optional ExponentPart: [Some (0, s)] when there is none, [None]
    when an [e] is not followed by a signed integer. *)
Definition scan_exponent (s : string) : option (Z * string) :=
  match s with
  | String c r =>
      if ((byte c =? 101) || (byte c =? 69))%N then
        let '(neg, r1) :=
          match r with
          | String "-" r' => (true, r')
          | String "+" r' => (false, r')
          | _ => (false, r)
          end in
        let '(ds, r2) := take_while is_digit r1 in
        match ds with
        | EmptyString => None
        | _ => Some ((if neg then - digits_value 0 ds
                      else digits_value 0 ds)%Z, r2)
        end
      else Some (0%Z, s)
  | EmptyString => Some (0%Z, s)
  end.

(** StrUnsignedDecimalLiteral other than [Infinity]: mantissa, decimal
    exponent and what follows. *)
Definition scan_unsigned_decimal (s : string) : option (Z * Z * string) :=
  let '(ip, r) := take_while is_digit s in
  let '(fp, r1, dot) :=
    match r with
    | String "." r' => let '(f, r'') := take_while is_digit r' in (f, r'', true)
    | _ => ("", r, false)
    end in
  match ip, fp with
  | EmptyString, EmptyString => None
  | _, _ =>
      match scan_exponent r1 with
      | Some (ex, r2) =>
          Some (digits_value 0 (ip ++ fp),
                (ex - Z.of_nat (String.length fp))%Z, r2)
      | None => None
      end
  end.

Definition radix_digit (radix : N) (c : ascii) : bool :=
  is_hex_digit c && (hex_value c <? radix)%N.

(** NonDecimalIntegerLiteral, [0x], [0o] or [0b]: is it a positive
    number (the digits are not all zero) once white space is trimmed. *)
Definition scan_radix_positive (radix : N) (s : string) : bool :=
  let '(ds, r) := take_while (radix_digit radix) s in
  match ds with
  | EmptyString => false
  | _ =>
      blank r &&
      match snd (take_while (fun c => (byte c =? 48)%N) ds) with
      | EmptyString => false
      | _ => true
      end
  end.

Definition decimal_positive (s : string) : bool :=
  match s with
  | String "I" _ =>
      String.prefix "Infinity" s && blank (substring 8 (String.length s - 8) s)
  | _ =>
      match scan_unsigned_decimal s with
      | Some (m, e, r) => blank r && number_is_positive m e
      | None => false
      end
  end.

(** [ToNumber(s) > 0] for a string [s]. *)
Definition string_is_positive (s : string) : bool :=
  match trimStart s with
  | String "-" _ => false
  | String "+" r => decimal_positive r
  | String "0" (String c r) as t =>
      if ((byte c =? 120) || (byte c =? 88))%N then scan_radix_positive 16 r
      else if ((byte c =? 111) || (byte c =? 79))%N then scan_radix_positive 8 r
      else if ((byte c =? 98) || (byte c =? 66))%N then scan_radix_positive 2 r
      else decimal_positive t
  | t => decimal_positive t
  end.

(** *** Property access *)

Fixpoint assoc (k : string) (l : list (string * value)) : option value :=
  match l with
  | [] => None
  | (k', v) :: r => if String.eqb k k' then Some v else assoc k r
  end.

Definition all_digits (s : string) : bool :=
  match snd (take_while is_digit s) with EmptyString => true | _ => false end.

(** A canonical array index: decimal, no leading zero, below 2^32 - 1. *)
Definition array_index (k : string) : option nat :=
  match k with
  | EmptyString => None
  | String "0" EmptyString => Some O
  | String "0" _ => None
  | _ =>
      if all_digits k && (digits_value 0 k <? 4294967295)%Z
      then Some (Z.to_nat (digits_value 0 k)) else None
  end.

Definition bytes3 (u : N) : string :=
  String (ascii_of_N (224 + N.div u 4096))
    (String (ascii_of_N (128 + N.modulo (N.div u 64) 64))
       (String (ascii_of_N (128 + N.modulo u 64)) "")).

(** The UTF-16 code units of a string, each as the bytes of its code
    point; a code point above U+FFFF gives its two surrogates. *)
Fixpoint code_units (s : string) : list string :=
  match s with
  | EmptyString => []
  | String a r =>
      let x := byte a in
      if (x <? 192)%N then String a "" :: code_units r
      else
        match r with
        | String b r1 =>
            if (x <? 224)%N then String a (String b "") :: code_units r1
            else
              match r1 with
              | String c r2 =>
                  if (x <? 240)%N
                  then String a (String b (String c "")) :: code_units r2
                  else
                    match r2 with
                    | String d r3 =>
                        let cp := (N.modulo x 8 * 262144
                                   + N.modulo (byte b) 64 * 4096
                                   + N.modulo (byte c) 64 * 64
                                   + N.modulo (byte d) 64 - 65536)%N in
                        bytes3 (55296 + N.div cp 1024)
                        :: bytes3 (56320 + N.modulo cp 1024)
                        :: code_units r3
                    | EmptyString => [s]
                    end
              | EmptyString => [s]
              end
        | EmptyString => [s]
        end
  end.

Definition of_nat (n : nat) : value := VNumber (Z.of_nat n) 0.

Definition element {A} (wrap : A -> value) (l : list A) (k : string) : value :=
  if String.eqb k "length" then of_nat (List.length l)
  else match array_index k with
       | Some i => match nth_error l i with
                   | Some x => wrap x
                   | None => VUndefined
                   end
       | None => VUndefined
       end.

(** [v.k] and [v[k]], for a property name [k] that no built-in prototype
    defines (the sources read [data], [status], [candidates], [content],
    [parts], [text], [response], [length] and [0]).  [None] is the
    TypeError of reading a property of [undefined] or [null]. *)
Definition get (v : value) (k : string) : option value :=
  match v with
  | VUndefined | VNull => None
  | VBool _ | VNumber _ _ => Some VUndefined
  | VString s => Some (element VString (code_units s) k)
  | VArray l => Some (element (fun x => x) l k)
  | VObject props =>
      Some match assoc k props with Some x => x | None => VUndefined end
  end.

(** The message V8 gives that TypeError. *)
Definition cannot_read (v : value) (k : string) : string :=
  "Cannot read properties of " ++
  match v with VNull => "null" | _ => "undefined" end ++
  " (reading '" ++ k ++ "')".

(** *** Conversions *)

(** [ToBoolean]. *)
Definition truthy (v : value) : bool :=
  match v with
  | VUndefined | VNull => false
  | VBool b => b
  | VNumber m e => negb (number_is_zero m e)
  | VString s => match s with EmptyString => false | _ => true end
  | VArray _ | VObject _ => true
  end.

Fixpoint join (sep : string) (l : list string) : string :=
  match l with
  | [] => ""
  | [x] => x
  | x :: r => x ++ sep ++ join sep r
  end.

(** [ToString].  An array is joined with commas, [null] and [undefined]
    elements giving the empty string.  An object parsed from JSON has no
    callable [toString]: it gives ["[object Object]"] from the
    prototype's, and [None], a TypeError, when an own [toString]
    property (never callable) hides it. *)
Fixpoint to_string (v : value) : option string :=
  match v with
  | VUndefined => Some "undefined"
  | VNull => Some "null"
  | VBool b => Some (if b then "true" else "false")
  | VNumber m e => Some (number_to_string m e)
  | VString s => Some s
  | VArray l =>
      let fix items (l : list value) : option (list string) :=
        match l with
        | [] => Some []
        | x :: r =>
            match (match x with
                   | VUndefined | VNull => Some ""
                   | _ => to_string x
                   end), items r with
            | Some t, Some ts => Some (t :: ts)
            | _, _ => None
            end
        end in
      option_map (join ",") (items l)
  | VObject props =>
      match assoc "toString" props with
      | Some _ => None
      | None => Some "[object Object]"
      end
  end.

(** [v > 0]: [None] when the conversion of [v] to a number throws. *)
Definition is_positive (v : value) : option bool :=
  match v with
  | VUndefined | VNull => Some false
  | VBool b => Some b
  | VNumber m e => Some (number_is_positive m e)
  | VString s => Some (string_is_positive s)
  | VArray _ | VObject _ => option_map string_is_positive (to_string v)
  end.

(** *** [JSON.stringify] *)

Definition dquote : string := String (ascii_of_N 34) "".
Definition nl : string := String (ascii_of_N 10) "".

(** QuoteJSONString without the enclosing quotes: the short escapes,
    u00xx escapes for the other control characters, udxxx escapes for a
    surrogate that is not part of a pair, every other byte as it is. *)
Fixpoint quote_body (s : string) : string :=
  match s with
  | EmptyString => ""
  | String a r =>
      let x := byte a in
      if (x =? 8)%N then "\b" ++ quote_body r
      else if (x =? 9)%N then "\t" ++ quote_body r
      else if (x =? 10)%N then "\n" ++ quote_body r
      else if (x =? 12)%N then "\f" ++ quote_body r
      else if (x =? 13)%N then "\r" ++ quote_body r
      else if (x =? 34)%N then "\" ++ dquote ++ quote_body r
      else if (x =? 92)%N then "\\" ++ quote_body r
      else if (x <? 32)%N then "\u" ++ Text.hex4 x ++ quote_body r
      else
        match r with
        | String b (String c r2) =>
            if ((x =? 237) && (160 <=? byte b) && (byte b <=? 191)
                && (128 <=? byte c) && (byte c <=? 191))%N
            then "\u" ++ Text.hex4 (53248 + N.modulo (byte b) 64 * 64
                                    + N.modulo (byte c) 64)
                 ++ quote_body r2
            else String a (quote_body r)
        | _ => String a (quote_body r)
        end
  end.

Definition quote (s : string) : string := dquote ++ quote_body s ++ dquote.

Definition wrap (gap indent opening closing : string) (items : list string)
  : string :=
  match items with
  | [] => opening ++ closing
  | _ =>
      match gap with
      | EmptyString => opening ++ join "," items ++ closing
      | _ =>
          opening ++ nl ++ (indent ++ gap)
          ++ join ("," ++ nl ++ (indent ++ gap)) items
          ++ nl ++ indent ++ closing
      end
  end.

(** SerializeJSONProperty with indentation unit [gap], at indentation
    [indent]; [None] is [undefined].  A non-finite number is [null], an
    [undefined] array element is [null], an [undefined] property is left
    out. *)
Fixpoint serialize (gap indent : string) (v : value) : option string :=
  match v with
  | VUndefined => None
  | VNull => Some "null"
  | VBool b => Some (if b then "true" else "false")
  | VNumber m e =>
      Some (if number_is_infinite m e then "null" else number_to_string m e)
  | VString s => Some (quote s)
  | VArray l =>
      let fix items (l : list value) : list string :=
        match l with
        | [] => []
        | x :: r =>
            match serialize gap (indent ++ gap) x with
            | Some t => t
            | None => "null"
            end :: items r
        end in
      Some (wrap gap indent "[" "]" (items l))
  | VObject props =>
      let fix members (l : list (string * value)) : list string :=
        match l with
        | [] => []
        | (k, x) :: r =>
            match serialize gap (indent ++ gap) x with
            | Some t =>
                (quote k ++ ":" ++
                 match gap with EmptyString => "" | _ => " " end ++ t)
                :: members r
            | None => members r
            end
        end in
      Some (wrap gap indent "{" "}" (members props))
  end.

(** [JSON.stringify(v)] and [JSON.stringify(v, null, 2)], then
    interpolated in a template literal: [undefined] prints as such. *)
Definition stringify (v : value) : option string := serialize "" "" v.
Definition stringify2 (v : value) : option string := serialize "  " "" v.

Definition interpolate (o : option string) : string :=
  match o with Some t => t | None => "undefined" end.

(** *** [JSON.parse]

    A lexer that is one pass over the bytes and a pushdown parser that
    is one pass over the tokens, so both are total.  Nesting depth is
    not bounded (an engine gives up at some depth of its own). *)

Inductive token : Type :=
| TLBrace | TRBrace | TLBracket | TRBracket | TColon | TComma
| TScalar (v : value).

Inductive escape : Type :=
| ENone
| EBackslash
| EUnicode (digits : list N).

Inductive lexstate : Type :=
| LDefault
| LString (rev : list ascii) (esc : escape)
| LWord (rev : list ascii).

Definition string_of_rev (rev : list ascii) : string :=
  fold_left (fun acc c => String c acc) rev "".

Definition push_bytes (l : list N) (rev : list ascii) : list ascii :=
  fold_left (fun acc b => ascii_of_N b :: acc) l rev.

(** Appends the code unit [u] of a u-escape: a low surrogate right
    after a high one completes a code point above U+FFFF. *)
Definition push_unit (u : N) (rev : list ascii) : list ascii :=
  let plain :=
    if (u <? 128)%N then push_bytes [u]%N rev
    else if (u <? 2048)%N
    then push_bytes [192 + N.div u 64; 128 + N.modulo u 64]%N rev
    else push_bytes [224 + N.div u 4096; 128 + N.modulo (N.div u 64) 64;
                     128 + N.modulo u 64]%N rev in
  match rev with
  | c3 :: c2 :: c1 :: rest =>
      if ((56320 <=? u) && (u <=? 57343) && (byte c1 =? 237)
          && (160 <=? byte c2) && (byte c2 <=? 175)
          && (128 <=? byte c3) && (byte c3 <=? 191))%N
      then
        let hi := (53248 + N.modulo (byte c2) 64 * 64
                   + N.modulo (byte c3) 64)%N in
        let cp := (65536 + (hi - 55296) * 1024 + (u - 56320))%N in
        push_bytes [240 + N.div cp 262144;
                    128 + N.modulo (N.div cp 4096) 64;
                    128 + N.modulo (N.div cp 64) 64;
                    128 + N.modulo cp 64]%N rest
      else plain
  | _ => plain
  end.

(** The JSON number grammar, read strictly: an optional minus, [0] or a
    digit run without leading zero, an optional fraction with at least
    one digit, an optional exponent, and nothing after. *)
Definition parse_number (s : string) : option (Z * Z) :=
  let '(neg, r) :=
    match s with String "-" r' => (true, r') | _ => (false, s) end in
  let '(ip, r1) := take_while is_digit r in
  let int_ok :=
    match ip with
    | EmptyString => false
    | String "0" EmptyString => true
    | String "0" _ => false
    | _ => true
    end in
  let frac :=
    match r1 with
    | String "." r' =>
        let '(fp, r2) := take_while is_digit r' in
        match fp with EmptyString => None | _ => Some (fp, r2) end
    | _ => Some ("", r1)
    end in
  match int_ok, frac with
  | true, Some (fp, r2) =>
      match scan_exponent r2 with
      | Some (ex, EmptyString) =>
          let m := digits_value 0 (ip ++ fp) in
          Some ((if neg then - m else m)%Z,
                (ex - Z.of_nat (String.length fp))%Z)
      | _ => None
      end
  | _, _ => None
  end.

Definition word_token (rev : list ascii) : option token :=
  let w := string_of_rev rev in
  if String.eqb w "true" then Some (TScalar (VBool true))
  else if String.eqb w "false" then Some (TScalar (VBool false))
  else if String.eqb w "null" then Some (TScalar VNull)
  else match parse_number w with
       | Some (m, e) => Some (TScalar (VNumber m e))
       | None => None
       end.

Definition is_word_char (c : ascii) : bool :=
  let x := byte c in
  is_digit c || ((97 <=? x) && (x <=? 122))%N || ((65 <=? x) && (x <=? 90))%N
  || (x =? 43)%N || (x =? 45)%N || (x =? 46)%N.

(** One byte read between tokens: the new state and the tokens so far
    (latest first). *)
Definition lex_default (c : ascii) (out : list token)
  : option (lexstate * list token) :=
  let x := byte c in
  if ((x =? 32) || (x =? 9) || (x =? 10) || (x =? 13))%N
  then Some (LDefault, out)
  else if (x =? 123)%N then Some (LDefault, TLBrace :: out)
  else if (x =? 125)%N then Some (LDefault, TRBrace :: out)
  else if (x =? 91)%N then Some (LDefault, TLBracket :: out)
  else if (x =? 93)%N then Some (LDefault, TRBracket :: out)
  else if (x =? 58)%N then Some (LDefault, TColon :: out)
  else if (x =? 44)%N then Some (LDefault, TComma :: out)
  else if (x =? 34)%N then Some (LString [] ENone, out)
  else if is_word_char c then Some (LWord [c], out)
  else None.

Definition lex_escape (c : ascii) : option N :=
  let x := byte c in
  if ((x =? 34) || (x =? 92) || (x =? 47))%N then Some x
  else if (x =? 98)%N then Some 8%N
  else if (x =? 102)%N then Some 12%N
  else if (x =? 110)%N then Some 10%N
  else if (x =? 114)%N then Some 13%N
  else if (x =? 116)%N then Some 9%N
  else None.

Definition lex_step (st : lexstate) (c : ascii) (out : list token)
  : option (lexstate * list token) :=
  match st with
  | LDefault => lex_default c out
  | LWord rev =>
      if is_word_char c then Some (LWord (c :: rev), out)
      else match word_token rev with
           | Some t => lex_default c (t :: out)
           | None => None
           end
  | LString rev ENone =>
      if (byte c =? 34)%N
      then Some (LDefault, TScalar (VString (string_of_rev rev)) :: out)
      else if (byte c =? 92)%N then Some (LString rev EBackslash, out)
      else if (byte c <? 32)%N then None
      else Some (LString (c :: rev) ENone, out)
  | LString rev EBackslash =>
      if (byte c =? 117)%N then Some (LString rev (EUnicode []), out)
      else match lex_escape c with
           | Some x => Some (LString (ascii_of_N x :: rev) ENone, out)
           | None => None
           end
  | LString rev (EUnicode ds) =>
      if is_hex_digit c then
        match ds with
        | [d1; d2; d3] =>
            Some (LString (push_unit (d1 * 4096 + d2 * 256 + d3 * 16
                                      + hex_value c) rev) ENone, out)
        | _ => Some (LString rev (EUnicode (ds ++ [hex_value c])), out)
        end
      else None
  end.

Fixpoint lex (st : lexstate) (s : string) (out : list token)
  : option (list token) :=
  match s with
  | String c r =>
      match lex_step st c out with
      | Some (st', out') => lex st' r out'
      | None => None
      end
  | EmptyString =>
      match st with
      | LDefault => Some (List.rev out)
      | LWord w =>
          match word_token w with
          | Some t => Some (List.rev (t :: out))
          | None => None
          end
      | LString _ _ => None
      end
  end.

(** Defining a property of an object under construction: an existing
    key keeps its place and takes the new value; a new array-index key
    goes among the index keys in ascending order, which come first; any
    other new key goes last. *)
Fixpoint replace_prop (k : string) (v : value) (l : list (string * value))
  : list (string * value) :=
  match l with
  | [] => []
  | (k', x) :: r =>
      if String.eqb k k' then (k', v) :: r else (k', x) :: replace_prop k v r
  end.

Fixpoint insert_index (i : nat) (k : string) (v : value)
  (l : list (string * value)) : list (string * value) :=
  match l with
  | [] => [(k, v)]
  | (k', x) :: r =>
      match array_index k' with
      | Some j =>
          if Nat.ltb i j then (k, v) :: l else (k', x) :: insert_index i k v r
      | None => (k, v) :: l
      end
  end.

Definition obj_set (k : string) (v : value) (l : list (string * value))
  : list (string * value) :=
  match assoc k l with
  | Some _ => replace_prop k v l
  | None =>
      match array_index k with
      | Some i => insert_index i k v l
      | None => l ++ [(k, v)]
      end
  end.

Inductive frame : Type :=
| FArray (done : list value)
| FObject (done : list (string * value)) (key : string).

Inductive pstate : Type :=
| PValue (stack : list frame) (fresh : bool)
| PKey (stack : list frame) (done : list (string * value)) (fresh : bool)
| PColon (stack : list frame) (done : list (string * value)) (key : string)
| PAfterElement (stack : list frame) (done : list value)
| PAfterMember (stack : list frame) (done : list (string * value))
| PDone (v : value).

(** A value is complete: it is the result, or goes into the array or
    the object being read. *)
Definition complete (v : value) (stack : list frame) : pstate :=
  match stack with
  | [] => PDone v
  | FArray done :: st => PAfterElement st (done ++ [v])
  | FObject done key :: st => PAfterMember st (obj_set key v done)
  end.

Definition parse_step (st : pstate) (t : token) : option pstate :=
  match st, t with
  | PValue stack _, TScalar v => Some (complete v stack)
  | PValue stack _, TLBracket => Some (PValue (FArray [] :: stack) true)
  | PValue stack _, TLBrace => Some (PKey stack [] true)
  | PValue (FArray [] :: stack) true, TRBracket =>
      Some (complete (VArray []) stack)
  | PKey stack done _, TScalar (VString k) => Some (PColon stack done k)
  | PKey stack done true, TRBrace => Some (complete (VObject done) stack)
  | PColon stack done k, TColon => Some (PValue (FObject done k :: stack) false)
  | PAfterElement stack done, TComma =>
      Some (PValue (FArray done :: stack) false)
  | PAfterElement stack done, TRBracket => Some (complete (VArray done) stack)
  | PAfterMember stack done, TComma => Some (PKey stack done false)
  | PAfterMember stack done, TRBrace => Some (complete (VObject done) stack)
  | _, _ => None
  end.

Fixpoint parse_tokens (st : pstate) (l : list token) : option value :=
  match l with
  | t :: r =>
      match parse_step st t with
      | Some st' => parse_tokens st' r
      | None => None
      end
  | [] => match st with PDone v => Some v | _ => None end
  end.

Definition parse_text (s : string) : option value :=
  match lex LDefault s [] with
  | Some l => parse_tokens (PValue [] false) l
  | None => None
  end.

(** [JSON.parse(v)]: the argument is converted to a string first;
    [None] is the exception thrown (a SyntaxError, or the TypeError of
    the conversion). *)
Definition parse (v : value) : option value :=
  match to_string v with
  | Some s => parse_text s
  | None => None
  end.

End JS.

Module JSExamples.
Import JS.

Definition q : string := dquote.

Example parse_object_with_escape :
  parse_text ("{" ++ q ++ "data" ++ q ++ ": {" ++ q ++ "a" ++ q
              ++ ": [1, -2.50e1, true, null]}, " ++ q ++ "status" ++ q
              ++ " :" ++ q ++ "suc\u0063ess" ++ q ++ "} ")
  = Some (VObject
            [("data", VObject [("a", VArray [VNumber 1 0; VNumber (-250) (-1);
                                             VBool true; VNull])]);
             ("status", VString "success")]).
Proof. vm_compute. reflexivity. Qed.

Example parse_rejects :
  parse_text "[1,]" = None /\ parse_text "01" = None
  /\ parse_text "undefined" = None /\ parse_text "" = None
  /\ parse (VObject []) = None.
Proof. vm_compute. repeat split. Qed.

Example parse_duplicate_and_index_keys :
  parse_text ("{" ++ q ++ "b" ++ q ++ ":1," ++ q ++ "2" ++ q ++ ":2,"
              ++ q ++ "b" ++ q ++ ":3," ++ q ++ "1" ++ q ++ ":4}")
  = Some (VObject [("1", VNumber 4 0); ("2", VNumber 2 0); ("b", VNumber 3 0)]).
Proof. vm_compute. reflexivity. Qed.

Example stringify_indented :
  stringify2 (VObject [("dependencies", VObject [("pkgA", VString "^1.0.0")]);
                       ("files", VArray [])])
  = Some ("{" ++ nl ++ "  " ++ q ++ "dependencies" ++ q ++ ": {" ++ nl
          ++ "    " ++ q ++ "pkgA" ++ q ++ ": " ++ q ++ "^1.0.0" ++ q ++ nl
          ++ "  }," ++ nl ++ "  " ++ q ++ "files" ++ q ++ ": []" ++ nl ++ "}").
Proof. vm_compute. reflexivity. Qed.

Example numbers_as_text :
  number_to_string 15 (-1) = "1.5" /\ number_to_string 1 (-7) = "1e-7"
  /\ number_to_string 1 21 = "1e+21" /\ number_to_string (-12345) (-2) = "-123.45"
  /\ number_to_string 1 (-400) = "0".
Proof. vm_compute. repeat split. Qed.

Example strings_as_numbers :
  string_is_positive " 12 " = true /\ string_is_positive "0x10" = true
  /\ string_is_positive "0x00" = false /\ string_is_positive "1e" = false
  /\ string_is_positive "" = false /\ string_is_positive "-1" = false.
Proof. vm_compute. repeat split. Qed.

End JSExamples.

(* ================================================================== *)
(** ** prompts.js *)

Module Prompts.

Definition q : string := JS.dquote.
Definition nl : string := JS.nl.

(** The three fixed pieces of the template literal.  The two generators
    of prompts.js hold the same template, character for character. *)
Definition prompt_head : string :=
  Text.concat_all [
    "I'm getting an error when running "; q; "npx expo doctor"; q;
      " in my Expo project. Here's the error:"; nl
  ].

Definition prompt_middle : string :=
  Text.concat_all [
    nl;
    nl;
    "and the package.json is:"; nl
  ].

Definition prompt_rules : string :=
  Text.concat_all [
    nl;
    nl;
    "CRITICAL INSTRUCTIONS:"; nl;
    "1. Look for ALL lines in the error that say "; q;
      "expected version: X.Y.Z"; q; " "; nl;
    "2. Update EVERY package to use the EXACT version specified in the ";
      "error"; nl;
    "3. Remove any packages that the error says should not be ";
      "installed directly (like expo-modules-core)"; nl;
    "4. Keep all other packages that are not mentioned in the error"; nl;
    "5. Ignore Untested on New Architecture: message and all the ";
      "dependencies that are mentioned in that section."; nl;
    nl;
    "For example, if the error says:"; nl;
    "- expo@53.0.17 - expected version: 53.0.19"; nl;
    "- expo-build-properties@0.13.1 - expected version: ~0.14.8"; nl;
    "- @expo/vector-icons@14.0.2 - expected version: ^14.1.0"; nl;
    nl;
    "Then update the package.json to use:"; nl;
    "- "; q; "expo"; q; ": "; q; "53.0.19"; q; nl;
    "- "; q; "expo-build-properties"; q; ": "; q; "~0.14.8"; q; " "; nl;
    "- "; q; "@expo/vector-icons"; q; ": "; q; "^14.1.0"; q; nl;
    nl;
    "IMPORTANT: Do NOT keep old versions. Use ONLY the versions ";
      "specified in the error log. Do Not update devDependencies. When ";
      "updating versions, remove ~ and ^."; nl;
    nl;
    "Your response should be in JSON format with the following ";
      "structure:"; nl;
    "{"; nl;
    "    "; q; "data"; q; ": "; q; "package.json JSON content"; q; ","; nl;
    "    "; q; "status"; q; ": "; q; "success"; q; " or "; q; "error"; q; nl;
    "}"; nl;
    nl;
    "IMPORTANT: Set status to "; q; "success"; q;
      " ONLY if after applying the package.json updates, there would be ";
      "NO remaining errors when running "; q; "npx expo doctor"; q;
      ". If there would still be errors after the updates, set status to "; q;
      "error"; q; ". Ignore the "; q; "Untested on New Architecture"; q;
      " section when analyzing remaining errors."
  ].

Definition generateGeminiExpoDoctorPrompt (errorLog : string)
  (packageJson : JS.value) : string :=
  prompt_head ++ errorLog ++ prompt_middle
  ++ JS.interpolate (JS.stringify2 packageJson) ++ prompt_rules.

Definition generateOllamaExpoDoctorPrompt (errorLog : string)
  (packageJson : JS.value) : string :=
  prompt_head ++ errorLog ++ prompt_middle
  ++ JS.interpolate (JS.stringify2 packageJson) ++ prompt_rules.

Definition generateOllamaExpoDoctorFormat : JS.value :=
  JS.VObject [
    ("type", JS.VString "object");
    ("properties", JS.VObject [
       ("data", JS.VObject [
          ("type", JS.VString "object");
          ("description",
           JS.VString "The updated package.json content as a JSON object")]);
       ("status", JS.VObject [
          ("type", JS.VString "string");
          ("description",
           JS.VString "Status of the operation, should be 'success'")])]);
    ("required", JS.VArray [JS.VString "data"; JS.VString "status"])
  ].

End Prompts.

(* ================================================================== *)
(** ** The process

    What the upgrade touches outside its own variables: three paths of
    the project directory, and three external collaborators whose
    answers are not the program's to choose (the expo-doctor run, the
    HTTP endpoint of the model, the npm install).  Their answers are
    given by an environment, indexed by how many times each has been
    asked so far; every call is recorded in a trace.

    Assumptions of the model: neither expo-doctor nor npm writes
    package.json; writing package.json does not fail; console output is
    not recorded; [fs.writeFileSync] rejects data that is not a string
    with a TypeError before it opens the file (Node 14 and later). *)

Module Proc.

Record FileSystem : Type := {
  package_json : option string;     (* the text of src/package.json *)
  package_lock : bool;              (* src/package-lock.json exists *)
  node_modules : bool               (* src/node_modules exists *)
}.

(** The [response] of an axios error. *)
Record HttpResponse : Type := {
  status : Z;
  statusText : string;
  data : JS.value
}.

(** A thrown JavaScript error, with the two properties the API clients
    look at; [new Error(m)] has neither. *)
Record error : Type := {
  message : string;
  response : option HttpResponse;
  request : bool
}.

Definition Error (m : string) : error :=
  {| message := m; response := None; request := false |}.

(** The result of execa with [reject: false] and [all: true]. *)
Record ExecaResult : Type := {
  exitCode : option Z;
  all : option string;
  stderr : option string;
  stdout : option string
}.

Inductive settled (A : Type) : Type :=
| Resolved (a : A)
| Rejected (e : error).
Arguments Resolved {A} a.
Arguments Rejected {A} e.

(** What an npm install leaves behind, and whether [exec] resolved. *)
Record InstallResult : Type := {
  install : settled unit;
  lock_after : bool;
  modules_after : bool
}.

Record Env : Type := {
  expo_doctor : nat -> settled ExecaResult;
  axios_post : nat -> settled JS.value;     (* [response.data] *)
  npm_install : nat -> InstallResult
}.

Inductive event : Type :=
| EvExpoDoctor
| EvPost (url : string) (body : JS.value)
| EvWriteManifest (content : string)
| EvRemoveLock
| EvRemoveModules
| EvInstall.

Record World : Type := {
  fs : FileSystem;
  trace : list event
}.

Definition is_diagnostic (e : event) : bool :=
  match e with EvExpoDoctor => true | _ => false end.
Definition is_post (e : event) : bool :=
  match e with EvPost _ _ => true | _ => false end.
Definition is_write (e : event) : bool :=
  match e with EvWriteManifest _ => true | _ => false end.
Definition is_install (e : event) : bool :=
  match e with EvInstall => true | _ => false end.
Definition is_removal (e : event) : bool :=
  match e with EvRemoveLock | EvRemoveModules => true | _ => false end.



Definition count (p : event -> bool) (w : World) : nat :=
  List.length (filter p (trace w)).

Definition diagnostic_runs := count is_diagnostic.
Definition llm_calls := count is_post.
Definition manifest_writes := count is_write.
Definition installs := count is_install.
Definition removals := count is_removal.

Definition record (e : event) (w : World) : World :=
  {| fs := fs w; trace := trace w ++ [e] |}.

Definition with_package_json (text : string) (w : World) : World :=
  {| fs := {| package_json := Some text;
              package_lock := package_lock (fs w);
              node_modules := node_modules (fs w) |};
     trace := trace w |}.

Definition with_package_lock (b : bool) (w : World) : World :=
  {| fs := {| package_json := package_json (fs w);
              package_lock := b;
              node_modules := node_modules (fs w) |};
     trace := trace w |}.

Definition with_node_modules (b : bool) (w : World) : World :=
  {| fs := {| package_json := package_json (fs w);
              package_lock := package_lock (fs w);
              node_modules := b |};
     trace := trace w |}.

(** *** Computations *)

Inductive result (A : Type) : Type :=
| Return (a : A) (w : World)
| Throw (e : error) (w : World)
| Exit (code : Z) (w : World)          (* process.exit(code) *)
| Diverge.                             (* a loop still running *)
Arguments Return {A} a w.
Arguments Throw {A} e w.
Arguments Exit {A} code w.
Arguments Diverge {A}.

Definition M (A : Type) : Type := World -> result A.

Definition ret {A} (a : A) : M A := fun w => Return a w.

Definition bind {A B} (m : M A) (k : A -> M B) : M B :=
  fun w =>
    match m w with
    | Return a w' => k a w'
    | Throw e w' => Throw e w'
    | Exit c w' => Exit c w'
    | Diverge => Diverge
    end.

Definition throw {A} (e : error) : M A := fun w => Throw e w.
Definition exit {A} (code : Z) : M A := fun w => Exit code w.
Definition diverge {A} : M A := fun _ => Diverge.

(** [try { m } catch (e) { h e }]. *)
Definition try_catch {A} (m : M A) (h : error -> M A) : M A :=
  fun w =>
    match m w with
    | Throw e w' => h e w'
    | r => r
    end.

Definition await {A} (s : settled A) : M A :=
  match s with
  | Resolved a => ret a
  | Rejected e => throw e
  end.

Declare Scope proc_scope.
Delimit Scope proc_scope with proc.
Notation "x <- m ;; k" := (bind m (fun x => k))
  (at level 61, m at next level, right associativity) : proc_scope.
Notation "m ;; k" := (bind m (fun _ => k))
  (at level 61, right associativity) : proc_scope.

(** *** The calls that leave the process *)

(** [path.join(src, name)] for a normalized [src] without a trailing
    separator, as getDefaultDestination builds it. *)
Definition path_join (src name : string) : string := src ++ "/" ++ name.

(** The bytes Node writes for a string: a surrogate that is not part of
    a pair becomes U+FFFD. *)
Fixpoint utf8 (s : string) : string :=
  match s with
  | EmptyString => ""
  | String a r =>
      match r with
      | String b (String c r2) =>
          if ((JS.byte a =? 237) && (160 <=? JS.byte b) && (JS.byte b <=? 191)
              && (128 <=? JS.byte c) && (JS.byte c <=? 191))%N
          then String (ascii_of_N 239)
                 (String (ascii_of_N 191) (String (ascii_of_N 189) (utf8 r2)))
          else String a (utf8 r)
      | _ => String a (utf8 r)
      end
  end.

Section Calls.

Variable env : Env.
Variable src : string.

Local Open Scope proc_scope.

(** [execa('npx', ['expo-doctor'], {cwd: src, reject: false, all: true})]. *)
Definition execa_expo_doctor : M ExecaResult :=
  fun w => await (expo_doctor env (diagnostic_runs w)) (record EvExpoDoctor w).

(** [axios.post(url, body, {headers})], giving [response.data]. *)
Definition post (url : string) (body : JS.value) : M JS.value :=
  fun w => await (axios_post env (llm_calls w)) (record (EvPost url body) w).

(** [exec('npm', ['install'], {cwd: src})]. *)
Definition exec_npm_install : M unit :=
  fun w =>
    let r := npm_install env (installs w) in
    await (install r)
      (record EvInstall
         (with_package_lock (lock_after r)
            (with_node_modules (modules_after r) w))).

Definition enoent (call name : string) : error :=
  Error ("ENOENT: no such file or directory, " ++ call ++ " '"
         ++ path_join src name ++ "'").

(** [fs.readFileSync(path.join(src, 'package.json'), 'utf8')]. *)
Definition readFileSync_package_json : M string :=
  fun w =>
    match package_json (fs w) with
    | Some text => Return text w
    | None => Throw (enoent "open" "package.json") w
    end.

(** [fs.writeFileSync(path.join(src, 'package.json'), data)]. *)
Definition writeFileSync_package_json (data : JS.value) : M unit :=
  match data with
  | JS.VString s =>
      fun w =>
        Return tt (record (EvWriteManifest (utf8 s))
                     (with_package_json (utf8 s) w))
  | _ =>
      throw (Error ("The " ++ JS.dquote ++ "data" ++ JS.dquote
                    ++ " argument must be of type string or an instance of"
                    ++ " Buffer, TypedArray, or DataView."))
  end.

(** [fs.rmSync(path.join(src, 'package-lock.json'))]: no [force]
    option, so a missing path is an error. *)
Definition rmSync_package_lock : M unit :=
  fun w =>
    if package_lock (fs w)
    then Return tt (record EvRemoveLock (with_package_lock false w))
    else Throw (enoent "lstat" "package-lock.json") w.

(** [fs.rmSync(path.join(src, 'node_modules'), {recursive: true})]. *)
Definition rmSync_node_modules : M unit :=
  fun w =>
    if node_modules (fs w)
    then Return tt (record EvRemoveModules (with_node_modules false w))
    else Throw (enoent "lstat" "node_modules") w.

(** Reading a property, with the TypeError of [undefined] and [null]. *)
Definition prop (v : JS.value) (k : string) : M JS.value :=
  match JS.get v k with
  | Some x => ret x
  | None => throw (Error (JS.cannot_read v k))
  end.

(** [v > 0]. *)
Definition greater_than_zero (v : JS.value) : M bool :=
  match JS.is_positive v with
  | Some b => ret b
  | None => throw (Error "Cannot convert object to primitive value")
  end.

(** [JSON.parse(v)]; the message of the error is the engine's and is
    only ever printed. *)
Definition JSON_parse (v : JS.value) : M JS.value :=
  match JS.parse v with
  | Some x => ret x
  | None => throw (Error "Unexpected token in JSON")
  end.

End Calls.

End Proc.

(* ================================================================== *)
(** ** gemini-api.js and ollama-api.js *)

Module Api.
Import Proc.

Section Api.

Variable env : Env.

Local Open Scope proc_scope.

Definition text_part (role text : string) : JS.value :=
  JS.VObject [("role", JS.VString role);
              ("parts", JS.VArray [JS.VObject [("text", JS.VString text)]])].

(** [systemPrompt && systemPrompt.trim()]. *)
Definition given (systemPrompt : option string) : option string :=
  match systemPrompt with
  | Some p => if JS.blank p then None else Some p
  | None => None
  end.

(** The catch clause of callGeminiAPI and of callOllamaAPI, which differ
    in the name they print. *)
Definition rethrow {A} (api : string) (e : error) : M A :=
  match response e with
  | Some r =>
      throw (Error (api ++ " API request failed: " ++ Text.of_Z (status r)
                    ++ " " ++ statusText r ++ " - "
                    ++ JS.interpolate (JS.stringify (data r))))
  | None =>
      if request e
      then throw (Error (api ++ " API request failed: No response received - "
                         ++ message e))
      else throw (Error (api ++ " API call failed: " ++ message e))
  end.

(** Lines 64 to 69 of gemini-api.js: [Some text] when the return
    statement is reached, [None] when control falls through to the
    throw of line 71. *)
Definition extract_text (data : JS.value) : M (option JS.value) :=
  if JS.truthy data then
    candidates <- prop data "candidates" ;;
    if JS.truthy candidates then
      n <- prop candidates "length" ;;
      some <- greater_than_zero n ;;
      if (some : bool) then
        candidate <- prop candidates "0" ;;
        content <- prop candidate "content" ;;
        if JS.truthy content then
          parts <- prop content "parts" ;;
          if JS.truthy parts then
            n' <- prop parts "length" ;;
            some' <- greater_than_zero n' ;;
            if (some' : bool) then
              part <- prop parts "0" ;;
              text <- prop part "text" ;;
              ret (Some text)
            else ret None
          else ret None
        else ret None
      else ret None
    else ret None
  else ret None.

(** The request of callGeminiAPI: lines 24 to 50 and the URL of
    line 54. *)
Definition gemini_body (userPrompt : string) (systemPrompt : option string)
  : JS.value :=
  let contents :=
    match given systemPrompt with
    | Some p => [text_part "system" p; text_part "user" userPrompt]
    | None => [text_part "user" userPrompt]
    end in
  JS.VObject
    [("contents", JS.VArray contents);
     ("generationConfig",
      JS.VObject [("responseMimeType", JS.VString "application/json")])].

Definition gemini_url (modelId apiMethod geminiKey : string) : string :=
  "https://generativelanguage.googleapis.com/v1beta/models/"
  ++ modelId ++ ":" ++ apiMethod ++ "?key=" ++ JS.trim geminiKey.

Definition callGeminiAPI (geminiKey userPrompt : string)
  (systemPrompt : option string) (modelId apiMethod : string) : M JS.value :=
  try_catch
    ((if JS.blank geminiKey
      then throw (Error "Gemini API key is required") else ret tt) ;;
     (if JS.blank userPrompt
      then throw (Error "User prompt is required") else ret tt) ;;
     let requestBody := gemini_body userPrompt systemPrompt in
     data <- post env (gemini_url modelId apiMethod geminiKey) requestBody ;;
     found <- extract_text data ;;
     match found with
     | Some text => ret text
     | None => throw (Error "Invalid response format from Gemini API")
     end)
    (rethrow "Gemini").

(** The request of callOllamaAPI: lines 20 to 34. *)
Definition ollama_body (userPrompt : string) (systemPrompt : option string)
  (modelName : string) (format : JS.value) : JS.value :=
  JS.VObject
    ([("model", JS.VString modelName);
      ("prompt", JS.VString userPrompt);
      ("stream", JS.VBool false)]
     ++ match given systemPrompt with
        | Some p => [("system", JS.VString p)]
        | None => []
        end
     ++ (if JS.truthy format then [("format", format)] else [])).

Definition callOllamaAPI (baseUrl userPrompt : string)
  (systemPrompt : option string) (modelName : string) (format : JS.value)
  : M JS.value :=
  try_catch
    ((if JS.blank userPrompt
      then throw (Error "User prompt is required") else ret tt) ;;
     let requestBody := ollama_body userPrompt systemPrompt modelName format in
     data <- post env (baseUrl ++ "/api/generate") requestBody ;;
     prop data "response")
    (rethrow "Ollama").

End Api.

End Api.

(* ================================================================== *)
(** ** expo-upgrade.js

    [resolveExpoDoctor], [checkExpoDoctor], [installDependencies] and
    the loop of [expoUpgrade] with the try and catch around it.  What
    [expoUpgrade] does before the loop (validation, unpacking, copying,
    the version bump and the first install) is not part of the model:
    a run starts from the world those steps leave. *)

Module Upgrade.
Import Proc.

Record ValidatedArgs : Type := {
  geminiKey : option string;         (* [undefined] is [None] *)
  ollamaUrl : string;
  ollamaModel : option string
}.

(** A string argument that is truthy. *)
Definition provided (o : option string) : option string :=
  match o with
  | Some EmptyString => None
  | _ => o
  end.

Definition first_truthy (l : list (option string)) (default : string)
  : string :=
  fold_right
    (fun o rest => match provided o with Some t => t | None => rest end)
    default l.

(** [v === s]. *)
Definition is_string (v : JS.value) (s : string) : bool :=
  match v with
  | JS.VString t => String.eqb t s
  | _ => false
  end.

(** The outcome that [expoUpgrade] prints when the loop is over. *)
Inductive report : Type := Passed | Failed.

Section Upgrade.

Variable env : Env.
Variable src : string.

Local Open Scope proc_scope.

Definition installDependencies : M unit :=
  try_catch (exec_npm_install env) (fun _ => exit 1%Z).

(** Lines 180 to 210: the inner try.  [Some status] is the return of
    line 203; [None] is control leaving the try or the catch. *)
Definition apply_resolution (gemini : bool) (resolution : JS.value)
  : M (option JS.value) :=
  try_catch
    (data <- JSON_parse resolution ;;
     replacement <- prop data "data" ;;
     (if JS.truthy replacement then
        if gemini then writeFileSync_package_json replacement
        else writeFileSync_package_json
               match JS.stringify2 replacement with
               | Some text => JS.VString text
               | None => JS.VUndefined
               end
      else ret tt) ;;
     if JS.truthy data then
       status <- prop data "status" ;;
       if JS.truthy status then ret (Some status) else ret None
     else ret None)
    (fun parseError => ret None).

(** Lines 157 to 172: the reply of the configured backend. *)
Definition consult (errorLog : string) (packageJson : JS.value)
  (geminiKey : option string) (ollamaUrl : string)
  (ollamaModel : option string) : M JS.value :=
  match provided geminiKey, provided ollamaModel with
  | Some key, _ =>
      let geminiPrompt :=
        Prompts.generateGeminiExpoDoctorPrompt errorLog packageJson in
      Api.callGeminiAPI env key geminiPrompt None
        "gemini-2.0-flash-lite" "generateContent"
  | None, Some model =>
      let ollamaPrompt :=
        Prompts.generateOllamaExpoDoctorPrompt errorLog packageJson in
      let ollamaFormat := Prompts.generateOllamaExpoDoctorFormat in
      Api.callOllamaAPI env ollamaUrl ollamaPrompt None model ollamaFormat
  | None, None =>
      throw (Error ("No AI provider configured. Please provide either"
                    ++ " --gemini-key or --ollama-model"))
  end.

Definition is_gemini (geminiKey : option string) : bool :=
  match provided geminiKey with Some _ => true | None => false end.

Definition resolveExpoDoctor (errorLog : string) (geminiKey : option string)
  (ollamaUrl : string) (ollamaModel : option string) : M JS.value :=
  text <- readFileSync_package_json src ;;
  packageJson <- JSON_parse (JS.VString text) ;;
  returned <-
    try_catch
      (resolution <- consult errorLog packageJson geminiKey ollamaUrl
                       ollamaModel ;;
       apply_resolution (is_gemini geminiKey) resolution)
      (fun aiError => ret None) ;;
  match returned with
  | Some status => ret status
  | None => ret (JS.VString "error")
  end.

Definition error_log (result : ExecaResult) : string :=
  let errorOutput :=
    first_truthy [all result; stderr result; stdout result]
      "No output captured" in
  "Expo Doctor Error:" ++ JS.nl
  ++ "Exit Code: "
  ++ match exitCode result with
     | Some c => Text.of_Z c
     | None => "undefined"
     end
  ++ JS.nl ++ JS.nl ++ "Error Output:" ++ JS.nl ++ errorOutput
  ++ JS.nl ++ JS.nl ++ "Command: npx expo-doctor" ++ JS.nl
  ++ "Working Directory: " ++ src.

Definition exit_zero (result : ExecaResult) : bool :=
  match exitCode result with
  | Some c => (c =? 0)%Z
  | None => false
  end.

Definition checkExpoDoctor (geminiKey : option string) (ollamaUrl : string)
  (ollamaModel : option string) : M bool :=
  try_catch
    (result <- execa_expo_doctor env ;;
     if exit_zero result then ret true
     else
       status <- resolveExpoDoctor (error_log result) geminiKey ollamaUrl
                   ollamaModel ;;
       if is_string status "success" then ret true else ret false)
    (fun error => ret false).

(** The while loop of lines 303 to 318.  [fuel] bounds the number of
    iterations the model follows; [maxAttempts] of them are enough
    (see [Facts.loop_rule] and [repair_loop_within_budget] below). *)
Fixpoint loop (fuel : nat) (args : ValidatedArgs) (maxAttempts attempt : nat)
  (expoDoctorPassed : bool) : M bool :=
  if negb expoDoctorPassed && (attempt <=? maxAttempts)%nat then
    match fuel with
    | O => diverge
    | S fuel' =>
        passed <- checkExpoDoctor (geminiKey args) (ollamaUrl args)
                    (ollamaModel args) ;;
        (if negb passed && (attempt <? maxAttempts)%nat then
           rmSync_package_lock src ;;
           rmSync_node_modules src ;;
           installDependencies
         else ret tt) ;;
        loop fuel' args maxAttempts (attempt + 1) passed
    end
  else ret expoDoctorPassed.

Definition maxAttempts : nat := 5.

(** Lines 298 to 330, taken up at the loop test with the counter at
    [attempt]. *)
Definition upgrade_from (fuel : nat) (args : ValidatedArgs)
  (attempt : nat) (expoDoctorPassed : bool) : M report :=
  try_catch
    (passed <- loop fuel args maxAttempts attempt expoDoctorPassed ;;
     if (passed : bool) then ret Passed else ret Failed)
    (fun error => exit 1%Z).

Definition expoUpgrade (args : ValidatedArgs) : M report :=
  upgrade_from maxAttempts args 1 false.

End Upgrade.

End Upgrade.

(* ================================================================== *)
(** ** Reasoning about computations *)

Module Logic.
Import Proc.

(** [ends r R T X]: the computation ended, and its end satisfies [R]
    if it returned, [T] if it threw, [X] if it left the process. *)
Definition ends {A} (r : result A) (R : A -> World -> Prop)
  (T : error -> World -> Prop) (X : Z -> World -> Prop) : Prop :=
  match r with
  | Return a w => R a w
  | Throw e w => T e w
  | Exit c w => X c w
  | Diverge => False
  end.

(** The world a computation ended in; [None] if it has not ended. *)
Definition final {A} (r : result A) : option World :=
  match r with
  | Return _ w | Throw _ w | Exit _ w => Some w
  | Diverge => None
  end.

Definition never {A} : A -> World -> Prop := fun _ _ => False.

Lemma ends_weaken {A} (r : result A) (R R' : A -> World -> Prop)
  (T T' : error -> World -> Prop) (X X' : Z -> World -> Prop) :
  ends r R T X ->
  (forall a w, R a w -> R' a w) ->
  (forall e w, T e w -> T' e w) ->
  (forall c w, X c w -> X' c w) ->
  ends r R' T' X'.
Proof. destruct r; simpl; auto. Qed.

Lemma ends_ret {A} (a : A) w (R : A -> World -> Prop) T X :
  R a w -> ends (ret a w) R T X.
Proof. auto. Qed.

Lemma ends_throw {A} e w (R : A -> World -> Prop)
  (T : error -> World -> Prop) X :
  T e w -> ends (@throw A e w) R T X.
Proof. auto. Qed.

Lemma ends_bind {A B} (m : M A) (k : A -> M B) w R T X :
  ends (m w) (fun a w' => ends (k a w') R T X) T X ->
  ends (bind m k w) R T X.
Proof. unfold bind; destruct (m w); simpl; auto. Qed.

Lemma ends_try_catch {A} (m : M A) (h : error -> M A) w R T X :
  ends (m w) R (fun e w' => ends (h e w') R T X) X ->
  ends (try_catch m h w) R T X.
Proof. unfold try_catch; destruct (m w); simpl; auto. Qed.

Lemma ends_await {A} (s : settled A) w (R : A -> World -> Prop)
  (T : error -> World -> Prop) X :
  (forall a, s = Resolved a -> R a w) ->
  (forall e, s = Rejected e -> T e w) ->
  ends (await s w) R T X.
Proof. destruct s; simpl; auto. Qed.

(** A computation that neither reads nor changes the world. *)
Definition stateless {A} (m : M A) : Prop :=
  exists s : settled A, forall w, m w = await s w.

Lemma stateless_ret {A} (a : A) : stateless (ret a).
Proof. exists (Resolved a); reflexivity. Qed.

Lemma stateless_throw {A} e : stateless (@throw A e).
Proof. exists (Rejected e); reflexivity. Qed.

Lemma stateless_bind {A B} (m : M A) (k : A -> M B) :
  stateless m -> (forall a, stateless (k a)) -> stateless (bind m k).
Proof.
  intros [s Hs] Hk. destruct s as [a | e].
  - destruct (Hk a) as [s' Hs']. exists s'. intro w.
    unfold bind. rewrite Hs. simpl. apply Hs'.
  - exists (Rejected e). intro w. unfold bind. rewrite Hs. reflexivity.
Qed.

Lemma stateless_if {A} (b : bool) (m1 m2 : M A) :
  stateless m1 -> stateless m2 -> stateless (if b then m1 else m2).
Proof. destruct b; auto. Qed.

Lemma stateless_ends {A} (m : M A) w (R : A -> World -> Prop)
  (T : error -> World -> Prop) X :
  stateless m ->
  (forall a, m w = Return a w -> R a w) ->
  (forall e, m w = Throw e w -> T e w) ->
  ends (m w) R T X.
Proof.
  intros [s Hs] HR HT. specialize (Hs w).
  destruct s; simpl in Hs; rewrite Hs in *; simpl; auto.
Qed.

Lemma stateless_prop v k : stateless (prop v k).
Proof.
  unfold prop. destruct (JS.get v k);
    [apply stateless_ret | apply stateless_throw].
Qed.

Lemma stateless_greater_than_zero v : stateless (greater_than_zero v).
Proof.
  unfold greater_than_zero. destruct (JS.is_positive v);
    [apply stateless_ret | apply stateless_throw].
Qed.

Lemma stateless_JSON_parse v : stateless (JSON_parse v).
Proof.
  unfold JSON_parse. destruct (JS.parse v);
    [apply stateless_ret | apply stateless_throw].
Qed.

Create HintDb stateless.

#[export] Hint Resolve stateless_ret stateless_throw stateless_prop
  stateless_greater_than_zero stateless_JSON_parse : stateless.

Ltac stateless :=
  repeat first
    [ apply stateless_bind; [| intro]
    | apply stateless_if
    | solve [auto with stateless]
    | match goal with
      | |- stateless (match ?x with _ => _ end) => destruct x
      end ].

Lemma stateless_extract_text data : stateless (Api.extract_text data).
Proof. unfold Api.extract_text. stateless. Qed.

End Logic.

(* ================================================================== *)
(** ** What each function does to the world *)

Module Facts.
Import Proc Logic Upgrade.

Section Facts.

Variable env : Env.
Variable src : string.

(** *** The API clients: at most one request, nothing else *)

Lemma rethrow_throws {A} api e w :
  exists e', @Api.rethrow A api e w = Throw e' w.
Proof.
  unfold Api.rethrow. destruct (response e); [| destruct (request e)];
    eexists; reflexivity.
Qed.

Lemma ends_post url body w (R : JS.value -> World -> Prop)
  (T : error -> World -> Prop) X :
  (forall data, axios_post env (llm_calls w) = Resolved data ->
                R data (record (EvPost url body) w)) ->
  (forall e, axios_post env (llm_calls w) = Rejected e ->
             T e (record (EvPost url body) w)) ->
  ends (post env url body w) R T X.
Proof. intros. unfold post. apply ends_await; auto. Qed.

Lemma ends_rethrow {A} api e w (R : A -> World -> Prop)
  (T : error -> World -> Prop) X :
  (forall e', T e' w) -> ends (Api.rethrow api e w) R T X.
Proof.
  intro H. destruct (rethrow_throws (A := A) api e w) as [e' He'].
  rewrite He'. apply H.
Qed.

(** After callGeminiAPI the world is the one before, with the request
    recorded unless validation refused the arguments. *)
Lemma callGeminiAPI_world key prompt sys model method w :
  let w' := record (EvPost (Api.gemini_url model method key)
                           (Api.gemini_body prompt sys)) w in
  ends (Api.callGeminiAPI env key prompt sys model method w)
    (fun _ w1 => JS.blank key = false /\ JS.blank prompt = false /\ w1 = w')
    (fun _ w1 => if JS.blank key || JS.blank prompt then w1 = w else w1 = w')
    never.
Proof.
  intro w'. unfold Api.callGeminiAPI.
  apply ends_try_catch, ends_bind.
  destruct (JS.blank key) eqn:Hk.
  { apply ends_throw, ends_rethrow. reflexivity. }
  apply ends_ret, ends_bind.
  destruct (JS.blank prompt) eqn:Hp.
  { apply ends_throw, ends_rethrow. reflexivity. }
  apply ends_ret, ends_bind, ends_post.
  - intros data _. apply ends_bind.
    apply stateless_ends; [apply stateless_extract_text | |].
    + intros [text |] _.
      * apply ends_ret. auto.
      * apply ends_throw, ends_rethrow. reflexivity.
    + intros e _. apply ends_rethrow. reflexivity.
  - intros e _. apply ends_rethrow. reflexivity.
Qed.

Lemma callOllamaAPI_world url prompt sys model format w :
  let w' := record (EvPost (url ++ "/api/generate")
                           (Api.ollama_body prompt sys model format)) w in
  ends (Api.callOllamaAPI env url prompt sys model format w)
    (fun _ w1 => JS.blank prompt = false /\ w1 = w')
    (fun _ w1 => if JS.blank prompt then w1 = w else w1 = w')
    never.
Proof.
  intro w'. unfold Api.callOllamaAPI.
  apply ends_try_catch, ends_bind.
  destruct (JS.blank prompt) eqn:Hp.
  { apply ends_throw, ends_rethrow. reflexivity. }
  apply ends_ret, ends_bind, ends_post.
  - intros data _.
    apply stateless_ends; [apply stateless_prop | |].
    + intros v _. auto.
    + intros e _. apply ends_rethrow. reflexivity.
  - intros e _. apply ends_rethrow. reflexivity.
Qed.

(** *** The repair step: at most one request, then at most one write *)

Lemma prompt_not_blank log pj :
  JS.blank (Prompts.generateGeminiExpoDoctorPrompt log pj) = false
  /\ JS.blank (Prompts.generateOllamaExpoDoctorPrompt log pj) = false.
Proof. split; reflexivity. Qed.

(** The request that [consult] sends, if it sends one. *)
Definition request_of (errorLog : string) (packageJson : JS.value)
  (geminiKey : option string) (ollamaUrl : string)
  (ollamaModel : option string) : option event :=
  match provided geminiKey, provided ollamaModel with
  | Some key, _ =>
      if JS.blank key then None
      else Some (EvPost
                   (Api.gemini_url "gemini-2.0-flash-lite" "generateContent" key)
                   (Api.gemini_body
                      (Prompts.generateGeminiExpoDoctorPrompt errorLog
                         packageJson) None))
  | None, Some model =>
      Some (EvPost (ollamaUrl ++ "/api/generate")
              (Api.ollama_body
                 (Prompts.generateOllamaExpoDoctorPrompt errorLog packageJson)
                 None model Prompts.generateOllamaExpoDoctorFormat))
  | None, None => None
  end.

Definition after_request (o : option event) (w : World) : World :=
  match o with
  | Some e => record e w
  | None => w
  end.

Lemma consult_world log pj gk url om w :
  let w' := after_request (request_of log pj gk url om) w in
  ends (consult env log pj gk url om w)
    (fun _ w1 => request_of log pj gk url om <> None /\ w1 = w')
    (fun _ w1 => w1 = w')
    never.
Proof.
  intro w'. subst w'. unfold consult, request_of.
  destruct (prompt_not_blank log pj) as [Hg Ho].
  destruct (provided gk) as [key |].
  - eapply ends_weaken; [apply callGeminiAPI_world | | | auto].
    + intros v w1 (Hk & _ & ->). rewrite Hk. split; [discriminate | reflexivity].
    + intros e w1. rewrite Hg, orb_false_r.
      destruct (JS.blank key); auto.
  - destruct (provided om) as [model |].
    + eapply ends_weaken; [apply callOllamaAPI_world | | | auto].
      * intros v w1 (_ & ->). split; [discriminate | reflexivity].
      * intros e w1. rewrite Ho. auto.
    + apply ends_throw. reflexivity.
Qed.

Definition written (c : string) (w : World) : World :=
  record (EvWriteManifest c) (with_package_json c w).

(** What line 203 returns for a parsed reply, if anything. *)
Definition status_of (data : JS.value) : option JS.value :=
  if JS.truthy data then
    match JS.get data "status" with
    | Some s => if JS.truthy s then Some s else None
    | None => None
    end
  else None.

(** What lines 186 and 195 write for a truthy [data.data], if the
    write goes through. *)
Definition content_of (gemini : bool) (replacement : JS.value) : option string :=
  if gemini then
    match replacement with
    | JS.VString s => Some (utf8 s)
    | _ => None
    end
  else option_map utf8 (JS.stringify2 replacement).

Lemma apply_resolution_eq gemini resolution w :
  apply_resolution gemini resolution w =
  match JS.parse resolution with
  | None => Return None w
  | Some data =>
      match JS.get data "data" with
      | None => Return None w
      | Some replacement =>
          if JS.truthy replacement then
            match content_of gemini replacement with
            | Some c => Return (status_of data) (written c w)
            | None => Return None w
            end
          else Return (status_of data) w
      end
  end.
Proof.
  unfold apply_resolution, try_catch, bind, JSON_parse, prop, status_of,
    content_of, ret, throw.
  destruct (JS.parse resolution) as [data |]; [| reflexivity].
  cbv beta iota.
  destruct (JS.get data "data") as [replacement |] eqn:Hd; [| reflexivity].
  assert (Hs : exists s, JS.get data "status" = Some s).
  { destruct data; simpl in *; try discriminate; eauto. }
  destruct Hs as [s Hs]. rewrite Hs.
  destruct (JS.truthy replacement).
  - destruct gemini.
    + destruct replacement; try reflexivity.
      simpl. destruct (JS.truthy data); [destruct (JS.truthy s) |]; reflexivity.
    + destruct (JS.stringify2 replacement); try reflexivity.
      simpl. destruct (JS.truthy data); [destruct (JS.truthy s) |]; reflexivity.
  - destruct (JS.truthy data); [destruct (JS.truthy s) |]; reflexivity.
Qed.

(** The worlds a repair step can leave: nothing done, the request
    sent, or the request sent and package.json written. *)
Inductive repaired (w : World) : World -> Prop :=
| repaired_nothing : repaired w w
| repaired_asked e : is_post e = true -> repaired w (record e w)
| repaired_written e c :
    is_post e = true -> repaired w (written c (record e w)).

Lemma request_of_is_post log pj gk url om e :
  request_of log pj gk url om = Some e -> is_post e = true.
Proof.
  unfold request_of.
  destruct (provided gk) as [key |];
    [destruct (JS.blank key) | destruct (provided om)];
    intro H; inversion H; reflexivity.
Qed.

Lemma resolveExpoDoctor_world log gk url om w :
  ends (resolveExpoDoctor env src log gk url om w)
    (fun _ w1 => repaired w w1) (fun _ w1 => w1 = w) never.
Proof.
  unfold resolveExpoDoctor. apply ends_bind.
  unfold readFileSync_package_json.
  destruct (package_json (fs w)) as [text |]; [| reflexivity].
  apply ends_bind.
  apply stateless_ends; [apply stateless_JSON_parse | | auto].
  intros pj _.
  assert (H : ends (try_catch
                      (bind (consult env log pj gk url om)
                         (fun resolution =>
                            apply_resolution (is_gemini gk) resolution))
                      (fun _ => ret None) w)
                (fun _ w1 => repaired w w1) never never).
  { apply ends_try_catch, ends_bind.
    eapply ends_weaken; [apply consult_world | | | auto].
    - intros resolution w1 [Hreq ->].
      destruct (request_of log pj gk url om) as [e |] eqn:He;
        [| congruence].
      apply request_of_is_post in He. simpl.
      rewrite apply_resolution_eq.
      destruct (JS.parse resolution) as [data |];
        [| now apply repaired_asked].
      destruct (JS.get data "data") as [replacement |]; [| now apply repaired_asked].
      destruct (JS.truthy replacement); [| now apply repaired_asked].
      destruct (content_of (is_gemini gk) replacement);
        [now apply repaired_written | now apply repaired_asked].
    - intros e w1 ->.
      destruct (request_of log pj gk url om) as [e0 |] eqn:He; simpl.
      + apply request_of_is_post in He. now apply repaired_asked.
      + apply repaired_nothing. }
  apply ends_bind.
  eapply ends_weaken; [exact H | | intros ? ? [] | auto].
  intros [status |] w1 Hw; exact Hw.
Qed.

(** The answer of the diagnostic run that a check started in [w] gets,
    and whether it is a pass: exit code 0. *)
Definition diagnosis (w : World) : settled ExecaResult :=
  expo_doctor env (diagnostic_runs w).

Definition passes (s : settled ExecaResult) : bool :=
  match s with
  | Resolved result => exit_zero result
  | Rejected _ => false
  end.

(** checkExpoDoctor always returns; it runs the diagnostic once, and
    repairs unless the diagnostic passed. *)
Lemma checkExpoDoctor_world gk url om w :
  ends (checkExpoDoctor env src gk url om w)
    (fun b w1 =>
       if passes (diagnosis w) then b = true /\ w1 = record EvExpoDoctor w
       else repaired (record EvExpoDoctor w) w1)
    never never.
Proof.
  unfold checkExpoDoctor, passes, diagnosis.
  apply ends_try_catch, ends_bind.
  unfold execa_expo_doctor. apply ends_await.
  - intros result ->.
    destruct (exit_zero result); [now split |].
    apply ends_bind.
    eapply ends_weaken; [apply resolveExpoDoctor_world | | | auto].
    + intros status w1 Hw.
      destruct (is_string status "success"); exact Hw.
    + intros e w1 ->. apply repaired_nothing.
  - intros e ->. apply repaired_nothing.
Qed.

(** *** Counting events *)

Lemma count_record p e w :
  count p (record e w) = count p w + (if p e then 1 else 0).
Proof.
  unfold count, record. simpl. rewrite filter_app, length_app. simpl.
  destruct (p e); reflexivity.
Qed.

Lemma count_written p c w :
  count p (written c w) = count p w + (if p (EvWriteManifest c) then 1 else 0).
Proof. unfold written. rewrite count_record. reflexivity. Qed.

Lemma repaired_counts w w1 :
  repaired w w1 ->
  diagnostic_runs w1 = diagnostic_runs w
  /\ installs w1 = installs w
  /\ removals w1 = removals w
  /\ llm_calls w <= llm_calls w1 <= llm_calls w + 1
  /\ manifest_writes w <= manifest_writes w1 <= manifest_writes w + 1
  /\ package_lock (fs w1) = package_lock (fs w)
  /\ node_modules (fs w1) = node_modules (fs w).
Proof.
  unfold diagnostic_runs, installs, removals, llm_calls, manifest_writes.
  intros [| e He | e c He]; rewrite ?count_written, ?count_record;
    [| destruct e; try discriminate He ..]; simpl; repeat split; lia.
Qed.

(** *** One turn of the loop *)

(** Lines 311 to 314. *)
Definition cleanup : M unit :=
  (rmSync_package_lock src ;; rmSync_node_modules src ;;
   installDependencies env)%proc.

(** Lines 306 to 315: the check, then the cleanup if the check failed
    and attempts remain. *)
Definition iteration (args : ValidatedArgs) (max attempt : nat) : M bool :=
  (passed <- checkExpoDoctor env src (geminiKey args) (ollamaUrl args)
               (ollamaModel args) ;;
   (if negb passed && (attempt <? max)%nat then cleanup else ret tt) ;;
   ret passed)%proc.

Lemma loop_continue fuel args max attempt w :
  attempt <= max ->
  loop env src (S fuel) args max attempt false w =
  bind (iteration args max attempt)
    (fun passed => loop env src fuel args max (attempt + 1) passed) w.
Proof.
  intro H. apply Nat.leb_le in H.
  cbn [loop]. rewrite H. cbn [negb andb].
  unfold iteration, bind, cleanup.
  destruct (checkExpoDoctor _ _ _ _ _ w) as [passed w1 | | |]; try reflexivity.
  destruct (negb passed && (attempt <? max)%nat); [| reflexivity].
  unfold bind.
  destruct (rmSync_package_lock src w1) as [[] w2 | | |]; try reflexivity.
  destruct (rmSync_node_modules src w2) as [[] w3 | | |]; try reflexivity.
  destruct (installDependencies env w3) as [[] w4 | | |]; reflexivity.
Qed.

Lemma loop_stop fuel args max attempt passed w :
  passed = true \/ max < attempt ->
  loop env src fuel args max attempt passed w = Return passed w.
Proof.
  intro H.
  assert (E : negb passed && (attempt <=? max)%nat = false).
  { destruct H as [-> | H]; [reflexivity |].
    apply Nat.leb_gt in H. rewrite H. apply andb_false_r. }
  destruct fuel; cbn [loop]; rewrite E; reflexivity.
Qed.

(** The cleanup returns only if both paths were there and npm
    succeeded; it throws only if a path was missing, before npm is
    run; it leaves the process only if npm failed. *)
Definition cleaned (w w1 : World) : Prop :=
  trace w1 = (trace w ++ [EvRemoveLock; EvRemoveModules; EvInstall])%list
  /\ package_json (fs w1) = package_json (fs w).

Lemma cleanup_world w :
  let npm := npm_install env (installs w) in
  ends (cleanup w)
    (fun _ w1 =>
       cleaned w w1
       /\ package_lock (fs w) = true /\ node_modules (fs w) = true
       /\ install npm = Resolved tt
       /\ package_lock (fs w1) = lock_after npm
       /\ node_modules (fs w1) = modules_after npm)
    (fun _ w1 =>
       (package_lock (fs w) = false \/ node_modules (fs w) = false)
       /\ package_json (fs w1) = package_json (fs w)
       /\ forall p, (forall e, is_removal e = true -> p e = false) ->
                    count p w1 = count p w)
    (fun code w1 =>
       code = 1%Z /\ cleaned w w1
       /\ package_lock (fs w) = true /\ node_modules (fs w) = true
       /\ exists e, install npm = Rejected e).
Proof.
  intro npm. unfold cleanup. apply ends_bind. unfold rmSync_package_lock.
  destruct (package_lock (fs w)) eqn:Hl; [| simpl; auto].
  apply ends_bind. unfold rmSync_node_modules. simpl.
  destruct (node_modules (fs w)) eqn:Hm.
  - unfold installDependencies. apply ends_try_catch.
    unfold exec_npm_install.
    assert (Hn : installs
                   (record EvRemoveModules
                      (with_node_modules false
                         (record EvRemoveLock (with_package_lock false w))))
                 = installs w).
    { unfold installs, count. simpl.
      rewrite !filter_app, !length_app. simpl. lia. }
    rewrite Hn. fold npm.
    apply ends_await.
    + intros [] Hi. repeat split; auto.
      unfold record, with_package_lock, with_node_modules. simpl.
      rewrite <- !app_assoc. reflexivity.
    + intros e Hi. simpl. split; [reflexivity |].
      split; [| eauto]. split; [| reflexivity].
      unfold record, with_package_lock, with_node_modules. simpl.
      rewrite <- !app_assoc. reflexivity.
  - simpl. split; [auto |]. split; [reflexivity |].
    intros p Hp. rewrite count_record.
    rewrite (Hp EvRemoveLock eq_refl). unfold count. simpl. lia.
Qed.

(** What a check started in [w] leaves. *)
Definition checked (w : World) (passed : bool) (w1 : World) : Prop :=
  if passes (diagnosis w) then passed = true /\ w1 = record EvExpoDoctor w
  else repaired (record EvExpoDoctor w) w1.

Lemma iteration_world args max attempt w :
  ends (iteration args max attempt w)
    (fun passed w2 =>
       exists w1, checked w passed w1 /\
         if negb passed && (attempt <? max)%nat then cleaned w1 w2
         else w2 = w1)
    (fun _ w2 =>
       exists w1, checked w false w1 /\ attempt < max
         /\ (package_lock (fs w1) = false \/ node_modules (fs w1) = false)
         /\ package_json (fs w2) = package_json (fs w1)
         /\ forall p, (forall e, is_removal e = true -> p e = false) ->
                      count p w2 = count p w1)
    (fun code w2 =>
       code = 1%Z /\ exists w1, checked w false w1 /\ attempt < max
                                /\ cleaned w1 w2).
Proof.
  unfold iteration. apply ends_bind.
  eapply ends_weaken;
    [apply checkExpoDoctor_world | | intros ? ? [] | intros ? ? []].
  intros passed w1 Hc. fold (checked w passed w1) in Hc.
  apply ends_bind.
  destruct (negb passed && (attempt <? max)%nat) eqn:E.
  - apply andb_true_iff in E. destruct E as [Hp Ha].
    apply negb_true_iff in Hp. subst passed.
    assert (Hlt : attempt < max) by (apply Nat.ltb_lt; exact Ha).
    eapply ends_weaken; [apply cleanup_world | | |]; simpl.
    + intros u w2 (H & _). exists w1. rewrite Ha. auto.
    + intros e w2 (H1 & H2 & H3). exists w1. auto.
    + intros code w2 (H1 & H2 & _). split; [exact H1 |]. exists w1. auto.
  - apply ends_ret, ends_ret. exists w1. rewrite E. auto.
Qed.

(** The rule of the loop: an invariant [I] of the counter, the flag
    and the world, kept by every turn, holds when the loop is left;
    [max + 1 - attempt] turns of fuel are enough. *)
Lemma loop_rule args max (I : nat -> bool -> World -> Prop)
  (R : bool -> World -> Prop) (T : error -> World -> Prop)
  (X : Z -> World -> Prop) :
  (forall attempt passed w,
     I attempt passed w -> passed = true \/ max < attempt -> R passed w) ->
  (forall attempt w,
     I attempt false w -> attempt <= max ->
     ends (iteration args max attempt w)
       (fun passed w1 => I (attempt + 1) passed w1) T X) ->
  forall fuel attempt passed w,
    max + 1 <= fuel + attempt ->
    I attempt passed w ->
    ends (loop env src fuel args max attempt passed w) R T X.
Proof.
  intros Hexit Hstep. induction fuel as [| fuel IH]; intros attempt passed w Hf HI.
  - rewrite loop_stop by lia. apply (Hexit attempt); auto. right; lia.
  - destruct passed.
    + rewrite loop_stop by auto. apply (Hexit attempt); auto.
    + destruct (le_gt_dec attempt max) as [Hle | Hgt].
      * rewrite loop_continue by exact Hle. apply ends_bind.
        eapply ends_weaken; [apply (Hstep attempt w HI Hle) | | auto | auto].
        intros passed w1 HI1. apply IH; [lia | exact HI1].
      * rewrite loop_stop by auto. apply (Hexit attempt); auto.
Qed.

Lemma cleaned_counts w w1 :
  cleaned w w1 ->
  diagnostic_runs w1 = diagnostic_runs w
  /\ installs w1 = installs w + 1
  /\ llm_calls w1 = llm_calls w
  /\ manifest_writes w1 = manifest_writes w
  /\ package_json (fs w1) = package_json (fs w).
Proof.
  unfold diagnostic_runs, installs, llm_calls, manifest_writes, count.
  intros [Ht Hp]. rewrite Ht, !filter_app, !length_app. simpl.
  repeat split; try lia. exact Hp.
Qed.

Lemma checked_counts w passed w1 :
  checked w passed w1 ->
  diagnostic_runs w1 = diagnostic_runs w + 1
  /\ installs w1 = installs w
  /\ removals w1 = removals w
  /\ llm_calls w <= llm_calls w1 <= llm_calls w + 1
  /\ manifest_writes w <= manifest_writes w1 <= manifest_writes w + 1
  /\ package_lock (fs w1) = package_lock (fs w)
  /\ node_modules (fs w1) = node_modules (fs w).
Proof.
  unfold checked. intro H.
  assert (Hr : repaired (record EvExpoDoctor w) w1).
  { destruct (passes (diagnosis w)); [| exact H].
    destruct H as [_ ->]. apply repaired_nothing. }
  apply repaired_counts in Hr.
  unfold diagnostic_runs, installs, removals, llm_calls, manifest_writes in *.
  rewrite !count_record in Hr. simpl in Hr. intuition lia.
Qed.

Lemma checked_false w w1 :
  checked w false w1 -> passes (diagnosis w) = false.
Proof. unfold checked. destruct (passes (diagnosis w)); [intros []; discriminate | auto]. Qed.

(** The loop wrapped as [expoUpgrade] wraps it: a throw becomes
    [process.exit(1)]. *)
Lemma ends_upgrade_from fuel args attempt passed w
  (R : bool -> World -> Prop) (T : error -> World -> Prop)
  (X : Z -> World -> Prop) :
  ends (loop env src fuel args maxAttempts attempt passed w) R T X ->
  ends (upgrade_from env src fuel args attempt passed w)
    (fun r w1 => R (match r with Passed => true | Failed => false end) w1)
    never
    (fun code w1 => X code w1 \/ (code = 1%Z /\ exists e, T e w1)).
Proof.
  intro H. unfold upgrade_from. apply ends_try_catch, ends_bind.
  eapply ends_weaken; [exact H | | |]; simpl.
  - intros [] w1 HR; exact HR.
  - intros e w1 HT. right. eauto.
  - intros code w1 HX. left. exact HX.
Qed.

(** *** The budget of the loop *)

(** Where a run that started in [w0] can stand after the loop, for a
    budget of [max] attempts: at most [max] diagnostic runs, at most
    [max - 1] installs, and no diagnostic run after one that passed. *)
Definition within_budget (max : nat) (w0 w1 : World) : Prop :=
  diagnostic_runs w1 <= diagnostic_runs w0 + max
  /\ installs w1 <= installs w0 + (max - 1)
  /\ forall n, diagnostic_runs w0 <= n ->
               passes (expo_doctor env n) = true ->
               diagnostic_runs w1 <= n + 1.

Definition budget_invariant (max : nat) (w0 : World)
  (attempt : nat) (passed : bool) (w1 : World) : Prop :=
  1 <= attempt <= max + 1
  /\ diagnostic_runs w1 = diagnostic_runs w0 + (attempt - 1)
  /\ installs w1 <= installs w0 + Nat.min (attempt - 1) (max - 1)
  /\ forall n, diagnostic_runs w0 <= n ->
               n + (if passed then 1 else 0) < diagnostic_runs w1 ->
               passes (expo_doctor env n) = false.

Lemma budget_invariant_exit max w0 attempt passed w1 :
  budget_invariant max w0 attempt passed w1 -> within_budget max w0 w1.
Proof.
  intros (Ha & Hd & Hi & Hp). repeat split; try lia.
  intros n Hn Hpass.
  destruct (le_gt_dec (diagnostic_runs w1) (n + 1)) as [| Hgt]; [assumption |].
  rewrite Hp in Hpass; [discriminate | exact Hn |].
  destruct passed; lia.
Qed.

Lemma budget_iteration args max w0 attempt w :
  budget_invariant max w0 attempt false w -> attempt <= max ->
  ends (iteration args max attempt w)
    (fun passed w1 => budget_invariant max w0 (attempt + 1) passed w1)
    (fun _ w1 => within_budget max w0 w1)
    (fun _ w1 => within_budget max w0 w1).
Proof.
  intros (Ha & Hd & Hi & Hp) Hle.
  assert (Hearlier : forall (passed : bool) n,
             diagnostic_runs w0 <= n ->
             n + (if passed then 1 else 0) < diagnostic_runs w + 1 ->
             (passed = false -> passes (diagnosis w) = false) ->
             passes (expo_doctor env n) = false).
  { intros passed n Hn Hlt Hlast.
    destruct (Nat.eq_dec n (diagnostic_runs w)) as [-> | Hne].
    - destruct passed; [lia | apply Hlast; reflexivity].
    - apply Hp; [exact Hn | lia]. }
  eapply ends_weaken; [apply iteration_world | | |]; simpl.
  - intros passed w2 (w1 & Hc & Hw2).
    pose proof (checked_counts _ _ _ Hc) as (Cd & Ci & _).
    assert (Hlast : passed = false -> passes (diagnosis w) = false).
    { intros ->. exact (checked_false _ _ Hc). }
    destruct (negb passed && (attempt <? max)%nat) eqn:E.
    + apply andb_true_iff in E. destruct E as [_ E]. apply Nat.ltb_lt in E.
      apply cleaned_counts in Hw2. destruct Hw2 as (Dd & Di & _).
      repeat split; try lia.
      intros n Hn Hlt. apply (Hearlier passed n Hn); [lia | exact Hlast].
    + subst w2. repeat split; try lia.
      intros n Hn Hlt. apply (Hearlier passed n Hn); [lia | exact Hlast].
  - intros e w2 (w1 & Hc & Hlt & _ & _ & Hcount).
    pose proof (checked_counts _ _ _ Hc) as (Cd & Ci & _).
    pose proof (checked_false _ _ Hc) as Hfail.
    assert (Dd : diagnostic_runs w2 = diagnostic_runs w1)
      by (apply Hcount; intros []; simpl; congruence).
    assert (Di : installs w2 = installs w1)
      by (apply Hcount; intros []; simpl; congruence).
    repeat split; try lia.
    intros n Hn Hpass.
    destruct (le_gt_dec (diagnostic_runs w2) (n + 1)) as [| Hgt]; [assumption |].
    rewrite (Hearlier false n Hn) in Hpass; [discriminate | lia | auto].
  - intros code w2 (_ & w1 & Hc & Hlt & Hw2).
    pose proof (checked_counts _ _ _ Hc) as (Cd & Ci & _).
    pose proof (checked_false _ _ Hc) as Hfail.
    apply cleaned_counts in Hw2. destruct Hw2 as (Dd & Di & _).
    repeat split; try lia.
    intros n Hn Hpass.
    destruct (le_gt_dec (diagnostic_runs w2) (n + 1)) as [| Hgt]; [assumption |].
    rewrite (Hearlier false n Hn) in Hpass; [discriminate | lia | auto].
Qed.

Lemma loop_within_budget args max w :
  1 <= max ->
  ends (loop env src max args max 1 false w)
    (fun _ w1 => within_budget max w w1)
    (fun _ w1 => within_budget max w w1)
    (fun _ w1 => within_budget max w w1).
Proof.
  intro Hmax.
  apply (loop_rule args max (budget_invariant max w)).
  - intros attempt passed w1 HI _. exact (budget_invariant_exit _ _ _ _ _ HI).
  - intros attempt w1 HI Hle. apply budget_iteration; assumption.
  - lia.
  - repeat split; try lia.
Qed.

(** *** Equations for the repair step *)

(** The status that resolveExpoDoctor hands back for what the inner
    try returned. *)
Definition or_error (returned : option JS.value) : JS.value :=
  match returned with
  | Some status => status
  | None => JS.VString "error"
  end.

Lemma resolveExpoDoctor_eq log gk url om w text pj :
  package_json (fs w) = Some text ->
  JS.parse (JS.VString text) = Some pj ->
  resolveExpoDoctor env src log gk url om w =
  match consult env log pj gk url om w with
  | Return resolution w1 =>
      match apply_resolution (is_gemini gk) resolution w1 with
      | Return returned w2 => Return (or_error returned) w2
      | Throw _ w2 => Return (JS.VString "error") w2
      | Exit code w2 => Exit code w2
      | Diverge => Diverge
      end
  | Throw _ w1 => Return (JS.VString "error") w1
  | Exit code w1 => Exit code w1
  | Diverge => Diverge
  end.
Proof.
  intros Ht Hp.
  unfold resolveExpoDoctor, bind, readFileSync_package_json, JSON_parse,
    try_catch.
  rewrite Ht, Hp. unfold ret at 1.
  destruct (consult env log pj gk url om w) as [resolution w1 | | |];
    try reflexivity.
  destruct (apply_resolution (is_gemini gk) resolution w1)
    as [[status |] w2 | | |]; reflexivity.
Qed.

Lemma checkExpoDoctor_eq gk url om w result :
  diagnosis w = Resolved result ->
  exit_zero result = false ->
  checkExpoDoctor env src gk url om w =
  match resolveExpoDoctor env src (error_log src result) gk url om
          (record EvExpoDoctor w) with
  | Return status w1 => Return (is_string status "success") w1
  | Throw _ w1 => Return false w1
  | Exit code w1 => Exit code w1
  | Diverge => Diverge
  end.
Proof.
  unfold diagnosis. intros Hd Hz.
  unfold checkExpoDoctor, try_catch, bind, execa_expo_doctor.
  rewrite Hd. simpl. rewrite Hz.
  destruct (resolveExpoDoctor _ _ _ _ _ _ _) as [status w1 | | |];
    try reflexivity.
  destruct (is_string status "success"); reflexivity.
Qed.

Lemma checkExpoDoctor_pass gk url om w :
  passes (diagnosis w) = true ->
  checkExpoDoctor env src gk url om w = Return true (record EvExpoDoctor w).
Proof.
  intro H. pose proof (checkExpoDoctor_world gk url om w) as E.
  rewrite H in E.
  destruct (checkExpoDoctor env src gk url om w); simpl in E;
    try contradiction.
  destruct E as [-> ->]. reflexivity.
Qed.

(** A check that succeeds ends the upgrade as passed, at any attempt
    within the budget. *)
Lemma upgrade_from_passed fuel args attempt w w1 :
  attempt <= maxAttempts ->
  checkExpoDoctor env src (geminiKey args) (ollamaUrl args) (ollamaModel args)
    w = Return true w1 ->
  upgrade_from env src (S fuel) args attempt false w = Return Passed w1.
Proof.
  intros Hle Hc. unfold upgrade_from, try_catch, bind.
  rewrite loop_continue by exact Hle.
  unfold bind, iteration, bind. rewrite Hc. simpl.
  rewrite loop_stop by auto. reflexivity.
Qed.

(** A check that fails on the last attempt ends it as failed, with
    nothing done after the check. *)
Lemma upgrade_from_failed_last fuel args w w1 :
  checkExpoDoctor env src (geminiKey args) (ollamaUrl args) (ollamaModel args)
    w = Return false w1 ->
  upgrade_from env src (S fuel) args maxAttempts false w = Return Failed w1.
Proof.
  intros Hc. unfold upgrade_from, try_catch, bind.
  rewrite loop_continue by auto.
  unfold bind, iteration, bind. rewrite Hc. simpl.
  rewrite loop_stop by (right; unfold maxAttempts; lia). reflexivity.
Qed.

End Facts.

End Facts.

(* ================================================================== *)
(** ** Concrete runs

    A project whose package.json asks for pkgA at ^1.0.0, a diagnostic
    that reports pkgA@1.0.0 with expected version 1.2.0, and the
    answers of the collaborators that the examples below combine. *)

Module Scenario.
Import Proc Upgrade.

Definition manifest : JS.value :=
  JS.VObject [("dependencies", JS.VObject [("pkgA", JS.VString "^1.0.0")])].

Definition repaired_manifest : JS.value :=
  JS.VObject [("dependencies", JS.VObject [("pkgA", JS.VString "1.2.0")])].

Definition text_of (v : JS.value) : string := JS.interpolate (JS.stringify v).

Definition log : string := "pkgA@1.0.0 - expected version: 1.2.0".

(** The line of the serialized manifest that holds pkgA. *)
Definition manifest_entry : string :=
  JS.dquote ++ "pkgA" ++ JS.dquote ++ ": " ++ JS.dquote ++ "^1.0.0"
  ++ JS.dquote.

Definition project : string := "/home/dev/.wm-reactnative-cli/upgrade/53.0.0/1".

Definition staged : World :=
  {| fs := {| package_json := Some (text_of manifest);
              package_lock := true;
              node_modules := true |};
     trace := [] |}.

(** The same project after something removed its lock file. *)
Definition unlocked : World := with_package_lock false staged.

Definition failing : ExecaResult :=
  {| exitCode := Some 1%Z; all := Some log; stderr := None; stdout := None |}.

Definition passing : ExecaResult :=
  {| exitCode := Some 0%Z; all := Some ""; stderr := None; stdout := None |}.

Definition installed : InstallResult :=
  {| install := Resolved tt; lock_after := true; modules_after := true |}.

Definition install_failed : InstallResult :=
  {| install := Rejected (Error "npm install exited with code 1");
     lock_after := false; modules_after := true |}.

(** The success envelope of the Gemini endpoint around a reply. *)
Definition gemini_envelope (text : JS.value) : JS.value :=
  JS.VObject
    [("candidates",
      JS.VArray
        [JS.VObject
           [("content",
             JS.VObject
               [("parts", JS.VArray [JS.VObject [("text", text)]])])]])].

(** A reply in the shape the Gemini prompt asks for: the manifest as a
    JSON text under data, and a status. *)
Definition reply (status : string) : JS.value :=
  JS.VString
    (text_of (JS.VObject [("data", JS.VString (text_of repaired_manifest));
                          ("status", JS.VString status)])).

Definition gemini_args : ValidatedArgs :=
  {| geminiKey := Some "AIzaSy-example-key";
     ollamaUrl := "http://localhost:11434";
     ollamaModel := None |}.

Definition ollama_args : ValidatedArgs :=
  {| geminiKey := None;
     ollamaUrl := "http://localhost:11434";
     ollamaModel := Some "llama3.2" |}.

(** Every diagnostic fails and the model always answers [reply status]. *)
Definition never_passing (status : string) : Env :=
  {| expo_doctor := fun _ => Resolved failing;
     axios_post := fun _ => Resolved (gemini_envelope (reply status));
     npm_install := fun _ => installed |}.


(** The same, with an npm install that fails. *)
Definition unparseable_install_failed : Env :=
  {| expo_doctor := fun _ => Resolved failing;
     axios_post := fun _ => Resolved (gemini_envelope (JS.VString "Sorry, I cannot help."));
     npm_install := fun _ => install_failed |}.

(** The first diagnostic passes. *)
Definition healthy : Env :=
  {| expo_doctor := fun _ => Resolved passing;
     axios_post := fun _ => Rejected (Error "connect ECONNREFUSED");
     npm_install := fun _ => installed |}.

(** Every diagnostic fails and the model reports success without any
    data. *)
Definition success_without_data : Env :=
  {| expo_doctor := fun _ => Resolved failing;
     axios_post := fun _ =>
       Resolved (gemini_envelope
                   (JS.VString (text_of (JS.VObject [("status", JS.VString "success")]))));
     npm_install := fun _ => installed |}.

(** An Ollama endpoint whose success response has no response field. *)
Definition ollama_empty : Env :=
  {| expo_doctor := fun _ => Resolved failing;
     axios_post := fun _ => Resolved (JS.VObject [("model", JS.VString "llama3.2");
                                                  ("done", JS.VBool true)]);
     npm_install := fun _ => installed |}.

(** A Gemini endpoint whose first part has no text field. *)
Definition gemini_textless : Env :=
  {| expo_doctor := fun _ => Resolved failing;
     axios_post := fun _ =>
       Resolved (JS.VObject
                   [("candidates",
                     JS.VArray
                       [JS.VObject
                          [("content",
                            JS.VObject [("parts", JS.VArray [JS.VObject []])])]])]);
     npm_install := fun _ => installed |}.

End Scenario.

(* ================================================================== *)
(** ** The claims *)

Import Proc Logic Upgrade Facts.

(** C7. If the diagnostic run of attempt 1 passes (exit code 0), the
    upgrade ends as passed in the world of that one run: exactly one
    diagnostic run, no request to the model, no write of package.json,
    no reinstall, the files untouched. *)
Theorem first_diagnostic_passes (env : Env) (src : string)
  (args : ValidatedArgs) (w : World) (result : ExecaResult) :
  expo_doctor env (diagnostic_runs w) = Resolved result ->
  exitCode result = Some 0%Z ->
  expoUpgrade env src args w = Return Passed (record EvExpoDoctor w)
  /\ diagnostic_runs (record EvExpoDoctor w) = diagnostic_runs w + 1
  /\ llm_calls (record EvExpoDoctor w) = llm_calls w
  /\ manifest_writes (record EvExpoDoctor w) = manifest_writes w
  /\ installs (record EvExpoDoctor w) = installs w
  /\ fs (record EvExpoDoctor w) = fs w.
Proof.
  intros Hd Hz. split.
  - unfold expoUpgrade. apply upgrade_from_passed; [unfold maxAttempts; lia |].
    apply checkExpoDoctor_pass. unfold diagnosis. rewrite Hd. simpl.
    unfold exit_zero. rewrite Hz. reflexivity.
  - unfold diagnostic_runs, llm_calls, manifest_writes, installs.
    rewrite !count_record. simpl. repeat split; lia.
Qed.

Lemma first_diagnostic_passes_witness :
  expoUpgrade Scenario.healthy Scenario.project Scenario.gemini_args
    Scenario.staged
  = Return Passed (record EvExpoDoctor Scenario.staged)
  /\ diagnostic_runs (record EvExpoDoctor Scenario.staged) = 1
  /\ llm_calls (record EvExpoDoctor Scenario.staged) = 0.
Proof.
  destruct (first_diagnostic_passes Scenario.healthy Scenario.project
              Scenario.gemini_args Scenario.staged Scenario.passing
              eq_refl eq_refl) as (H1 & H2 & H3 & _).
  split; [exact H1 |]. split; [exact H2 | exact H3].
Defined.

(** C3. Whatever the diagnostic, the model and npm answer, the upgrade
    ends (it returns or leaves the process), after at most maxAttempts
    = 5 diagnostic runs and at most maxAttempts reinstalls (in fact one
    fewer); and no diagnostic run is made after one that passed. *)
Theorem repair_loop_within_budget (env : Env) (src : string)
  (args : ValidatedArgs) (w : World) :
  maxAttempts = 5 /\
  exists w1,
    final (expoUpgrade env src args w) = Some w1
    /\ diagnostic_runs w1 <= diagnostic_runs w + maxAttempts
    /\ installs w1 <= installs w + maxAttempts
    /\ installs w1 <= installs w + (maxAttempts - 1)
    /\ (forall n, diagnostic_runs w <= n ->
                  passes (expo_doctor env n) = true ->
                  diagnostic_runs w1 <= n + 1).
Proof.
  split; [reflexivity |].
  assert (H : ends (expoUpgrade env src args w)
                (fun _ w1 => within_budget env maxAttempts w w1)
                never
                (fun _ w1 => within_budget env maxAttempts w w1)).
  { unfold expoUpgrade.
    eapply ends_weaken;
      [apply ends_upgrade_from, loop_within_budget; unfold maxAttempts; lia
      | | |]; simpl.
    - intros r w1 Hb. exact Hb.
    - intros e w1 [].
    - intros code w1 [Hb | [_ [e Hb]]]; exact Hb. }
  destruct (expoUpgrade env src args w) as [r w1 | e w1 | code w1 |];
    simpl in H; try contradiction;
    exists w1; (split; [reflexivity |]);
    destruct H as (Hd & Hi & Hp); repeat split; try lia; exact Hp.
Qed.

Lemma repair_loop_within_budget_witness :
  exists w1,
    final (expoUpgrade Scenario.healthy Scenario.project Scenario.gemini_args
             Scenario.staged) = Some w1
    /\ diagnostic_runs w1 <= 1.
Proof.
  destruct (repair_loop_within_budget Scenario.healthy Scenario.project
              Scenario.gemini_args Scenario.staged)
    as (_ & w1 & Hf & _ & _ & _ & Hp).
  exists w1. split; [exact Hf |].
  apply (Hp 0); [apply Nat.le_refl | reflexivity].
Defined.

(** *** Replies that report success *)

(** Only an object carries a status that is a string. *)
Lemma status_string_truthy data s :
  JS.get data "status" = Some (JS.VString s) -> JS.truthy data = true.
Proof.
  destruct data; simpl; intro H; try discriminate H; try reflexivity;
    vm_compute in H; discriminate H.
Qed.

Lemma consult_unchanged env log pj gk url om w resolution w1 :
  consult env log pj gk url om w = Return resolution w1 ->
  fs w1 = fs w
  /\ diagnostic_runs w1 = diagnostic_runs w
  /\ manifest_writes w1 = manifest_writes w
  /\ installs w1 = installs w.
Proof.
  intro H. pose proof (consult_world env log pj gk url om w) as E.
  rewrite H in E. simpl in E. destruct E as [Hreq ->].
  destruct (request_of log pj gk url om) as [e |] eqn:He; [| congruence].
  apply request_of_is_post in He. simpl.
  unfold diagnostic_runs, manifest_writes, installs.
  rewrite !count_record. destruct e; try discriminate He. simpl.
  repeat split; lia.
Qed.

(** What the run does at an attempt whose diagnostic failed and whose
    reply parsed with the status success: the reply is believed. *)
Lemma success_reply_passes env src args fuel attempt w result text pj
  resolution w1 data :
  attempt <= maxAttempts ->
  expo_doctor env (diagnostic_runs w) = Resolved result ->
  exit_zero result = false ->
  package_json (fs w) = Some text ->
  JS.parse (JS.VString text) = Some pj ->
  consult env (error_log src result) pj (geminiKey args) (ollamaUrl args)
    (ollamaModel args) (record EvExpoDoctor w) = Return resolution w1 ->
  JS.parse resolution = Some data ->
  JS.get data "status" = Some (JS.VString "success") ->
  forall w2,
    apply_resolution (is_gemini (geminiKey args)) resolution w1
    = Return (Some (JS.VString "success")) w2 ->
    resolveExpoDoctor env src (error_log src result) (geminiKey args)
      (ollamaUrl args) (ollamaModel args) (record EvExpoDoctor w)
    = Return (JS.VString "success") w2
    /\ checkExpoDoctor env src (geminiKey args) (ollamaUrl args)
         (ollamaModel args) w = Return true w2
    /\ upgrade_from env src (S fuel) args attempt false w = Return Passed w2.
Proof.
  intros Hle Hd Hz Ht Hp Hc Hr Hs w2 Ha.
  assert (R : resolveExpoDoctor env src (error_log src result) (geminiKey args)
                (ollamaUrl args) (ollamaModel args) (record EvExpoDoctor w)
              = Return (JS.VString "success") w2).
  { rewrite (resolveExpoDoctor_eq env src (error_log src result) _ _ _
               (record EvExpoDoctor w) text pj Ht Hp).
    rewrite Hc, Ha. reflexivity. }
  assert (C : checkExpoDoctor env src (geminiKey args) (ollamaUrl args)
                (ollamaModel args) w = Return true w2).
  { rewrite (checkExpoDoctor_eq env src _ _ _ w result Hd Hz), R.
    reflexivity. }
  split; [exact R |]. split; [exact C |].
  apply upgrade_from_passed; assumption.
Qed.

(** C6. At an attempt whose diagnostic failed, a reply that parses as
    JSON with status success and no data field makes resolveExpoDoctor
    return success without writing package.json, checkExpoDoctor
    return true, and the upgrade end as passed: nothing was repaired
    and no further diagnostic was run. *)
Theorem success_without_data_passes (env : Env) (src : string)
  (args : ValidatedArgs) (fuel attempt : nat) (w : World)
  (result : ExecaResult) (text : string) (pj resolution : JS.value)
  (w1 : World) (data : JS.value) :
  attempt <= maxAttempts ->
  expo_doctor env (diagnostic_runs w) = Resolved result ->
  exit_zero result = false ->
  package_json (fs w) = Some text ->
  JS.parse (JS.VString text) = Some pj ->
  consult env (error_log src result) pj (geminiKey args) (ollamaUrl args)
    (ollamaModel args) (record EvExpoDoctor w) = Return resolution w1 ->
  JS.parse resolution = Some data ->
  JS.get data "data" = Some JS.VUndefined ->
  JS.get data "status" = Some (JS.VString "success") ->
  resolveExpoDoctor env src (error_log src result) (geminiKey args)
    (ollamaUrl args) (ollamaModel args) (record EvExpoDoctor w)
  = Return (JS.VString "success") w1
  /\ checkExpoDoctor env src (geminiKey args) (ollamaUrl args)
       (ollamaModel args) w = Return true w1
  /\ upgrade_from env src (S fuel) args attempt false w = Return Passed w1
  /\ fs w1 = fs w
  /\ manifest_writes w1 = manifest_writes w
  /\ diagnostic_runs w1 = diagnostic_runs w + 1.
Proof.
  intros Hle Hd Hz Ht Hp Hc Hr Hdata Hs.
  assert (Ha : apply_resolution (is_gemini (geminiKey args)) resolution w1
               = Return (Some (JS.VString "success")) w1).
  { rewrite apply_resolution_eq, Hr, Hdata. simpl.
    unfold status_of. rewrite (status_string_truthy _ _ Hs), Hs.
    reflexivity. }
  destruct (success_reply_passes env src args fuel attempt w result text pj
              resolution w1 data Hle Hd Hz Ht Hp Hc Hr Hs w1 Ha)
    as (R & C & U).
  destruct (consult_unchanged _ _ _ _ _ _ _ _ _ Hc) as (Hfs & Hdr & Hw & _).
  unfold diagnostic_runs, manifest_writes in *.
  rewrite count_record in Hdr, Hw. simpl in Hdr, Hw.
  repeat split; auto; lia.
Qed.

Lemma success_without_data_passes_witness :
  exists w1,
    upgrade_from Scenario.success_without_data Scenario.project 5
      Scenario.gemini_args 1 false Scenario.staged = Return Passed w1
    /\ fs w1 = fs Scenario.staged
    /\ diagnostic_runs w1 = diagnostic_runs Scenario.staged + 1.
Proof.
  edestruct (success_without_data_passes Scenario.success_without_data
               Scenario.project Scenario.gemini_args 4 1 Scenario.staged
               Scenario.failing)
    as (_ & _ & U & F & _ & D).
  - unfold maxAttempts. repeat constructor.
  - reflexivity.
  - reflexivity.
  - reflexivity.
  - vm_compute. reflexivity.
  - vm_compute. reflexivity.
  - vm_compute. reflexivity.
  - vm_compute. reflexivity.
  - vm_compute. reflexivity.
  - eexists. split; [exact U |]. split; [exact F | exact D].
Defined.

(** The reply, once parsed, reports success: its status is the string
    success, and its data, if it is truthy, is something that the
    write of lines 186 and 195 accepts. *)
Definition reports_success (gemini : bool) (data : JS.value) : Prop :=
  JS.get data "status" = Some (JS.VString "success")
  /\ forall replacement,
       JS.get data "data" = Some replacement ->
       JS.truthy replacement = true ->
       content_of gemini replacement <> None.

(** What lines 185 to 195 write for a parsed reply, if anything: the
    content of its data when that is truthy and the write accepts
    it. *)
Definition write_of (gemini : bool) (data : JS.value) : option string :=
  match JS.get data "data" with
  | Some replacement =>
      if JS.truthy replacement then content_of gemini replacement else None
  | None => None
  end.

(** The attempt started in [w] has a failed diagnostic and gets a
    reply that reports success. *)
Definition success_reported (env : Env) (src : string) (args : ValidatedArgs)
  (w : World) : Prop :=
  exists result text pj resolution w1 data,
    expo_doctor env (diagnostic_runs w) = Resolved result
    /\ exit_zero result = false
    /\ package_json (fs w) = Some text
    /\ JS.parse (JS.VString text) = Some pj
    /\ consult env (error_log src result) pj (geminiKey args)
         (ollamaUrl args) (ollamaModel args) (record EvExpoDoctor w)
       = Return resolution w1
    /\ JS.parse resolution = Some data
    /\ reports_success (is_gemini (geminiKey args)) data.

Lemma status_is_success data :
  is_string (or_error (status_of data)) "success" = true
  <-> JS.get data "status" = Some (JS.VString "success").
Proof.
  unfold status_of. split.
  - destruct (JS.truthy data); [| discriminate].
    destruct (JS.get data "status") as [s |]; [| discriminate].
    destruct (JS.truthy s); [| discriminate].
    destruct s; simpl; try discriminate.
    intro H. apply String.eqb_eq in H. subst. reflexivity.
  - intro H. rewrite (status_string_truthy _ _ H), H. reflexivity.
Qed.

(** The check of an attempt whose diagnostic failed and whose reply
    parsed: it passes exactly when the reply reports success, and it
    writes exactly what the reply gives to write. *)
Lemma parsed_reply_check env src gk url om w result text pj resolution w1
  data :
  expo_doctor env (diagnostic_runs w) = Resolved result ->
  exit_zero result = false ->
  package_json (fs w) = Some text ->
  JS.parse (JS.VString text) = Some pj ->
  consult env (error_log src result) pj gk url om (record EvExpoDoctor w)
  = Return resolution w1 ->
  JS.parse resolution = Some data ->
  exists passed,
    checkExpoDoctor env src gk url om w
    = Return passed
        match write_of (is_gemini gk) data with
        | Some c => written c w1
        | None => w1
        end
    /\ (passed = true <-> reports_success (is_gemini gk) data).
Proof.
  intros Hd Hz Ht Hp Hc Hr.
  rewrite (checkExpoDoctor_eq env src gk url om w result Hd Hz).
  rewrite (resolveExpoDoctor_eq env src (error_log src result) gk url om
             (record EvExpoDoctor w) text pj Ht Hp).
  rewrite Hc, apply_resolution_eq, Hr.
  unfold write_of, reports_success.
  destruct (JS.get data "data") as [replacement |] eqn:Hdata.
  - destruct (JS.truthy replacement) eqn:Htruthy.
    + destruct (content_of (is_gemini gk) replacement) as [c |] eqn:Hcontent.
      * eexists. split; [reflexivity |].
        rewrite status_is_success. split.
        -- intro H. split; [exact H |].
           intros r Hr' _. inversion Hr'; subst. congruence.
        -- intros [H _]. exact H.
      * exists false. split; [reflexivity |].
        split; [discriminate |].
        intros [_ H]. exfalso. exact (H replacement eq_refl Htruthy Hcontent).
    + eexists. split; [reflexivity |].
      rewrite status_is_success. split.
      * intro H. split; [exact H |].
        intros r Hr' Ht'. inversion Hr'; subst. congruence.
      * intros [H _]. exact H.
  - exists false. split; [reflexivity |].
    split; [discriminate |].
    intros [H _]. destruct data; simpl in *; discriminate.
Qed.

(** With both paths there and an npm install that succeeds, the
    cleanup returns. *)
Lemma cleanup_returns env src w :
  package_lock (fs w) = true ->
  node_modules (fs w) = true ->
  install (npm_install env (installs w)) = Resolved tt ->
  exists w1, cleanup env src w = Return tt w1 /\ cleaned w w1.
Proof.
  intros Hl Hm Hi. pose proof (cleanup_world env src w) as H.
  destruct (cleanup env src w) as [[] w1 | e w1 | code w1 |]; simpl in H.
  - exists w1. split; [reflexivity | apply H].
  - destruct H as ([H | H] & _); congruence.
  - destruct H as (_ & _ & _ & _ & e & H). congruence.
  - contradiction.
Qed.

(** A failed check on an attempt before the last, followed by a
    cleanup that succeeds, hands the run over to the next attempt. *)
Lemma upgrade_from_next env src fuel args attempt w w1 w2 :
  attempt < maxAttempts ->
  checkExpoDoctor env src (geminiKey args) (ollamaUrl args) (ollamaModel args)
    w = Return false w1 ->
  cleanup env src w1 = Return tt w2 ->
  upgrade_from env src (S fuel) args attempt false w
  = upgrade_from env src fuel args (attempt + 1) false w2.
Proof.
  intros Hlt Hc Hcl. unfold upgrade_from, try_catch, bind.
  rewrite loop_continue by lia.
  unfold bind at 1. unfold iteration, bind at 1. rewrite Hc.
  apply Nat.ltb_lt in Hlt. rewrite Hlt. cbn [negb andb].
  unfold bind at 1. rewrite Hcl. reflexivity.
Qed.


(** C1, as the code has it.  An attempt passes, that is
    checkExpoDoctor returns true, exactly when its diagnostic run
    exits with code 0, or that run fails and the reply of the model
    parses with the status success (its data, if it is truthy, being
    something the write accepts).  In the second case the reply is
    believed: the upgrade ends as passed and no diagnostic is run
    after the reply.  In every other case the attempt fails: on the
    last attempt the upgrade ends as failed, and before it the run
    goes on to the next attempt once the cleanup has returned, so
    that the upgrade can pass only by a later attempt. *)
Theorem reported_success_is_trusted (env : Env) (src : string)
  (args : ValidatedArgs) (fuel attempt : nat) (w : World) :
  attempt <= maxAttempts ->
  exists passed w2,
    checkExpoDoctor env src (geminiKey args) (ollamaUrl args)
      (ollamaModel args) w = Return passed w2
    /\ diagnostic_runs w2 = diagnostic_runs w + 1
    /\ (passed = true
        <-> passes (expo_doctor env (diagnostic_runs w)) = true
            \/ success_reported env src args w)
    /\ (success_reported env src args w ->
        passes (expo_doctor env (diagnostic_runs w)) = false
        /\ upgrade_from env src (S fuel) args attempt false w
           = Return Passed w2)
    /\ (passed = false -> attempt = maxAttempts ->
        upgrade_from env src (S fuel) args attempt false w
        = Return Failed w2)
    /\ (passed = false -> attempt < maxAttempts ->
        forall w3, cleanup env src w2 = Return tt w3 ->
                   upgrade_from env src (S fuel) args attempt false w
                   = upgrade_from env src fuel args (attempt + 1) false w3).
Proof.
  intro Hle.
  pose proof (checkExpoDoctor_world env src (geminiKey args) (ollamaUrl args)
                (ollamaModel args) w) as Hworld.
  destruct (checkExpoDoctor env src (geminiKey args) (ollamaUrl args)
              (ollamaModel args) w) as [passed w2 | | |] eqn:Hcheck;
    simpl in Hworld; try contradiction.
  fold (checked env w passed w2) in Hworld.
  destruct (checked_counts env w passed w2 Hworld) as (Hruns & _).
  assert (Hiff : passed = true
                 <-> passes (expo_doctor env (diagnostic_runs w)) = true
                     \/ success_reported env src args w).
  { destruct (passes (expo_doctor env (diagnostic_runs w))) eqn:Hpass.
    - unfold checked, diagnosis in Hworld. rewrite Hpass in Hworld.
      destruct Hworld as [-> _]. split; auto.
    - split; [| intros [H | H]; [discriminate |]].
      + intro Hpassed. right. subst passed.
        destruct (expo_doctor env (diagnostic_runs w)) as [result | e] eqn:Hd.
        * simpl in Hpass.
          rewrite (checkExpoDoctor_eq env src _ _ _ w result Hd Hpass)
            in Hcheck.
          destruct (package_json (fs w)) as [text |] eqn:Ht.
          -- destruct (JS.parse (JS.VString text)) as [pj |] eqn:Hp.
             ++ rewrite (resolveExpoDoctor_eq env src (error_log src result)
                           _ _ _ (record EvExpoDoctor w) text pj Ht Hp)
                  in Hcheck.
                destruct (consult env (error_log src result) pj
                            (geminiKey args) (ollamaUrl args)
                            (ollamaModel args) (record EvExpoDoctor w))
                  as [resolution w1 | e w1 | |] eqn:Hc;
                  try discriminate Hcheck.
                rewrite apply_resolution_eq in Hcheck.
                destruct (JS.parse resolution) as [data |] eqn:Hr;
                  [| discriminate Hcheck].
                destruct (parsed_reply_check env src _ _ _ w result text pj
                            resolution w1 data Hd Hpass Ht Hp Hc Hr)
                  as (passed' & Hcheck' & Hiff').
                rewrite (checkExpoDoctor_eq env src _ _ _ w result Hd Hpass),
                  (resolveExpoDoctor_eq env src (error_log src result)
                     _ _ _ (record EvExpoDoctor w) text pj Ht Hp),
                  Hc, apply_resolution_eq, Hr in Hcheck'.
                rewrite Hcheck in Hcheck'. inversion Hcheck'; subst passed'.
                exists result, text, pj, resolution, w1, data.
                repeat split; try assumption; apply Hiff'; reflexivity.
             ++ unfold resolveExpoDoctor, bind, readFileSync_package_json,
                  JSON_parse in Hcheck.
                cbn [record fs] in Hcheck.
                rewrite Ht, Hp in Hcheck. discriminate Hcheck.
          -- unfold resolveExpoDoctor, bind, readFileSync_package_json
               in Hcheck.
             cbn [record fs] in Hcheck.
             rewrite Ht in Hcheck. discriminate Hcheck.
        * unfold checkExpoDoctor, try_catch, bind, execa_expo_doctor
            in Hcheck.
          rewrite Hd in Hcheck. discriminate Hcheck.
      + destruct H as (result & text & pj & resolution & w1 & data & Hd & Hz
                       & Ht & Hp & Hc & Hr & Hs).
        destruct (parsed_reply_check env src _ _ _ w result text pj
                    resolution w1 data Hd Hz Ht Hp Hc Hr)
          as (passed' & Hcheck' & Hiff').
        rewrite Hcheck in Hcheck'. inversion Hcheck'; subst passed'.
        apply Hiff'. exact Hs. }
  exists passed, w2. split; [reflexivity |]. split; [exact Hruns |].
  split; [exact Hiff |]. split; [| split].
  - intro Hs.
    assert (Hpass : passes (expo_doctor env (diagnostic_runs w)) = false).
    { destruct Hs as (result & _ & _ & _ & _ & _ & Hd & Hz & _).
      rewrite Hd. exact Hz. }
    split; [exact Hpass |].
    assert (passed = true) by (apply Hiff; right; exact Hs). subst passed.
    apply upgrade_from_passed; assumption.
  - intros -> ->. apply upgrade_from_failed_last. exact Hcheck.
  - intros -> Hlt w3 Hcl.
    apply (upgrade_from_next env src fuel args attempt w w2 w3 Hlt Hcheck Hcl).
Qed.

Lemma reported_success_is_trusted_witness :
  exists w2,
    upgrade_from (Scenario.never_passing "success") Scenario.project 5
      Scenario.gemini_args 1 false Scenario.staged = Return Passed w2
    /\ diagnostic_runs w2 = diagnostic_runs Scenario.staged + 1.
Proof.
  destruct (reported_success_is_trusted (Scenario.never_passing "success")
              Scenario.project Scenario.gemini_args 4 1 Scenario.staged)
    as (passed & w2 & _ & D & _ & S & _).
  - unfold maxAttempts. repeat constructor.
  - destruct S as [_ U].
    + exists Scenario.failing. do 5 eexists.
      split; [reflexivity |]. split; [reflexivity |].
      split; [reflexivity |]. split; [vm_compute; reflexivity |].
      split; [vm_compute; reflexivity |].
      split; [vm_compute; reflexivity |].
      split; [vm_compute; reflexivity |].
      intros replacement Hf _. vm_compute in Hf. inversion Hf. discriminate.
    + exists w2. split; [exact U | exact D].
Defined.

(** C1 as stated fails: every diagnostic run of this environment
    fails, the reply of the first attempt reports success, and the
    upgrade ends as passed after that single, failing, diagnostic
    run. *)
Lemma reported_success_overrides_diagnostic :
  (forall n, passes (expo_doctor (Scenario.never_passing "success") n) = false)
  /\ JS.get
       (JS.VObject [("data", JS.VString (Scenario.text_of Scenario.repaired_manifest));
                    ("status", JS.VString "success")]) "status"
     = Some (JS.VString "success")
  /\ JS.parse (Scenario.reply "success")
     = Some (JS.VObject [("data", JS.VString (Scenario.text_of Scenario.repaired_manifest));
                         ("status", JS.VString "success")])
  /\ exists w1,
       expoUpgrade (Scenario.never_passing "success") Scenario.project
         Scenario.gemini_args Scenario.staged = Return Passed w1
       /\ diagnostic_runs w1 = 1
       /\ llm_calls w1 = 1.
Proof.
  split; [intro n; reflexivity |].
  split; [reflexivity |].
  split; [vm_compute; reflexivity |].
  eexists. split; [vm_compute; reflexivity |].
  split; reflexivity.
Qed.

(** *** The repair step of a failed check *)

(** After a failed diagnostic, with a readable package.json and a
    configured backend, checkExpoDoctor sends the request built from
    the diagnostic and the manifest, and then writes package.json at
    most once.  The attempt number plays no part: checkExpoDoctor does
    not receive it. *)
Lemma failed_check_consults env src gk url om w result text pj e :
  expo_doctor env (diagnostic_runs w) = Resolved result ->
  exit_zero result = false ->
  package_json (fs w) = Some text ->
  JS.parse (JS.VString text) = Some pj ->
  request_of (error_log src result) pj gk url om = Some e ->
  exists passed w1 tail,
    checkExpoDoctor env src gk url om w = Return passed w1
    /\ trace w1 = (trace w ++ EvExpoDoctor :: e :: tail)%list
    /\ (tail = [] /\ fs w1 = fs w
        \/ exists c, tail = [EvWriteManifest c]
                     /\ package_json (fs w1) = Some c).
Proof.
  intros Hd Hz Ht Hp He.
  rewrite (checkExpoDoctor_eq env src gk url om w result Hd Hz).
  rewrite (resolveExpoDoctor_eq env src (error_log src result) gk url om
             (record EvExpoDoctor w) text pj Ht Hp).
  pose proof (consult_world env (error_log src result) pj gk url om
                (record EvExpoDoctor w)) as E.
  rewrite He in E. simpl in E.
  assert (Hasked : trace (record e (record EvExpoDoctor w))
                   = (trace w ++ [EvExpoDoctor; e])%list).
  { simpl. rewrite <- app_assoc. reflexivity. }
  destruct (consult env (error_log src result) pj gk url om
              (record EvExpoDoctor w)) as [resolution wa | err wa | |];
    simpl in E; try contradiction.
  - destruct E as [_ ->]. rewrite apply_resolution_eq.
    assert (Hplain : forall returned,
               exists passed w1 tail,
                 Return (is_string (or_error returned) "success")
                   (record e (record EvExpoDoctor w)) = Return passed w1
                 /\ trace w1 = (trace w ++ EvExpoDoctor :: e :: tail)%list
                 /\ (tail = [] /\ fs w1 = fs w
                     \/ exists c, tail = [EvWriteManifest c]
                                  /\ package_json (fs w1) = Some c)).
    { intro returned. do 2 eexists. exists []. split; [reflexivity |].
      split; [exact Hasked | left; split; reflexivity]. }
    destruct (JS.parse resolution) as [data |]; [| apply (Hplain None)].
    destruct (JS.get data "data") as [replacement |]; [| apply (Hplain None)].
    destruct (JS.truthy replacement); [| apply Hplain].
    destruct (content_of (is_gemini gk) replacement) as [c |]; [| apply (Hplain None)].
    do 2 eexists. exists [EvWriteManifest c]. split; [reflexivity |].
    split.
    + unfold written. simpl. rewrite <- !app_assoc. reflexivity.
    + right. exists c. split; reflexivity.
  - subst wa. exists false. eexists. exists []. split; [reflexivity |].
    split; [exact Hasked | left; split; reflexivity].
Qed.





(** *** Removal without the force option *)

(** C10. After a failed check on an attempt before the last, the loop
    removes package-lock.json and node_modules with rmSync and no
    force option.  If either path is missing, the removal throws, the
    throw leaves the loop and reaches the catch of expoUpgrade, and
    the process exits with code 1: npm is not run and no further
    attempt is made. *)
Theorem missing_lock_file_aborts_upgrade (env : Env) (src : string)
  (args : ValidatedArgs) (fuel attempt : nat) (w w1 : World) :
  attempt < maxAttempts ->
  checkExpoDoctor env src (geminiKey args) (ollamaUrl args) (ollamaModel args)
    w = Return false w1 ->
  package_lock (fs w) = false \/ node_modules (fs w) = false ->
  exists w2,
    upgrade_from env src (S fuel) args attempt false w = Exit 1 w2
    /\ installs w2 = installs w
    /\ diagnostic_runs w2 = diagnostic_runs w + 1
    /\ package_json (fs w2) = package_json (fs w1).
Proof.
  intros Hlt Hc Hmissing.
  pose proof (checkExpoDoctor_world env src (geminiKey args) (ollamaUrl args)
                (ollamaModel args) w) as Hw.
  rewrite Hc in Hw. simpl in Hw.
  fold (checked env w false w1) in Hw.
  destruct (checked_counts env w false w1 Hw)
    as (Cd & Ci & _ & _ & _ & Cl & Cm).
  pose proof (cleanup_world env src w1) as Hclean.
  assert (Hthrow : exists e w2,
             cleanup env src w1 = Throw e w2
             /\ installs w2 = installs w1
             /\ diagnostic_runs w2 = diagnostic_runs w1
             /\ package_json (fs w2) = package_json (fs w1)).
  { destruct (cleanup env src w1) as [u w2 | e w2 | code w2 |];
      simpl in Hclean.
    - destruct Hclean as (_ & Hl & Hm & _). rewrite Cl, Cm in *.
      destruct Hmissing; congruence.
    - destruct Hclean as (_ & Hp & Hcount). exists e, w2.
      split; [reflexivity |].
      split; [apply Hcount; intros []; simpl; congruence |].
      split; [apply Hcount; intros []; simpl; congruence | exact Hp].
    - destruct Hclean as (_ & _ & Hl & Hm & _). rewrite Cl, Cm in *.
      destruct Hmissing; congruence.
    - contradiction. }
  destruct Hthrow as (e & w2 & Hcl & Hi & Hd & Hp).
  exists w2. split.
  - unfold upgrade_from, try_catch, bind.
    rewrite loop_continue by lia.
    unfold bind, iteration, bind. rewrite Hc.
    apply Nat.ltb_lt in Hlt. rewrite Hlt. simpl. rewrite Hcl. reflexivity.
  - repeat split; [lia | lia | exact Hp].
Qed.

Lemma missing_lock_file_aborts_upgrade_witness :
  exists w2,
    upgrade_from (Scenario.never_passing "error") Scenario.project 5
      Scenario.gemini_args 1 false Scenario.unlocked = Exit 1 w2
    /\ installs w2 = installs Scenario.unlocked
    /\ diagnostic_runs w2 = diagnostic_runs Scenario.unlocked + 1.
Proof.
  edestruct (missing_lock_file_aborts_upgrade (Scenario.never_passing "error")
               Scenario.project Scenario.gemini_args 4 1 Scenario.unlocked)
    as (w2 & U & I & D & _).
  - unfold maxAttempts. repeat constructor.
  - vm_compute. reflexivity.
  - left. reflexivity.
  - exists w2. split; [exact U |]. split; [exact I | exact D].
Defined.

(** *** Replies without usable data *)




Section AllFail.

Variable env : Env.
Variable src : string.
Variable args : ValidatedArgs.

(** Every diagnostic run fails. *)
Hypothesis diagnostics_fail : forall n, passes (expo_doctor env n) = false.

(** Every reply the backend gives is unparseable. *)
Hypothesis replies_unparseable :
  forall log pj w resolution w1,
    consult env log pj (geminiKey args) (ollamaUrl args) (ollamaModel args) w
    = Return resolution w1 ->
    JS.parse resolution = None.








End AllFail.




(** When the reinstall between two attempts fails, the upgrade ends
    there: every diagnostic run fails and every reply is unparseable,
    npm fails after the first attempt, and the process exits with
    code 1 after one diagnostic run, package.json untouched. *)
Lemma failed_install_cuts_the_attempts_short :
  (forall n, passes (expo_doctor Scenario.unparseable_install_failed n) = false)
  /\ JS.parse (JS.VString "Sorry, I cannot help.") = None
  /\ exists w1,
       expoUpgrade Scenario.unparseable_install_failed Scenario.project
         Scenario.gemini_args Scenario.staged = Exit 1 w1
       /\ diagnostic_runs w1 = 1
       /\ llm_calls w1 = 1
       /\ package_json (fs w1) = package_json (fs Scenario.staged).
Proof.
  split; [intro n; reflexivity |].
  split; [vm_compute; reflexivity |].
  eexists. split; [vm_compute; reflexivity |].
  repeat split; reflexivity.
Qed.

(** *** The API clients and a success response without text *)

(** What the Gemini client does check: a success response without
    candidates is refused. *)
Lemma callGeminiAPI_refuses_missing_candidates env key prompt sys model
  method w data :
  JS.blank key = false ->
  JS.blank prompt = false ->
  axios_post env (llm_calls w) = Resolved data ->
  JS.get data "candidates" = Some JS.VUndefined ->
  Api.callGeminiAPI env key prompt sys model method w
  = Throw (Error "Gemini API call failed: Invalid response format from Gemini API")
      (record (EvPost (Api.gemini_url model method key)
                 (Api.gemini_body prompt sys)) w).
Proof.
  intros Hk Hp Ha Hc.
  unfold Api.callGeminiAPI, try_catch, bind. rewrite Hk, Hp.
  unfold ret at 1 2. unfold post. rewrite Ha.
  unfold await at 1. unfold ret at 1.
  unfold Api.extract_text, bind, prop. rewrite Hc.
  destruct (JS.truthy data); reflexivity.
Qed.

(** C5: the code at the failing inputs. A success response of the
    Ollama endpoint without a response field makes callOllamaAPI
    return undefined, and a success response of the Gemini endpoint
    whose first part has no text field makes callGeminiAPI return
    undefined: neither call fails. *)
Theorem clients_return_undefined_without_text :
  JS.get (JS.VObject [("model", JS.VString "llama3.2"); ("done", JS.VBool true)])
    "response" = Some JS.VUndefined
  /\ (exists w1,
        Api.callOllamaAPI Scenario.ollama_empty "http://localhost:11434"
          "Which version of expo fits?" None "llama3.2"
          Prompts.generateOllamaExpoDoctorFormat Scenario.staged
        = Return JS.VUndefined w1
        /\ llm_calls w1 = 1)
  /\ (exists w1,
        Api.callGeminiAPI Scenario.gemini_textless "AIzaSy-example-key"
          "Which version of expo fits?" None "gemini-2.0-flash-lite"
          "generateContent" Scenario.staged
        = Return JS.VUndefined w1
        /\ llm_calls w1 = 1).
Proof.
  split; [reflexivity |]. split.
  - eexists. split; [vm_compute; reflexivity | reflexivity].
  - eexists. split; [vm_compute; reflexivity | reflexivity].
Qed.

(** *** The prompts *)

Lemma append_assoc (a b c : string) : (a ++ b) ++ c = a ++ b ++ c.
Proof. induction a as [| x a IH]; simpl; [| rewrite IH]; reflexivity. Qed.

Lemma includes_middle (a s b : string) : Text.includes (a ++ s ++ b) s.
Proof. exists a, b. reflexivity. Qed.

Lemma includes_trans (s t u : string) :
  Text.includes s t -> Text.includes t u -> Text.includes s u.
Proof.
  intros (p1 & q1 & ->) (p2 & q2 & ->).
  exists (p1 ++ p2), (q2 ++ q1). now rewrite !append_assoc.
Qed.

Lemma prefix_split (a s : string) :
  String.prefix a s = true -> exists r, s = a ++ r.
Proof.
  revert s. induction a as [| x a IH]; intros s H.
  - exists s. reflexivity.
  - destruct s as [| y s]; simpl in H; [discriminate |].
    destruct (Ascii.ascii_dec x y) as [E | E]; [| discriminate].
    destruct (IH s H) as [r Hr]. exists r. rewrite E, Hr. reflexivity.
Qed.

Lemma includesb_sound (s sub : string) :
  Text.includesb s sub = true -> Text.includes s sub.
Proof.
  induction s as [| c s IH]; unfold Text.includesb; fold Text.includesb.
  - destruct (String.prefix sub "") eqn:E; [| intro; discriminate].
    intros _. destruct (prefix_split _ _ E) as [r Hr]. exists "", r.
    exact Hr.
  - destruct (String.prefix sub (String c s)) eqn:E.
    + intros _. destruct (prefix_split _ _ E) as [r Hr]. exists "", r.
      exact Hr.
    + intro H. destruct (IH H) as (p & q & ->).
      exists (String c p), q. reflexivity.
Qed.

Lemma prompt_shape log pj :
  Prompts.generateGeminiExpoDoctorPrompt log pj
  = Prompts.prompt_head ++ log ++ Prompts.prompt_middle
    ++ JS.interpolate (JS.stringify2 pj) ++ Prompts.prompt_rules
  /\ Prompts.generateOllamaExpoDoctorPrompt log pj
     = Prompts.prompt_head ++ log ++ Prompts.prompt_middle
       ++ JS.interpolate (JS.stringify2 pj) ++ Prompts.prompt_rules.
Proof. split; reflexivity. Qed.

Lemma prompt_includes_log log pj :
  Text.includes (Prompts.prompt_head ++ log ++ Prompts.prompt_middle
                 ++ JS.interpolate (JS.stringify2 pj) ++ Prompts.prompt_rules)
    log.
Proof. apply includes_middle. Qed.

Lemma prompt_includes_manifest log pj :
  Text.includes (Prompts.prompt_head ++ log ++ Prompts.prompt_middle
                 ++ JS.interpolate (JS.stringify2 pj) ++ Prompts.prompt_rules)
    (JS.interpolate (JS.stringify2 pj)).
Proof.
  exists (Prompts.prompt_head ++ log ++ Prompts.prompt_middle),
    Prompts.prompt_rules.
  now rewrite !append_assoc.
Qed.

(** C8. For every error log and manifest, the prompt of each generator
    contains the error log and the two-space-indented JSON text of the
    manifest as they are; so every fragment of the log is in the
    prompt, and for a log with the line about pkgA and the manifest
    that asks for pkgA at ^1.0.0, the line of the log and the entry of
    the manifest are both in the prompt. *)
Theorem prompts_embed_log_and_manifest (errorLog : string)
  (packageJson : JS.value) :
  let gemini := Prompts.generateGeminiExpoDoctorPrompt errorLog packageJson in
  let ollama := Prompts.generateOllamaExpoDoctorPrompt errorLog packageJson in
  (Text.includes gemini errorLog
   /\ Text.includes gemini (JS.interpolate (JS.stringify2 packageJson)))
  /\ (Text.includes ollama errorLog
      /\ Text.includes ollama (JS.interpolate (JS.stringify2 packageJson)))
  /\ (forall fragment,
        Text.includes errorLog fragment ->
        Text.includes gemini fragment /\ Text.includes ollama fragment)
  /\ (Text.includes errorLog Scenario.log ->
      packageJson = Scenario.manifest ->
      Text.includes gemini Scenario.log
      /\ Text.includes gemini Scenario.manifest_entry
      /\ Text.includes ollama Scenario.log
      /\ Text.includes ollama Scenario.manifest_entry).
Proof.
  intros gemini ollama.
  destruct (prompt_shape errorLog packageJson) as [Hg Ho].
  fold gemini in Hg. fold ollama in Ho.
  assert (Gl : Text.includes gemini errorLog)
    by (rewrite Hg; apply prompt_includes_log).
  assert (Gm : Text.includes gemini (JS.interpolate (JS.stringify2 packageJson)))
    by (rewrite Hg; apply prompt_includes_manifest).
  assert (Ol : Text.includes ollama errorLog)
    by (rewrite Ho; apply prompt_includes_log).
  assert (Om : Text.includes ollama (JS.interpolate (JS.stringify2 packageJson)))
    by (rewrite Ho; apply prompt_includes_manifest).
  split; [split; assumption |]. split; [split; assumption |].
  split.
  - intros fragment Hf.
    split; apply (includes_trans _ errorLog); assumption.
  - intros Hlog Hpj.
    assert (He : Text.includes (JS.interpolate (JS.stringify2 packageJson))
                   Scenario.manifest_entry).
    { rewrite Hpj. apply includesb_sound. vm_compute. reflexivity. }
    split; [apply (includes_trans _ errorLog); assumption |].
    split; [apply (includes_trans _ _ _ Gm He) |].
    split; [apply (includes_trans _ errorLog); assumption |].
    apply (includes_trans _ _ _ Om He).
Qed.

Lemma prompts_embed_log_and_manifest_witness :
  Text.includes
    (Prompts.generateGeminiExpoDoctorPrompt
       (error_log Scenario.project Scenario.failing) Scenario.manifest)
    Scenario.log
  /\ Text.includes
       (Prompts.generateGeminiExpoDoctorPrompt
          (error_log Scenario.project Scenario.failing) Scenario.manifest)
       Scenario.manifest_entry.
Proof.
  destruct (prompts_embed_log_and_manifest
              (error_log Scenario.project Scenario.failing) Scenario.manifest)
    as (_ & _ & _ & H).
  destruct H as (Hl & He & _).
  - apply includesb_sound. vm_compute. reflexivity.
  - reflexivity.
  - split; [exact Hl | exact He].
Defined.

(** C9. Each generator gives the same text for the same log and
    manifest; the text depends on the manifest only through its JSON
    text.  Building the prompt touches nothing: whatever the
    environment and the world, the request that [consult] sends is the
    one computed from the log, the manifest and the arguments. *)
Theorem prompt_builder_is_deterministic (log log' : string)
  (pj pj' : JS.value) :
  log = log' ->
  JS.stringify2 pj = JS.stringify2 pj' ->
  Prompts.generateGeminiExpoDoctorPrompt log pj
  = Prompts.generateGeminiExpoDoctorPrompt log' pj'
  /\ Prompts.generateOllamaExpoDoctorPrompt log pj
     = Prompts.generateOllamaExpoDoctorPrompt log' pj'
  /\ forall env gk url om w,
       final (consult env log pj gk url om w)
       = Some (after_request (request_of log' pj' gk url om) w).
Proof.
  intros Hlog Hpj.
  destruct (prompt_shape log pj) as [Hg Ho].
  destruct (prompt_shape log' pj') as [Hg' Ho'].
  assert (G : Prompts.generateGeminiExpoDoctorPrompt log pj
              = Prompts.generateGeminiExpoDoctorPrompt log' pj')
    by (rewrite Hg, Hg', Hlog, Hpj; reflexivity).
  assert (O : Prompts.generateOllamaExpoDoctorPrompt log pj
              = Prompts.generateOllamaExpoDoctorPrompt log' pj')
    by (rewrite Ho, Ho', Hlog, Hpj; reflexivity).
  split; [exact G |]. split; [exact O |].
  intros env gk url om w.
  assert (R : request_of log pj gk url om = request_of log' pj' gk url om)
    by (unfold request_of; rewrite G, O; reflexivity).
  rewrite <- R.
  pose proof (consult_world env log pj gk url om w) as H.
  destruct (consult env log pj gk url om w) as [v w1 | e w1 | |];
    simpl in H; try contradiction.
  - destruct H as [_ ->]. reflexivity.
  - rewrite H. reflexivity.
Qed.

Lemma prompt_builder_is_deterministic_witness :
  Prompts.generateGeminiExpoDoctorPrompt Scenario.log
    (JS.VObject [("version", JS.VNumber 10 0)])
  = Prompts.generateGeminiExpoDoctorPrompt Scenario.log
      (JS.VObject [("version", JS.VNumber 1 1)]).
Proof.
  destruct (prompt_builder_is_deterministic Scenario.log Scenario.log
              (JS.VObject [("version", JS.VNumber 10 0)])
              (JS.VObject [("version", JS.VNumber 1 1)]))
    as (G & _).
  - reflexivity.
  - vm_compute. reflexivity.
  - exact G.
Defined.

(* ================================================================== *)
(** ** Further properties of the check and the repair step *)

Module Scenario2.
Import Proc Upgrade.

(** npx cannot be spawned: execa, called with reject: false, resolves
    all the same, with a result that has no exit code and no output. *)
Definition spawn_failure : ExecaResult :=
  {| exitCode := None; all := None; stderr := None; stdout := None |}.

Definition no_doctor : Env :=
  {| expo_doctor := fun _ => Resolved spawn_failure;
     axios_post := fun _ => Resolved (Scenario.gemini_envelope (Scenario.reply "success"));
     npm_install := fun _ => Scenario.installed |}.

(** The endpoint of the model cannot be reached. *)
Definition offline : Env :=
  {| expo_doctor := fun _ => Resolved Scenario.failing;
     axios_post := fun _ =>
       Rejected {| message := "connect ECONNREFUSED 127.0.0.1:11434";
                   response := None; request := true |};
     npm_install := fun _ => Scenario.installed |}.

(** The endpoint answers 429 with a JSON body. *)
Definition throttled : Env :=
  {| expo_doctor := fun _ => Resolved Scenario.failing;
     axios_post := fun _ =>
       Rejected {| message := "Request failed with status code 429";
                   response :=
                     Some {| status := 429; statusText := "Too Many Requests";
                             data := JS.VObject [("error", JS.VString "quota")] |};
                   request := true |};
     npm_install := fun _ => Scenario.installed |}.

(** The first diagnostic fails, the reply carries a repaired manifest
    and the status error, and the second diagnostic passes. *)
Definition repaired_at_second : Env :=
  {| expo_doctor := fun n => match n with
                             | O => Resolved Scenario.failing
                             | S _ => Resolved Scenario.passing
                             end;
     axios_post := fun _ => Resolved (Scenario.gemini_envelope (Scenario.reply "error"));
     npm_install := fun _ => Scenario.installed |}.

(** A project directory without package.json, and one whose
    package.json is not JSON. *)
Definition without_manifest : World :=
  {| fs := {| package_json := None; package_lock := true; node_modules := true |};
     trace := [] |}.

Definition broken_manifest : World :=
  with_package_json "{ dependencies: " Scenario.staged.

Definition no_provider : ValidatedArgs :=
  {| geminiKey := None; ollamaUrl := "http://localhost:11434";
     ollamaModel := None |}.

End Scenario2.

(** X1. checkExpoDoctor always returns: whatever the diagnostic, the
    model and the files do, it neither throws nor leaves the process.
    It runs the diagnostic exactly once, sends at most one request,
    writes package.json at most once and only after a request, and
    never touches the lock file, node_modules or npm. *)
Theorem checkExpoDoctor_absorbs_every_failure (env : Env) (src : string)
  (gk : option string) (url : string) (om : option string) (w : World) :
  exists passed w1,
    checkExpoDoctor env src gk url om w = Return passed w1
    /\ diagnostic_runs w1 = diagnostic_runs w + 1
    /\ llm_calls w <= llm_calls w1 <= llm_calls w + 1
    /\ manifest_writes w <= manifest_writes w1
    /\ manifest_writes w1 + llm_calls w <= manifest_writes w + llm_calls w1
    /\ installs w1 = installs w
    /\ removals w1 = removals w
    /\ package_lock (fs w1) = package_lock (fs w)
    /\ node_modules (fs w1) = node_modules (fs w)
    /\ (manifest_writes w1 = manifest_writes w -> fs w1 = fs w).
Proof.
  pose proof (checkExpoDoctor_world env src gk url om w) as H.
  destruct (checkExpoDoctor env src gk url om w) as [passed w1 | | |];
    simpl in H; try contradiction.
  exists passed, w1. split; [reflexivity |].
  assert (Hr : repaired (record EvExpoDoctor w) w1).
  { destruct (passes (diagnosis env w)); [| exact H].
    destruct H as [_ ->]. apply repaired_nothing. }
  clear H.
  unfold diagnostic_runs, llm_calls, manifest_writes, installs, removals.
  destruct Hr as [| e He | e c He];
    rewrite ?count_written, ?count_record;
    try (destruct e; try discriminate He); simpl;
    repeat split; try lia.
Qed.

(** The manifest on disk cannot be read as JSON. *)
Definition unreadable_manifest (w : World) : Prop :=
  match package_json (fs w) with
  | None => True
  | Some text => JS.parse (JS.VString text) = None
  end.

Lemma resolveExpoDoctor_unreadable env src log gk url om w :
  unreadable_manifest w ->
  exists e, resolveExpoDoctor env src log gk url om w = Throw e w.
Proof.
  unfold unreadable_manifest, resolveExpoDoctor, bind,
    readFileSync_package_json, JSON_parse.
  destruct (package_json (fs w)) as [text |]; [| eauto].
  intros ->. eexists. reflexivity.
Qed.

(** X2. When the diagnostic fails and package.json is missing or is
    not JSON, checkExpoDoctor returns false right after the
    diagnostic: the model is not asked and nothing is written.  An npx
    that cannot be spawned is such a failed diagnostic: execa is
    called with reject: false, so it resolves, with a result that has
    no exit code. *)
Theorem check_fails_before_asking_the_model (env : Env) (src : string)
  (gk : option string) (url : string) (om : option string) (w : World)
  (result : ExecaResult) :
  expo_doctor env (diagnostic_runs w) = Resolved result ->
  exit_zero result = false ->
  unreadable_manifest w ->
  checkExpoDoctor env src gk url om w = Return false (record EvExpoDoctor w).
Proof.
  intros Hd Hz Hu.
  rewrite (checkExpoDoctor_eq env src gk url om w result Hd Hz).
  destruct (resolveExpoDoctor_unreadable env src (error_log src result)
              gk url om (record EvExpoDoctor w) Hu) as [e ->].
  reflexivity.
Qed.

Lemma check_fails_before_asking_the_model_witness :
  checkExpoDoctor Scenario2.no_doctor Scenario.project
    (geminiKey Scenario.gemini_args) (ollamaUrl Scenario.gemini_args)
    (ollamaModel Scenario.gemini_args) Scenario2.without_manifest
  = Return false (record EvExpoDoctor Scenario2.without_manifest)
  /\ checkExpoDoctor (Scenario.never_passing "success") Scenario.project
       (geminiKey Scenario.gemini_args) (ollamaUrl Scenario.gemini_args)
       (ollamaModel Scenario.gemini_args) Scenario2.broken_manifest
     = Return false (record EvExpoDoctor Scenario2.broken_manifest).
Proof.
  split.
  - apply (check_fails_before_asking_the_model Scenario2.no_doctor
             Scenario.project _ _ _ Scenario2.without_manifest
             Scenario2.spawn_failure).
    + reflexivity.
    + reflexivity.
    + exact I.
  - apply (check_fails_before_asking_the_model
             (Scenario.never_passing "success") Scenario.project _ _ _
             Scenario2.broken_manifest Scenario.failing).
    + reflexivity.
    + reflexivity.
    + vm_compute. reflexivity.
Defined.

(** A request that gets no usable answer: the client throws after
    recording it. *)
Lemma consult_rejected env log pj gk url om w e ev :
  axios_post env (llm_calls w) = Rejected e ->
  request_of log pj gk url om = Some ev ->
  exists e', consult env log pj gk url om w = Throw e' (record ev w).
Proof.
  intros Ha Hr. unfold consult. unfold request_of in Hr.
  destruct (prompt_not_blank log pj) as [Hg Ho].
  destruct (provided gk) as [key |].
  - destruct (JS.blank key) eqn:Hk; [discriminate |]. inversion Hr. subst ev.
    unfold Api.callGeminiAPI, try_catch, bind. rewrite Hk, Hg.
    unfold ret at 1 2. unfold post. rewrite Ha. simpl.
    apply rethrow_throws.
  - destruct (provided om) as [model |]; [| discriminate].
    inversion Hr. subst ev.
    unfold Api.callOllamaAPI, try_catch, bind. rewrite Ho.
    unfold ret at 1. unfold post. rewrite Ha. simpl.
    apply rethrow_throws.
Qed.

(** X3. A failure of the HTTP call (an error status, no response, or
    an error before the request left) is absorbed by
    resolveExpoDoctor: it returns the status error after the one
    request, package.json is not written, and checkExpoDoctor returns
    false. *)
Theorem client_failure_is_absorbed (env : Env) (src : string)
  (gk : option string) (url : string) (om : option string) (w : World)
  (result : ExecaResult) (text : string) (pj : JS.value) (e : error)
  (ev : event) :
  expo_doctor env (diagnostic_runs w) = Resolved result ->
  exit_zero result = false ->
  package_json (fs w) = Some text ->
  JS.parse (JS.VString text) = Some pj ->
  request_of (error_log src result) pj gk url om = Some ev ->
  axios_post env (llm_calls w) = Rejected e ->
  resolveExpoDoctor env src (error_log src result) gk url om
    (record EvExpoDoctor w)
  = Return (JS.VString "error") (record ev (record EvExpoDoctor w))
  /\ checkExpoDoctor env src gk url om w
     = Return false (record ev (record EvExpoDoctor w))
  /\ fs (record ev (record EvExpoDoctor w)) = fs w
  /\ manifest_writes (record ev (record EvExpoDoctor w)) = manifest_writes w.
Proof.
  intros Hd Hz Ht Hp Hr Ha.
  assert (Ha' : axios_post env (llm_calls (record EvExpoDoctor w)) = Rejected e).
  { unfold llm_calls. rewrite count_record. simpl.
    rewrite Nat.add_0_r. exact Ha. }
  destruct (consult_rejected env _ pj gk url om _ e ev Ha' Hr) as [e' Hc].
  assert (R : resolveExpoDoctor env src (error_log src result) gk url om
                (record EvExpoDoctor w)
              = Return (JS.VString "error") (record ev (record EvExpoDoctor w))).
  { rewrite (resolveExpoDoctor_eq env src (error_log src result) gk url om
               (record EvExpoDoctor w) text pj Ht Hp), Hc.
    reflexivity. }
  split; [exact R |]. split.
  - rewrite (checkExpoDoctor_eq env src gk url om w result Hd Hz), R.
    reflexivity.
  - split; [reflexivity |].
    apply request_of_is_post in Hr. unfold manifest_writes.
    rewrite !count_record. destruct ev; try discriminate Hr. simpl. lia.
Qed.

Lemma client_failure_is_absorbed_witness :
  exists w1,
    checkExpoDoctor Scenario2.offline Scenario.project
      (geminiKey Scenario.ollama_args) (ollamaUrl Scenario.ollama_args)
      (ollamaModel Scenario.ollama_args) Scenario.staged = Return false w1
    /\ fs w1 = fs Scenario.staged.
Proof.
  edestruct (client_failure_is_absorbed Scenario2.offline Scenario.project
               (geminiKey Scenario.ollama_args) (ollamaUrl Scenario.ollama_args)
               (ollamaModel Scenario.ollama_args) Scenario.staged
               Scenario.failing)
    as (_ & C & F & _).
  - reflexivity.
  - reflexivity.
  - reflexivity.
  - vm_compute. reflexivity.
  - reflexivity.
  - reflexivity.
  - eexists. split; [exact C | exact F].
Defined.

(** X4. With neither a Gemini key nor an Ollama model (absent or
    empty), resolveExpoDoctor sends no request and writes nothing: the
    error it raises for the missing provider is caught by its own
    catch, and it returns the status error. *)
Theorem no_provider_no_request (env : Env) (src log : string)
  (gk : option string) (url : string) (om : option string) (w : World)
  (text : string) (pj : JS.value) :
  package_json (fs w) = Some text ->
  JS.parse (JS.VString text) = Some pj ->
  provided gk = None ->
  provided om = None ->
  resolveExpoDoctor env src log gk url om w = Return (JS.VString "error") w.
Proof.
  intros Ht Hp Hg Ho.
  rewrite (resolveExpoDoctor_eq env src log gk url om w text pj Ht Hp).
  unfold consult. rewrite Hg, Ho. reflexivity.
Qed.

Lemma no_provider_no_request_witness :
  resolveExpoDoctor Scenario.healthy Scenario.project Scenario.log
    (Some "") "http://localhost:11434" None Scenario.staged
  = Return (JS.VString "error") Scenario.staged.
Proof.
  eapply (no_provider_no_request Scenario.healthy Scenario.project
            Scenario.log (Some "") "http://localhost:11434" None
            Scenario.staged).
  - reflexivity.
  - vm_compute. reflexivity.
  - reflexivity.
  - reflexivity.
Defined.

(** *** What a reply with data writes *)

(** *** Numbers that are written back as they were read

    [JS.parse] keeps a numeral as the decimal it is written as, where
    [JSON.parse] rounds it to a double; [JS.serialize] prints that
    decimal, where [JSON.stringify] prints the shortest decimal that
    rounds to the double.  The two agree on zero, and on a decimal of
    at most 15 significant digits whose size is between 1e-300 and
    1e300: among the decimals of so few digits it is the only one that
    rounds to its double.  On 12345678901234567890, 9007199254740993
    or 3e-324 they differ.  What is said below of a JSON text that the
    code writes is said of values all of whose numbers are of the
    first kind. *)

Module Exact.

Definition plain_number (m e : Z) : bool :=
  ((m =? 0)
   || (let '(m', e') :=
         JS.strip_zeros (Z.to_nat (Z.log2 (Z.abs m))) m e in
       let k := Z.of_nat (String.length (Text.of_Z (Z.abs m'))) in
       (k <=? 15) && (-300 <=? e') && (e' + k <=? 300)))%Z.

(** Every number in [v] is one that is written back as it was
    read. *)
Fixpoint plain (v : JS.value) : bool :=
  match v with
  | JS.VNumber m e => plain_number m e
  | JS.VArray l =>
      (fix all (l : list JS.value) : bool :=
         match l with
         | [] => true
         | x :: r => plain x && all r
         end) l
  | JS.VObject props =>
      (fix all (l : list (string * JS.value)) : bool :=
         match l with
         | [] => true
         | (_, x) :: r => plain x && all r
         end) props
  | _ => true
  end.

End Exact.

Module ExactExamples.

Example plain_numbers :
  map (fun text => option_map Exact.plain (JS.parse (JS.VString text)))
    ["0"; "53"; "1.50"; "-0.000001"; "1e21"; "123456789012345";
     "12345678901234567890"; "9007199254740993"; "3e-324"; "1e400"]
  = [Some true; Some true; Some true; Some true; Some true; Some true;
     Some false; Some false; Some false; Some false].
Proof. vm_compute. reflexivity. Qed.

End ExactExamples.

Lemma stringify2_defined v :
  v <> JS.VUndefined -> exists text, JS.stringify2 v = Some text.
Proof.
  unfold JS.stringify2. destruct v; simpl; intro H; eauto. congruence.
Qed.

(** X5. A reply that parses and whose data is truthy replaces
    package.json wholesale, in one write after the request.  With the
    Gemini backend a data that is a string is written as it is, and a
    truthy data that is not a string is not written at all:
    resolveExpoDoctor then returns error, whatever the status is.
    With the Ollama backend the data is written as its JSON text with
    two-space indentation (this for data whose numbers are written
    back as they were read, see [Exact.plain]).  After a write
    resolveExpoDoctor returns the status of the reply, or error when
    it has none. *)
Theorem reply_data_replaces_manifest (env : Env) (src log : string)
  (gk : option string) (url : string) (om : option string) (w : World)
  (text : string) (pj resolution : JS.value) (w1 : World)
  (data replacement : JS.value) :
  package_json (fs w) = Some text ->
  JS.parse (JS.VString text) = Some pj ->
  consult env log pj gk url om w = Return resolution w1 ->
  JS.parse resolution = Some data ->
  JS.get data "data" = Some replacement ->
  JS.truthy replacement = true ->
  (is_gemini gk = true ->
   forall d, replacement = JS.VString d ->
     resolveExpoDoctor env src log gk url om w
     = Return (or_error (status_of data)) (written (utf8 d) w1)
     /\ package_json (fs (written (utf8 d) w1)) = Some (utf8 d)
     /\ manifest_writes (written (utf8 d) w1) = manifest_writes w + 1)
  /\ (is_gemini gk = true ->
      (forall d, replacement <> JS.VString d) ->
      resolveExpoDoctor env src log gk url om w
      = Return (JS.VString "error") w1
      /\ fs w1 = fs w
      /\ manifest_writes w1 = manifest_writes w)
  /\ (is_gemini gk = false ->
      Exact.plain replacement = true ->
      exists json,
        JS.stringify2 replacement = Some json
        /\ resolveExpoDoctor env src log gk url om w
           = Return (or_error (status_of data)) (written (utf8 json) w1)
        /\ package_json (fs (written (utf8 json) w1)) = Some (utf8 json)
        /\ manifest_writes (written (utf8 json) w1) = manifest_writes w + 1).
Proof.
  intros Ht Hp Hc Hr Hd Htruthy.
  destruct (consult_unchanged _ _ _ _ _ _ _ _ _ Hc) as (Hfs & _ & Hw & _).
  assert (E : forall c,
             content_of (is_gemini gk) replacement = Some c ->
             resolveExpoDoctor env src log gk url om w
             = Return (or_error (status_of data)) (written c w1)).
  { intros c Hcontent.
    rewrite (resolveExpoDoctor_eq env src log gk url om w text pj Ht Hp), Hc.
    rewrite apply_resolution_eq, Hr, Hd, Htruthy, Hcontent. reflexivity. }
  assert (W : forall c, manifest_writes (written c w1) = manifest_writes w + 1).
  { intro c. unfold manifest_writes in *. rewrite count_written. simpl. lia. }
  split; [| split].
  - intros Hg d ->. split; [| split; [reflexivity | apply W]].
    apply E. unfold content_of. rewrite Hg. reflexivity.
  - intros Hg Hnot. split; [| split; [exact Hfs | exact Hw]].
    rewrite (resolveExpoDoctor_eq env src log gk url om w text pj Ht Hp), Hc.
    rewrite apply_resolution_eq, Hr, Hd, Htruthy.
    unfold content_of. rewrite Hg.
    destruct replacement; try reflexivity.
    exfalso. exact (Hnot _ eq_refl).
  - intros Hg _.
    destruct (stringify2_defined replacement) as [json Hj].
    { intros ->. discriminate Htruthy. }
    exists json. split; [exact Hj |].
    split; [| split; [reflexivity | apply W]].
    apply E. unfold content_of. rewrite Hg, Hj. reflexivity.
Qed.

Lemma reply_data_replaces_manifest_witness :
  exists w2,
    resolveExpoDoctor (Scenario.never_passing "error") Scenario.project
      Scenario.log (geminiKey Scenario.gemini_args)
      (ollamaUrl Scenario.gemini_args) (ollamaModel Scenario.gemini_args)
      Scenario.staged = Return (JS.VString "error") w2
    /\ package_json (fs w2)
       = Some (utf8 (Scenario.text_of Scenario.repaired_manifest)).
Proof.
  edestruct (reply_data_replaces_manifest (Scenario.never_passing "error")
               Scenario.project Scenario.log (geminiKey Scenario.gemini_args)
               (ollamaUrl Scenario.gemini_args)
               (ollamaModel Scenario.gemini_args) Scenario.staged)
    as [G _].
  - reflexivity.
  - vm_compute. reflexivity.
  - vm_compute. reflexivity.
  - vm_compute. reflexivity.
  - vm_compute. reflexivity.
  - reflexivity.
  - destruct (G eq_refl (Scenario.text_of Scenario.repaired_manifest) eq_refl)
      as (R & P & _).
    eexists. split; [exact R | exact P].
Defined.

(** *** Two attempts: a repair, then a passing diagnostic *)

(** X6. On an attempt before the last, when the diagnostic fails, the
    reply carries data that is written and does not report success,
    the lock file and node_modules are there, npm succeeds, and the
    next diagnostic passes, the upgrade ends as passed after two
    diagnostic runs, one write and one reinstall, with package.json
    holding what the reply gave. *)
Theorem repair_then_passing_diagnostic (env : Env) (src : string)
  (args : ValidatedArgs) (fuel attempt : nat) (w : World)
  (result : ExecaResult) (text : string) (pj resolution : JS.value)
  (w1 : World) (data replacement : JS.value) (c : string) :
  attempt < maxAttempts ->
  expo_doctor env (diagnostic_runs w) = Resolved result ->
  exit_zero result = false ->
  package_json (fs w) = Some text ->
  JS.parse (JS.VString text) = Some pj ->
  consult env (error_log src result) pj (geminiKey args) (ollamaUrl args)
    (ollamaModel args) (record EvExpoDoctor w) = Return resolution w1 ->
  JS.parse resolution = Some data ->
  JS.get data "data" = Some replacement ->
  JS.truthy replacement = true ->
  content_of (is_gemini (geminiKey args)) replacement = Some c ->
  is_string (or_error (status_of data)) "success" = false ->
  package_lock (fs w) = true ->
  node_modules (fs w) = true ->
  install (npm_install env (installs w)) = Resolved tt ->
  passes (expo_doctor env (diagnostic_runs w + 1)) = true ->
  exists w2,
    upgrade_from env src (S (S fuel)) args attempt false w = Return Passed w2
    /\ package_json (fs w2) = Some c
    /\ diagnostic_runs w2 = diagnostic_runs w + 2
    /\ manifest_writes w2 = manifest_writes w + 1
    /\ installs w2 = installs w + 1.
Proof.
  intros Hlt Hd Hz Ht Hp Hc Hr Hdata Htruthy Hcontent Hstatus Hl Hm Hi Hpass.
  destruct (consult_unchanged _ _ _ _ _ _ _ _ _ Hc) as (Cf & Cd & Cw & Ci).
  unfold diagnostic_runs, manifest_writes, installs in Cd, Cw, Ci.
  rewrite count_record in Cd, Cw, Ci. simpl in Cd, Cw, Ci.
  assert (Hcheck : checkExpoDoctor env src (geminiKey args) (ollamaUrl args)
                     (ollamaModel args) w = Return false (written c w1)).
  { rewrite (checkExpoDoctor_eq env src _ _ _ w result Hd Hz).
    rewrite (resolveExpoDoctor_eq env src (error_log src result) _ _ _
               (record EvExpoDoctor w) text pj Ht Hp), Hc.
    rewrite apply_resolution_eq, Hr, Hdata, Htruthy, Hcontent, Hstatus.
    reflexivity. }
  assert (Wd : diagnostic_runs (written c w1) = diagnostic_runs w + 1)
    by (unfold diagnostic_runs; rewrite count_written; simpl; lia).
  assert (Ww : manifest_writes (written c w1) = manifest_writes w + 1)
    by (unfold manifest_writes; rewrite count_written; simpl; lia).
  assert (Wi : installs (written c w1) = installs w)
    by (unfold installs; rewrite count_written; simpl; lia).
  destruct (cleanup_returns env src (written c w1)) as (w2 & Hcl & Hcleaned).
  { simpl. rewrite Cf. exact Hl. }
  { simpl. rewrite Cf. exact Hm. }
  { rewrite Wi. exact Hi. }
  apply cleaned_counts in Hcleaned.
  destruct Hcleaned as (Dd & Di & _ & Dw & Dp).
  exists (record EvExpoDoctor w2). split.
  - rewrite (upgrade_from_next env src (S fuel) args attempt w _ w2
               Hlt Hcheck Hcl).
    apply upgrade_from_passed; [lia |].
    apply checkExpoDoctor_pass. unfold diagnosis.
    rewrite Dd, Wd. exact Hpass.
  - unfold diagnostic_runs, manifest_writes, installs in *.
    rewrite !count_record. simpl.
    split; [exact Dp |]. repeat split; lia.
Qed.

Lemma repair_then_passing_diagnostic_witness :
  exists w2,
    expoUpgrade Scenario2.repaired_at_second Scenario.project
      Scenario.gemini_args Scenario.staged = Return Passed w2
    /\ package_json (fs w2)
       = Some (utf8 (Scenario.text_of Scenario.repaired_manifest))
    /\ diagnostic_runs w2 = 2.
Proof.
  edestruct (repair_then_passing_diagnostic Scenario2.repaired_at_second
               Scenario.project Scenario.gemini_args 3 1 Scenario.staged
               Scenario.failing)
    as (w2 & U & P & D & _).
  - unfold maxAttempts. repeat constructor.
  - reflexivity.
  - reflexivity.
  - reflexivity.
  - vm_compute. reflexivity.
  - vm_compute. reflexivity.
  - vm_compute. reflexivity.
  - vm_compute. reflexivity.
  - reflexivity.
  - reflexivity.
  - reflexivity.
  - reflexivity.
  - reflexivity.
  - reflexivity.
  - reflexivity.
  - exists w2. split; [exact U |]. split; [exact P | exact D].
Defined.

(** *** How a run ends, and what it has done by then *)

(** Whatever has been written was preceded by a request, and every
    request by a diagnostic run. *)
Definition ordered (w0 w1 : World) : Prop :=
  manifest_writes w0 <= manifest_writes w1
  /\ manifest_writes w1 + llm_calls w0 <= manifest_writes w0 + llm_calls w1
  /\ llm_calls w1 + diagnostic_runs w0 <= llm_calls w0 + diagnostic_runs w1.

Lemma checked_ordered env w passed w1 :
  checked env w passed w1 ->
  manifest_writes w <= manifest_writes w1
  /\ manifest_writes w1 + llm_calls w <= manifest_writes w + llm_calls w1
  /\ llm_calls w1 <= llm_calls w + 1
  /\ diagnostic_runs w1 = diagnostic_runs w + 1.
Proof.
  unfold checked. intro H.
  assert (Hr : repaired (record EvExpoDoctor w) w1).
  { destruct (passes (diagnosis env w)); [| exact H].
    destruct H as [_ ->]. apply repaired_nothing. }
  clear H. unfold manifest_writes, llm_calls, diagnostic_runs.
  destruct Hr as [| e He | e c He];
    rewrite ?count_written, ?count_record;
    try (destruct e; try discriminate He); simpl; repeat split; lia.
Qed.

Definition accounting_invariant (max : nat) (w0 : World) (attempt : nat)
  (passed : bool) (w1 : World) : Prop :=
  1 <= attempt <= max + 1
  /\ diagnostic_runs w1 = diagnostic_runs w0 + (attempt - 1)
  /\ ordered w0 w1.

Lemma accounting_iteration env src args max w0 attempt w :
  accounting_invariant max w0 attempt false w -> attempt <= max ->
  ends (iteration env src args max attempt w)
    (fun passed w1 => accounting_invariant max w0 (attempt + 1) passed w1)
    (fun _ w1 => ordered w0 w1
                 /\ diagnostic_runs w1 < diagnostic_runs w0 + max)
    (fun code w1 => code = 1%Z /\ ordered w0 w1
                    /\ diagnostic_runs w1 < diagnostic_runs w0 + max).
Proof.
  intros (Ha & Hd & Ho1 & Ho2 & Ho3) Hle.
  eapply ends_weaken; [apply iteration_world | | |]; simpl.
  - intros passed w2 (w1 & Hc & Hw2).
    destruct (checked_ordered _ _ _ _ Hc) as (C1 & C2 & C3 & C4).
    destruct (negb passed && (attempt <? max)%nat).
    + apply cleaned_counts in Hw2. destruct Hw2 as (Dd & _ & Dl & Dw & _).
      unfold accounting_invariant, ordered. repeat split; lia.
    + subst w2. unfold accounting_invariant, ordered. repeat split; lia.
  - intros e w2 (w1 & Hc & Hlt & _ & _ & Hcount).
    destruct (checked_ordered _ _ _ _ Hc) as (C1 & C2 & C3 & C4).
    assert (Dd : diagnostic_runs w2 = diagnostic_runs w1)
      by (apply Hcount; intros []; simpl; congruence).
    assert (Dl : llm_calls w2 = llm_calls w1)
      by (apply Hcount; intros []; simpl; congruence).
    assert (Dw : manifest_writes w2 = manifest_writes w1)
      by (apply Hcount; intros []; simpl; congruence).
    unfold ordered. repeat split; lia.
  - intros code w2 (Hcode & w1 & Hc & Hlt & Hw2).
    destruct (checked_ordered _ _ _ _ Hc) as (C1 & C2 & C3 & C4).
    apply cleaned_counts in Hw2. destruct Hw2 as (Dd & _ & Dl & Dw & _).
    unfold ordered. repeat split; lia.
Qed.

Lemma loop_accounting env src args max w :
  1 <= max ->
  ends (loop env src max args max 1 false w)
    (fun passed w1 =>
       ordered w w1
       /\ diagnostic_runs w1 <= diagnostic_runs w + max
       /\ (passed = false -> diagnostic_runs w1 = diagnostic_runs w + max))
    (fun _ w1 => ordered w w1 /\ diagnostic_runs w1 < diagnostic_runs w + max)
    (fun code w1 => code = 1%Z /\ ordered w w1
                    /\ diagnostic_runs w1 < diagnostic_runs w + max).
Proof.
  intro Hmax.
  apply (loop_rule env src args max (accounting_invariant max w)).
  - intros attempt passed w1 (Ha & Hd & Ho) Hexit.
    split; [exact Ho |]. split; [lia |]. intros ->.
    destruct Hexit as [Hexit | Hexit]; [discriminate | lia].
  - intros attempt w1 HI Hle. apply accounting_iteration; assumption.
  - lia.
  - unfold accounting_invariant, ordered. repeat split; lia.
Qed.

(** X7. expoUpgrade ends in one of three ways and never by an uncaught
    throw: it reports passed; it reports failed, and then exactly
    maxAttempts diagnostic runs were made; or it leaves the process,
    always with code 1 and always before the attempts are used up. *)
Theorem upgrade_outcomes (env : Env) (src : string) (args : ValidatedArgs)
  (w : World) :
  (exists w1, expoUpgrade env src args w = Return Passed w1)
  \/ (exists w1,
        expoUpgrade env src args w = Return Failed w1
        /\ diagnostic_runs w1 = diagnostic_runs w + maxAttempts)
  \/ (exists w1,
        expoUpgrade env src args w = Exit 1 w1
        /\ diagnostic_runs w1 < diagnostic_runs w + maxAttempts).
Proof.
  pose proof (ends_upgrade_from env src maxAttempts args 1 false w _ _ _
                (loop_accounting env src args maxAttempts w
                   (Nat.lt_0_succ _))) as H.
  fold (expoUpgrade env src args w) in H.
  destruct (expoUpgrade env src args w) as [[] w1 | e w1 | code w1 |];
    simpl in H; try contradiction.
  - left. eauto.
  - right. left. exists w1. split; [reflexivity |]. apply H. reflexivity.
  - right. right. exists w1.
    destruct H as [(-> & _ & Hd) | (-> & e & _ & Hd)];
      (split; [reflexivity | exact Hd]).
Qed.

(** X8. At the end of any run of expoUpgrade, the writes of
    package.json made by the loop are no more than its requests to the
    model, and its requests no more than its diagnostic runs: a
    request only ever follows a failed diagnostic, and a write only
    ever follows a reply. *)
Theorem writes_follow_requests_follow_diagnostics (env : Env) (src : string)
  (args : ValidatedArgs) (w : World) :
  exists w1,
    final (expoUpgrade env src args w) = Some w1
    /\ manifest_writes w <= manifest_writes w1
    /\ manifest_writes w1 - manifest_writes w <= llm_calls w1 - llm_calls w
    /\ llm_calls w1 - llm_calls w <= diagnostic_runs w1 - diagnostic_runs w
    /\ diagnostic_runs w1 - diagnostic_runs w <= maxAttempts.
Proof.
  pose proof (ends_upgrade_from env src maxAttempts args 1 false w _ _ _
                (loop_accounting env src args maxAttempts w
                   (Nat.lt_0_succ _))) as H.
  fold (expoUpgrade env src args w) in H.
  assert (Ho : exists w1,
             final (expoUpgrade env src args w) = Some w1
             /\ ordered w w1
             /\ diagnostic_runs w1 <= diagnostic_runs w + maxAttempts).
  { destruct (expoUpgrade env src args w) as [r w1 | e w1 | code w1 |];
      simpl in H; try contradiction; exists w1;
      (split; [reflexivity |]).
    - split; apply H.
    - destruct H as [(_ & Ho & Hd) | (_ & e & Ho & Hd)]; split;
        try exact Ho; lia. }
  destruct Ho as (w1 & Hf & (O1 & O2 & O3) & Hd).
  exists w1. split; [exact Hf |]. repeat split; lia.
Qed.

(* ================================================================== *)
(** ** Further properties of the API clients *)

(** X9. Both clients validate before they send: a Gemini key or a
    prompt that is empty or only white space makes the call throw
    without any request, and the error that reaches the caller is the
    validation error re-thrown by the client's own catch, with the
    prefix of a failed call. *)
Theorem clients_refuse_blank_input (env : Env) (key prompt : string)
  (sys : option string) (model method url : string) (format : JS.value)
  (w : World) :
  (JS.blank key = true ->
   Api.callGeminiAPI env key prompt sys model method w
   = Throw (Error "Gemini API call failed: Gemini API key is required") w)
  /\ (JS.blank key = false -> JS.blank prompt = true ->
      Api.callGeminiAPI env key prompt sys model method w
      = Throw (Error "Gemini API call failed: User prompt is required") w)
  /\ (JS.blank prompt = true ->
      Api.callOllamaAPI env url prompt sys model format w
      = Throw (Error "Ollama API call failed: User prompt is required") w).
Proof.
  split; [| split].
  - intro Hk. unfold Api.callGeminiAPI, try_catch, bind. rewrite Hk.
    reflexivity.
  - intros Hk Hp. unfold Api.callGeminiAPI, try_catch, bind.
    rewrite Hk, Hp. reflexivity.
  - intro Hp. unfold Api.callOllamaAPI, try_catch, bind. rewrite Hp.
    reflexivity.
Qed.

Lemma clients_refuse_blank_input_witness :
  Api.callGeminiAPI Scenario.healthy "AIzaSy-example-key" "   " None
    "gemini-2.0-flash-lite" "generateContent" Scenario.staged
  = Throw (Error "Gemini API call failed: User prompt is required")
      Scenario.staged
  /\ Api.callOllamaAPI Scenario.healthy "http://localhost:11434" "" None
       "llama3.2" JS.VNull Scenario.staged
     = Throw (Error "Ollama API call failed: User prompt is required")
         Scenario.staged.
Proof.
  destruct (clients_refuse_blank_input Scenario.healthy "AIzaSy-example-key"
              "   " None "gemini-2.0-flash-lite" "generateContent"
              "http://localhost:11434" JS.VNull Scenario.staged)
    as (_ & G & _).
  destruct (clients_refuse_blank_input Scenario.healthy "AIzaSy-example-key"
              "" None "llama3.2" "generateContent"
              "http://localhost:11434" JS.VNull Scenario.staged)
    as (_ & _ & O).
  split; [apply G; reflexivity | apply O; reflexivity].
Defined.

(** The message the catch of a client gives an axios error. *)
Definition failure_message (api : string) (e : error) : string :=
  match response e with
  | Some r =>
      api ++ " API request failed: " ++ Text.of_Z (status r) ++ " "
      ++ statusText r ++ " - " ++ JS.interpolate (JS.stringify (data r))
  | None =>
      if request e
      then api ++ " API request failed: No response received - " ++ message e
      else api ++ " API call failed: " ++ message e
  end.

Lemma rethrow_message {A} api e w :
  @Api.rethrow A api e w = Throw (Error (failure_message api e)) w.
Proof.
  unfold Api.rethrow, failure_message.
  destruct (response e); [| destruct (request e)]; reflexivity.
Qed.

(** X10. When the HTTP call for valid arguments fails, each client
    throws once the request is recorded, and never returns; for an
    error status the message carries the status code, the status text
    and the JSON text of the response body, and when no response came
    it carries the message of the transport error. *)
Theorem clients_report_http_failures (env : Env) (key prompt : string)
  (sys : option string) (model method url : string) (format : JS.value)
  (w : World) (e : error) :
  JS.blank prompt = false ->
  axios_post env (llm_calls w) = Rejected e ->
  (JS.blank key = false ->
   Api.callGeminiAPI env key prompt sys model method w
   = Throw (Error (failure_message "Gemini" e))
       (record (EvPost (Api.gemini_url model method key)
                  (Api.gemini_body prompt sys)) w))
  /\ Api.callOllamaAPI env url prompt sys model format w
     = Throw (Error (failure_message "Ollama" e))
         (record (EvPost (url ++ "/api/generate")
                    (Api.ollama_body prompt sys model format)) w)
  /\ (forall r, response e = Some r ->
        Text.includes (failure_message "Gemini" e) (Text.of_Z (status r))
        /\ Text.includes (failure_message "Gemini" e)
             (JS.interpolate (JS.stringify (data r))))
  /\ (response e = None -> request e = true ->
      Text.includes (failure_message "Gemini" e) (message e)).
Proof.
  intros Hp Ha. split; [| split; [| split]].
  - intro Hk. unfold Api.callGeminiAPI, try_catch, bind. rewrite Hk, Hp.
    unfold ret at 1 2. unfold post. rewrite Ha. simpl.
    apply rethrow_message.
  - unfold Api.callOllamaAPI, try_catch, bind. rewrite Hp.
    unfold ret at 1. unfold post. rewrite Ha. simpl.
    apply rethrow_message.
  - intros r Hr. unfold failure_message. rewrite Hr. split.
    + exists "Gemini API request failed: ",
        (" " ++ statusText r ++ " - " ++ JS.interpolate (JS.stringify (data r))).
      reflexivity.
    + exists ("Gemini API request failed: " ++ Text.of_Z (status r) ++ " "
              ++ statusText r ++ " - "), "".
      rewrite !append_assoc. simpl.
      replace (JS.interpolate (JS.stringify (data r)) ++ "")
        with (JS.interpolate (JS.stringify (data r))); [reflexivity |].
      clear. induction (JS.interpolate (JS.stringify (data r))); simpl;
        congruence.
  - intros Hr Hq. unfold failure_message. rewrite Hr, Hq.
    exists "Gemini API request failed: No response received - ", "".
    simpl. clear. induction (message e); simpl; congruence.
Qed.

Lemma clients_report_http_failures_witness :
  exists w1,
    Api.callOllamaAPI Scenario2.throttled "http://localhost:11434"
      "Which version of expo fits?" None "llama3.2" JS.VNull Scenario.staged
    = Throw (Error ("Ollama API request failed: 429 Too Many Requests - {"
                    ++ JS.dquote ++ "error" ++ JS.dquote ++ ":"
                    ++ JS.dquote ++ "quota" ++ JS.dquote ++ "}")) w1.
Proof.
  destruct (clients_report_http_failures Scenario2.throttled ""
              "Which version of expo fits?" None "llama3.2" ""
              "http://localhost:11434" JS.VNull Scenario.staged
              _ eq_refl eq_refl) as (_ & O & _).
  eexists. exact O.
Defined.

Lemma extract_text_sound data w r :
  Api.extract_text data w = r ->
  match r with
  | Return (Some text) w1 =>
      w1 = w /\
      exists candidates candidate content parts part,
        JS.get data "candidates" = Some candidates
        /\ JS.get candidates "0" = Some candidate
        /\ JS.get candidate "content" = Some content
        /\ JS.get content "parts" = Some parts
        /\ JS.get parts "0" = Some part
        /\ JS.get part "text" = Some text
  | Return None w1 | Throw _ w1 => w1 = w
  | _ => False
  end.
Proof.
  intros <-.
  unfold Api.extract_text, bind, prop, greater_than_zero, ret, throw.
  repeat
    (cbv beta iota;
     match goal with
     | |- context [match JS.get ?x ?k with _ => _ end] =>
         destruct (JS.get x k) eqn:?
     | |- context [match JS.is_positive ?x with _ => _ end] =>
         destruct (JS.is_positive x) as [[] |] eqn:?
     | |- context [if JS.truthy ?x then _ else _] =>
         destruct (JS.truthy x) eqn:?
     end);
    cbv beta iota; try reflexivity.
  split; [reflexivity |]. do 5 eexists. repeat split; eassumption.
Qed.

(** X11. What a client returns comes from the response and from
    nowhere else: if callGeminiAPI returns a value, one request was
    sent, the endpoint answered with success, and the value is the
    text of the first part of the content of the first candidate; if
    callOllamaAPI returns a value, it is the response field of the
    answer. *)
Theorem clients_return_the_envelope_field (env : Env) (key prompt : string)
  (sys : option string) (model method url : string) (format : JS.value)
  (w : World) (v : JS.value) (w1 : World) :
  (Api.callGeminiAPI env key prompt sys model method w = Return v w1 ->
   llm_calls w1 = llm_calls w + 1
   /\ exists data candidates candidate content parts part,
        axios_post env (llm_calls w) = Resolved data
        /\ JS.get data "candidates" = Some candidates
        /\ JS.get candidates "0" = Some candidate
        /\ JS.get candidate "content" = Some content
        /\ JS.get content "parts" = Some parts
        /\ JS.get parts "0" = Some part
        /\ JS.get part "text" = Some v)
  /\ (Api.callOllamaAPI env url prompt sys model format w = Return v w1 ->
      llm_calls w1 = llm_calls w + 1
      /\ exists data,
           axios_post env (llm_calls w) = Resolved data
           /\ JS.get data "response" = Some v).
Proof.
  assert (Hcount : forall u b, llm_calls (record (EvPost u b) w) = llm_calls w + 1)
    by (intros; unfold llm_calls; rewrite count_record; reflexivity).
  split.
  - unfold Api.callGeminiAPI, try_catch, bind.
    destruct (JS.blank key); [simpl; discriminate |].
    destruct (JS.blank prompt); [simpl; discriminate |].
    unfold ret at 1 2. unfold post.
    destruct (axios_post env (llm_calls w)) as [data | e] eqn:Ha;
      unfold await; cbv beta iota;
      [| unfold throw at 1; rewrite rethrow_message; discriminate].
    unfold ret at 1.
    pose proof (extract_text_sound data
                  (record (EvPost (Api.gemini_url model method key)
                             (Api.gemini_body prompt sys)) w) _ eq_refl) as Hx.
    destruct (Api.extract_text data _) as [[text |] w2 | e w2 | |];
      try contradiction.
    + destruct Hx as (-> & cs & c & ct & ps & p & Hpath).
      intro H. inversion H. subst. split; [apply Hcount |].
      exists data, cs, c, ct, ps, p. split; [reflexivity | exact Hpath].
    + unfold throw at 1. rewrite rethrow_message. discriminate.
    + rewrite rethrow_message. discriminate.
  - unfold Api.callOllamaAPI, try_catch, bind.
    destruct (JS.blank prompt); [simpl; discriminate |].
    unfold ret at 1. unfold post.
    destruct (axios_post env (llm_calls w)) as [data | e] eqn:Ha;
      unfold await; cbv beta iota;
      [| unfold throw at 1; rewrite rethrow_message; discriminate].
    unfold ret at 1. unfold prop.
    destruct (JS.get data "response") as [x |] eqn:Hg.
    + unfold ret. intro H. inversion H. subst. split; [apply Hcount |].
      exists data. split; [reflexivity | exact Hg].
    + unfold throw at 1. rewrite rethrow_message. discriminate.
Qed.

Lemma clients_return_the_envelope_field_witness :
  exists data,
    axios_post (Scenario.never_passing "error") 0 = Resolved data
    /\ exists candidates candidate content parts part,
         JS.get data "candidates" = Some candidates
         /\ JS.get candidates "0" = Some candidate
         /\ JS.get candidate "content" = Some content
         /\ JS.get content "parts" = Some parts
         /\ JS.get parts "0" = Some part
         /\ JS.get part "text" = Some (Scenario.reply "error").
Proof.
  edestruct (clients_return_the_envelope_field (Scenario.never_passing "error")
               "AIzaSy-example-key" "Which version of expo fits?" None
               "gemini-2.0-flash-lite" "generateContent" "" JS.VNull
               Scenario.staged (Scenario.reply "error"))
    as [G _].
  destruct G as (_ & data & cs & c & ct & ps & p & Ha & Hpath).
  - vm_compute. reflexivity.
  - exists data. split; [exact Ha |]. exists cs, c, ct, ps, p. exact Hpath.
Defined.

(* ================================================================== *)
(** ** validateArgs (expo-upgrade.js, lines 11 to 85)

    The arguments are those that yargs hands over for the command.
    In this module each is a string or is absent; arguments of any
    other type are taken up in [Argv] further down, which is this
    module on strings.  What the function prints is left out, as all
    console output is; [path.resolve] and [fs.existsSync] are given by
    the caller of the model. *)

Module Validate.
Import Proc.

Record Args : Type := {
  arg_src : option string;              (* args.src *)
  arg_expo_version : option string;     (* args['expo-version'] *)
  arg_gemini_key : option string;       (* args['gemini-key'] *)
  arg_ollama_model : option string;     (* args['ollama-model'] *)
  arg_ollama_url : option string        (* args['ollama-url'] *)
}.

Record Validated : Type := {
  sourcePath : string;
  expoVersion : option string;
  geminiKey : option string;
  ollamaUrl : string;
  ollamaModel : option string
}.

(** [\d+] at the head of [s]: what follows the longest run of digits,
    if the run is not empty. *)
Definition digits_then (s : string) : option string :=
  match JS.take_while JS.is_digit s with
  | (String _ _, r) => Some r
  | (EmptyString, _) => None
  end.

(** [\.] at the head of [s]. *)
Definition dot_then (s : string) : option string :=
  match s with
  | String c r => if Ascii.eqb c "." then Some r else None
  | EmptyString => None
  end.

(** [/^\d+\.\d+\.\d+$/.test(s)]: the digit runs are matched greedily,
    which loses nothing since a dot is not a digit. *)
Definition version_ok (s : string) : bool :=
  match digits_then s with
  | Some r1 =>
      match dot_then r1 with
      | Some r2 =>
          match digits_then r2 with
          | Some r3 =>
              match dot_then r3 with
              | Some r4 =>
                  match digits_then r4 with
                  | Some EmptyString => true
                  | _ => false
                  end
              | None => false
              end
          | None => false
          end
      | None => false
      end
  | None => false
  end.

(** [s || d] for a string argument. *)
Definition or_default (o : option string) (d : string) : string :=
  match Upgrade.provided o with
  | Some s => s
  | None => d
  end.

(** The text a possibly absent argument has in a template literal or
    as the subject of a regular expression. *)
Definition shown (o : option string) : string :=
  match o with
  | Some s => s
  | None => "undefined"
  end.

Section Validate.

Variable path_resolve : string -> string.
Variable existsSync : string -> bool.

Local Open Scope proc_scope.

(** Lines 12 to 25: the errors for missing arguments. *)
Definition missing (args : Args) : list string :=
  (match Upgrade.provided (arg_src args) with
   | Some _ => []
   | None => ["Source path is required. Please provide the path to your React Native project."]
   end
   ++ match Upgrade.provided (arg_expo_version args) with
      | Some _ => []
      | None => ["Expo version is required. Please specify the version to upgrade to (e.g., 49.0.0)."]
      end
   ++ match Upgrade.provided (arg_gemini_key args),
            Upgrade.provided (arg_ollama_model args) with
      | None, None =>
          ["Either --gemini-key or --ollama-model must be provided for authentication."]
      | _, _ => []
      end)%list.

(** Lines 38 to 66: the errors of the arguments that are there. *)
Definition malformed (args : Args) (sourcePath : string) : list string :=
  ((if existsSync sourcePath then []
    else [("Source path does not exist: " ++ sourcePath)%string])
   ++ (if version_ok (shown (arg_expo_version args)) then []
       else [("Invalid expo version format: " ++ shown (arg_expo_version args)
              ++ ". Expected format: X.Y.Z (e.g., 49.0.0)")%string])
   ++ match Upgrade.provided (arg_gemini_key args) with
      | Some key =>
          if JS.blank key then ["Gemini key cannot be empty."]
          else if (List.length (JS.code_units key) <? 10)%nat
               then ["Gemini key appears to be invalid. Please check your API key."]
               else []
      | None => []
      end
   ++ match Upgrade.provided (arg_ollama_model args) with
      | Some model =>
          if JS.blank model then ["Ollama model cannot be empty."] else []
      | None => []
      end)%list.

Definition validateArgs (args : Args) : M Validated :=
  match missing args with
  | _ :: _ => exit 1%Z
  | [] =>
      sourcePath <-
        match arg_src args with
        | Some s => ret (path_resolve s)
        | None =>
            throw (Error ("The " ++ JS.dquote ++ "paths[0]" ++ JS.dquote
                          ++ " argument must be of type string."
                          ++ " Received undefined"))
        end ;;
      match malformed args sourcePath with
      | _ :: _ => exit 1%Z
      | [] =>
          ret {| sourcePath := sourcePath;
                 expoVersion := arg_expo_version args;
                 geminiKey := arg_gemini_key args;
                 ollamaUrl := or_default (arg_ollama_url args)
                                "http://localhost:11434";
                 ollamaModel := arg_ollama_model args |}
      end
  end.

End Validate.

(** The credentials that the loop of expoUpgrade takes from the
    validated arguments (line 306). *)
Definition credentials (v : Validated) : Upgrade.ValidatedArgs :=
  {| Upgrade.geminiKey := geminiKey v;
     Upgrade.ollamaUrl := ollamaUrl v;
     Upgrade.ollamaModel := ollamaModel v |}.

(** *** The version pattern *)

Fixpoint all_chars (p : ascii -> bool) (s : string) : bool :=
  match s with
  | EmptyString => true
  | String c r => p c && all_chars p r
  end.

(** A non-empty run of decimal digits. *)
Definition digits (s : string) : Prop :=
  s <> "" /\ all_chars JS.is_digit s = true.

Definition stops (p : ascii -> bool) (r : string) : Prop :=
  match r with
  | String c _ => p c = false
  | EmptyString => True
  end.

Lemma take_while_spec p s :
  s = fst (JS.take_while p s) ++ snd (JS.take_while p s)
  /\ all_chars p (fst (JS.take_while p s)) = true
  /\ stops p (snd (JS.take_while p s)).
Proof.
  induction s as [| c s (IH1 & IH2 & IH3)]; simpl; [auto |].
  destruct (p c) eqn:Hc.
  - destruct (JS.take_while p s) as [a b]. simpl in *.
    rewrite Hc, IH2. repeat split; [congruence | exact IH3].
  - simpl. auto.
Qed.

Lemma take_while_exact p a r :
  all_chars p a = true -> stops p r -> JS.take_while p (a ++ r) = (a, r).
Proof.
  induction a as [| c a IH]; simpl; intros Ha Hr.
  - destruct r as [| c r]; simpl in *; [reflexivity |]. rewrite Hr.
    reflexivity.
  - apply andb_true_iff in Ha. destruct Ha as [Hc Ha].
    rewrite Hc, (IH Ha Hr). reflexivity.
Qed.

End Validate.

(** *** Facts about validateArgs *)

Lemma append_empty_r (s : string) : s ++ "" = s.
Proof. induction s as [| c s IH]; simpl; [| rewrite IH]; reflexivity. Qed.

Lemma provided_some o s : provided o = Some s -> o = Some s /\ s <> "".
Proof.
  destruct o as [[| c r] |]; simpl; intro H; inversion H; subst.
  split; [reflexivity | discriminate].
Qed.

Lemma digits_then_spec s r :
  Validate.digits_then s = Some r
  <-> exists a, Validate.digits a /\ s = a ++ r /\ Validate.stops JS.is_digit r.
Proof.
  unfold Validate.digits_then, Validate.digits. split.
  - destruct (Validate.take_while_spec JS.is_digit s) as (H1 & H2 & H3).
    destruct (JS.take_while JS.is_digit s) as [[| c a] r']; simpl in *;
      [discriminate |].
    intro H. inversion H; subst r'. exists (String c a).
    repeat split; [discriminate | exact H2 | exact H1 | exact H3].
  - intros (a & [Hne Ha] & -> & Hr).
    rewrite (Validate.take_while_exact _ _ _ Ha Hr).
    destruct a; [contradiction | reflexivity].
Qed.

Lemma dot_then_spec s r : Validate.dot_then s = Some r <-> s = "." ++ r.
Proof.
  unfold Validate.dot_then. split.
  - destruct s as [| c s]; [discriminate |].
    destruct (Ascii.eqb c ".") eqn:Hc; [| discriminate].
    apply Ascii.eqb_eq in Hc. subst c. intro H. inversion H. reflexivity.
  - intros ->. reflexivity.
Qed.

(** X12.  The version test of validateArgs accepts exactly the texts
    made of three non-empty runs of the digits 0 to 9 separated by two
    dots: nothing may come before or after, so a prefix such as v, a
    range sign, a pre-release suffix or a fourth component is refused. *)
Theorem version_test_accepts_three_digit_runs (s : string) :
  Validate.version_ok s = true
  <-> exists a b c,
        Validate.digits a /\ Validate.digits b /\ Validate.digits c
        /\ s = a ++ "." ++ b ++ "." ++ c.
Proof.
  unfold Validate.version_ok. split.
  - destruct (Validate.digits_then s) as [r1 |] eqn:H1; [| discriminate].
    destruct (Validate.dot_then r1) as [r2 |] eqn:H2; [| discriminate].
    destruct (Validate.digits_then r2) as [r3 |] eqn:H3; [| discriminate].
    destruct (Validate.dot_then r3) as [r4 |] eqn:H4; [| discriminate].
    destruct (Validate.digits_then r4) as [[| ? ?] |] eqn:H5;
      try discriminate.
    intros _.
    apply digits_then_spec in H1, H3, H5.
    apply dot_then_spec in H2, H4.
    destruct H1 as (a & Ha & -> & _), H3 as (b & Hb & -> & _),
             H5 as (c & Hc & -> & _).
    subst r1 r3. exists a, b, c. rewrite append_empty_r.
    repeat split; try apply Ha; try apply Hb; apply Hc.
  - intros (a & b & c & Ha & Hb & Hc & ->).
    assert (H1 : Validate.digits_then (a ++ "." ++ b ++ "." ++ c)
                 = Some ("." ++ b ++ "." ++ c)).
    { apply digits_then_spec. exists a. repeat split; apply Ha. }
    assert (H3 : Validate.digits_then (b ++ "." ++ c) = Some ("." ++ c)).
    { apply digits_then_spec. exists b. repeat split; apply Hb. }
    assert (H5 : Validate.digits_then c = Some "").
    { apply digits_then_spec. exists c. rewrite append_empty_r.
      repeat split; apply Hc. }
    assert (H2 : forall r, Validate.dot_then ("." ++ r) = Some r)
      by reflexivity.
    rewrite H1, H2, H3, H2, H5. reflexivity.
Qed.

(** *** validateArgs on arguments of any type

    [Validate.validateArgs] above reads the arguments as strings.
    The command line parser can also hand over a number (an argument
    made of digits), [true] (a flag without a value) or an array (an
    option given twice), and validateArgs then throws a TypeError
    where it calls [path.resolve] or [trim] on such a value.  Here the
    arguments are any values, [undefined] when absent. *)

Module Argv.

Record RawArgs : Type := {
  raw_src : JS.value;                   (* args.src *)
  raw_expo_version : JS.value;          (* args['expo-version'] *)
  raw_gemini_key : JS.value;            (* args['gemini-key'] *)
  raw_ollama_model : JS.value;          (* args['ollama-model'] *)
  raw_ollama_url : JS.value             (* args['ollama-url'] *)
}.

Record Validated : Type := {
  sourcePath : string;
  expoVersion : JS.value;
  geminiKey : JS.value;
  ollamaUrl : JS.value;
  ollamaModel : JS.value
}.

Section Argv.

Variable path_resolve : string -> string.
Variable existsSync : string -> bool.

Local Open Scope proc_scope.

(** Lines 12 to 25. *)
Definition missing (args : RawArgs) : list string :=
  ((if JS.truthy (raw_src args) then []
    else ["Source path is required. Please provide the path to your React Native project."])
   ++ (if JS.truthy (raw_expo_version args) then []
       else ["Expo version is required. Please specify the version to upgrade to (e.g., 49.0.0)."])
   ++ (if JS.truthy (raw_gemini_key args) || JS.truthy (raw_ollama_model args)
       then []
       else ["Either --gemini-key or --ollama-model must be provided for authentication."]))%list.

(** [path.resolve(v)]: a TypeError unless [v] is a string (the
    message, which goes on to name the value received, is only ever
    printed). *)
Definition resolve (v : JS.value) : M string :=
  match v with
  | JS.VString s => ret (path_resolve s)
  | _ =>
      throw (Error ("The " ++ JS.dquote ++ "paths[0]" ++ JS.dquote
                    ++ " argument must be of type string."))
  end.

(** [ToString(v)], as [RegExp.prototype.test] and a template literal
    apply it. *)
Definition text (v : JS.value) : M string :=
  match JS.to_string v with
  | Some t => ret t
  | None => throw (Error "Cannot convert object to primitive value")
  end.

(** The receiver of [v.trim()]: only a string has that method. *)
Definition trimmable (name : string) (v : JS.value) : M string :=
  match v with
  | JS.VString s => ret s
  | _ => throw (Error (name ++ ".trim is not a function"))
  end.

Definition validateArgs (args : RawArgs) : M Validated :=
  match missing args with
  | _ :: _ => exit 1%Z
  | [] =>
      sourcePath <- resolve (raw_src args) ;;
      version <- text (raw_expo_version args) ;;
      keyErrors <-
        (if JS.truthy (raw_gemini_key args) then
           key <- trimmable "geminiKey" (raw_gemini_key args) ;;
           if JS.blank key then ret ["Gemini key cannot be empty."]
           else if (List.length (JS.code_units key) <? 10)%nat
                then ret ["Gemini key appears to be invalid. Please check your API key."]
                else ret []
         else ret []) ;;
      modelErrors <-
        (if JS.truthy (raw_ollama_model args) then
           model <- trimmable "ollamaModel" (raw_ollama_model args) ;;
           if JS.blank model then ret ["Ollama model cannot be empty."]
           else ret []
         else ret []) ;;
      match ((if existsSync sourcePath then []
              else [("Source path does not exist: " ++ sourcePath)%string])
             ++ (if Validate.version_ok version then []
                 else [("Invalid expo version format: " ++ version
                        ++ ". Expected format: X.Y.Z (e.g., 49.0.0)")%string])
             ++ keyErrors ++ modelErrors)%list with
      | _ :: _ => exit 1%Z
      | [] =>
          ret {| sourcePath := sourcePath;
                 expoVersion := raw_expo_version args;
                 geminiKey := raw_gemini_key args;
                 ollamaUrl := if JS.truthy (raw_ollama_url args)
                              then raw_ollama_url args
                              else JS.VString "http://localhost:11434";
                 ollamaModel := raw_ollama_model args |}
      end
  end.

End Argv.

(** The reading of an argument as a string or as absent, and of the
    arguments as [Validate.Args]. *)
Definition text_or_absent (v : JS.value) : option (option string) :=
  match v with
  | JS.VUndefined => Some None
  | JS.VString s => Some (Some s)
  | _ => None
  end.

Definition strings (raw : RawArgs) : option Validate.Args :=
  match text_or_absent (raw_src raw),
        text_or_absent (raw_expo_version raw),
        text_or_absent (raw_gemini_key raw),
        text_or_absent (raw_ollama_model raw),
        text_or_absent (raw_ollama_url raw) with
  | Some src, Some version, Some key, Some model, Some url =>
      Some {| Validate.arg_src := src;
              Validate.arg_expo_version := version;
              Validate.arg_gemini_key := key;
              Validate.arg_ollama_model := model;
              Validate.arg_ollama_url := url |}
  | _, _, _, _, _ => None
  end.

Definition value_of (o : option string) : JS.value :=
  match o with
  | Some s => JS.VString s
  | None => JS.VUndefined
  end.

(** What [Validate.validateArgs] returns, among the values. *)
Definition values (v : Validate.Validated) : Validated :=
  {| sourcePath := Validate.sourcePath v;
     expoVersion := value_of (Validate.expoVersion v);
     geminiKey := value_of (Validate.geminiKey v);
     ollamaUrl := JS.VString (Validate.ollamaUrl v);
     ollamaModel := value_of (Validate.ollamaModel v) |}.

End Argv.

Lemma truthy_string s :
  JS.truthy (JS.VString s) = match provided (Some s) with
                             | Some _ => true
                             | None => false
                             end.
Proof. destruct s; reflexivity. Qed.

(** On arguments that are strings or absent, validateArgs is
    [Validate.validateArgs]. *)
Lemma validateArgs_on_strings path_resolve existsSync raw args w :
  Argv.strings raw = Some args ->
  Argv.validateArgs path_resolve existsSync raw w
  = match Validate.validateArgs path_resolve existsSync args w with
    | Return v w1 => Return (Argv.values v) w1
    | Throw e w1 => Throw e w1
    | Exit code w1 => Exit code w1
    | Diverge => Diverge
    end.
Proof.
  destruct raw as [src ver key model url]. unfold Argv.strings. simpl.
  destruct src as [| | | | src | |]; try discriminate;
    destruct ver as [| | | | ver | |]; try discriminate;
    destruct key as [| | | | key | |]; try discriminate;
    destruct model as [| | | | model | |]; try discriminate;
    destruct url as [| | | | url | |]; try discriminate;
    simpl; intro H; inversion H; subst args; clear H;
    unfold Argv.validateArgs, Validate.validateArgs, Argv.missing,
      Validate.missing, Validate.malformed, Validate.or_default,
      Validate.shown, Argv.resolve, Argv.text, Argv.trimmable, Argv.values,
      bind, ret, exit;
    cbn [Argv.raw_src Argv.raw_expo_version Argv.raw_gemini_key
         Argv.raw_ollama_model Argv.raw_ollama_url
         Validate.arg_src Validate.arg_expo_version Validate.arg_gemini_key
         Validate.arg_ollama_model Validate.arg_ollama_url JS.to_string];
    rewrite ?truthy_string;
    repeat match goal with
           | |- context [provided (Some ?s)] =>
               let E := fresh "E" in
               destruct (provided (Some s)) eqn:E;
               [apply provided_some in E; destruct E as [E ?];
                inversion E; subst; clear E |]
           end.
  all: cbn [JS.truthy provided orb app Validate.sourcePath Validate.expoVersion
            Validate.geminiKey Validate.ollamaUrl Validate.ollamaModel
            Argv.value_of].
  all: try reflexivity.
  all: repeat match goal with
              | |- context [if ?b then _ else _] => destruct b
              end.
  all: reflexivity.
Qed.

Lemma strings_none raw :
  Argv.text_or_absent (Argv.raw_src raw) = None
  \/ Argv.text_or_absent (Argv.raw_expo_version raw) = None
  \/ Argv.text_or_absent (Argv.raw_gemini_key raw) = None
  \/ Argv.text_or_absent (Argv.raw_ollama_model raw) = None ->
  Argv.strings raw = None.
Proof.
  unfold Argv.strings.
  destruct (Argv.text_or_absent (Argv.raw_src raw));
    destruct (Argv.text_or_absent (Argv.raw_expo_version raw));
    destruct (Argv.text_or_absent (Argv.raw_gemini_key raw));
    destruct (Argv.text_or_absent (Argv.raw_ollama_model raw));
    try reflexivity;
    intros [H | [H | [H | H]]]; discriminate H.
Qed.

(** A truthy value is a string that is not empty, or is no string. *)
Lemma truthy_cases v :
  JS.truthy v = true ->
  (exists s, v = JS.VString s /\ s <> "")
  \/ (Argv.text_or_absent v = None /\ forall s, v <> JS.VString s).
Proof.
  destruct v; simpl; intro H; try discriminate H;
    try (right; split; [reflexivity | discriminate]).
  left. exists s. split; [reflexivity |]. intros ->. discriminate H.
Qed.

Lemma to_string_none v : JS.to_string v = None -> Argv.text_or_absent v = None.
Proof. destruct v; simpl; intro H; try discriminate H; reflexivity. Qed.

(** X13.  Whatever the arguments are, validateArgs touches nothing,
    and it ends in one of three ways: it returns, it ends the process
    with code 1, or it throws, and it throws only when some argument
    is neither a string nor absent (path.resolve and trim raise a
    TypeError on a number, on true or on an array).  On arguments that
    are strings or absent it therefore does not throw, and it is then
    [Validate.validateArgs].  What it returns has a source that is a
    string whose resolved path exists, a version whose text has the
    form X.Y.Z, the key and the model as they were given, a provider
    that can be used (a key that is a string, not blank, of ten UTF-16
    units or more, or else, without a key, a model), a model that if
    given is a string and not blank, and an Ollama URL that is never
    empty: the one given, or http://localhost:11434. *)
Theorem validateArgs_returns_usable_arguments
  (path_resolve : string -> string) (existsSync : string -> bool)
  (raw : Argv.RawArgs) (w : World) :
  match Argv.validateArgs path_resolve existsSync raw w with
  | Return v w1 =>
      w1 = w
      /\ (exists s, Argv.raw_src raw = JS.VString s /\ s <> ""
                    /\ Argv.sourcePath v = path_resolve s)
      /\ existsSync (Argv.sourcePath v) = true
      /\ (exists ver, JS.to_string (Argv.expoVersion v) = Some ver
                      /\ Validate.version_ok ver = true)
      /\ Argv.geminiKey v = Argv.raw_gemini_key raw
      /\ Argv.ollamaModel v = Argv.raw_ollama_model raw
      /\ JS.truthy (Argv.ollamaUrl v) = true
      /\ (Argv.ollamaUrl v = JS.VString "http://localhost:11434"
          \/ Argv.ollamaUrl v = Argv.raw_ollama_url raw)
      /\ ((exists key, Argv.geminiKey v = JS.VString key
                       /\ JS.blank key = false
                       /\ 10 <= List.length (JS.code_units key))
          \/ (JS.truthy (Argv.geminiKey v) = false
              /\ JS.truthy (Argv.ollamaModel v) = true))
      /\ (JS.truthy (Argv.ollamaModel v) = true ->
          exists model, Argv.ollamaModel v = JS.VString model
                        /\ JS.blank model = false)
  | Exit code w1 => code = 1%Z /\ w1 = w
  | Throw _ w1 => w1 = w /\ Argv.strings raw = None
  | Diverge => False
  end
  /\ forall args,
       Argv.strings raw = Some args ->
       Argv.validateArgs path_resolve existsSync raw w
       = match Validate.validateArgs path_resolve existsSync args w with
         | Return v w1 => Return (Argv.values v) w1
         | Throw e w1 => Throw e w1
         | Exit code w1 => Exit code w1
         | Diverge => Diverge
         end.
Proof.
  split; [| intros args; apply validateArgs_on_strings].
  unfold Argv.validateArgs, Argv.missing.
  destruct (JS.truthy (Argv.raw_src raw)) eqn:Tsrc; [| simpl; auto].
  destruct (JS.truthy (Argv.raw_expo_version raw)) eqn:Tver; [| simpl; auto].
  destruct (JS.truthy (Argv.raw_gemini_key raw)
            || JS.truthy (Argv.raw_ollama_model raw)) eqn:Tprov;
    [| simpl; auto].
  cbn [app]. unfold bind.
  (* the source path *)
  destruct (truthy_cases _ Tsrc) as [(s & Hsrc & Hs) | [Hsrc Hnot]].
  2:{ assert (Hthrow : exists e, Argv.resolve path_resolve (Argv.raw_src raw) w
                                 = Throw e w).
      { unfold Argv.resolve, throw.
        destruct (Argv.raw_src raw); try (eexists; reflexivity).
        exfalso. exact (Hnot _ eq_refl). }
      destruct Hthrow as [e ->]. split; [reflexivity |].
      apply strings_none. auto. }
  rewrite Hsrc. unfold Argv.resolve, ret at 1.
  (* the version *)
  unfold Argv.text.
  destruct (JS.to_string (Argv.raw_expo_version raw)) as [ver |] eqn:Hver.
  2:{ unfold throw. split; [reflexivity |].
      apply strings_none. right. left. apply to_string_none. exact Hver. }
  unfold ret at 1.
  (* the key *)
  assert (Hkey :
    (JS.truthy (Argv.raw_gemini_key raw) = false)
    \/ (exists key, Argv.raw_gemini_key raw = JS.VString key /\ key <> "")
    \/ (JS.truthy (Argv.raw_gemini_key raw) = true
        /\ Argv.text_or_absent (Argv.raw_gemini_key raw) = None
        /\ forall s, Argv.raw_gemini_key raw <> JS.VString s)).
  { destruct (JS.truthy (Argv.raw_gemini_key raw)) eqn:T; [| auto].
    destruct (truthy_cases _ T) as [H | [H1 H2]]; auto. }
  assert (Hmodel :
    (JS.truthy (Argv.raw_ollama_model raw) = false)
    \/ (exists model, Argv.raw_ollama_model raw = JS.VString model
                      /\ model <> "")
    \/ (JS.truthy (Argv.raw_ollama_model raw) = true
        /\ Argv.text_or_absent (Argv.raw_ollama_model raw) = None
        /\ forall s, Argv.raw_ollama_model raw <> JS.VString s)).
  { destruct (JS.truthy (Argv.raw_ollama_model raw)) eqn:T; [| auto].
    destruct (truthy_cases _ T) as [H | [H1 H2]]; auto. }
  assert (Hurl : JS.truthy (if JS.truthy (Argv.raw_ollama_url raw)
                            then Argv.raw_ollama_url raw
                            else JS.VString "http://localhost:11434") = true
                 /\ ((if JS.truthy (Argv.raw_ollama_url raw)
                      then Argv.raw_ollama_url raw
                      else JS.VString "http://localhost:11434")
                     = JS.VString "http://localhost:11434"
                     \/ (if JS.truthy (Argv.raw_ollama_url raw)
                         then Argv.raw_ollama_url raw
                         else JS.VString "http://localhost:11434")
                        = Argv.raw_ollama_url raw)).
  { destruct (JS.truthy (Argv.raw_ollama_url raw)) eqn:T; auto. }
  destruct Hurl as [Hurl1 Hurl2].
  destruct Hkey as [Tkey | [(key & Hkey & Hkne) | (Tkey & Hkey & Hknot)]].
  - (* no key: the model is there *)
    rewrite Tkey in *. simpl in Tprov. unfold ret at 1.
    destruct Hmodel as [Tmodel | [(model & Hm & Hmne) | (Tmodel & Hm & Hmnot)]].
    + congruence.
    + rewrite Hm. rewrite Hm in Tprov.
      assert (Tm : JS.truthy (JS.VString model) = true) by exact Tprov.
      rewrite Tm. unfold Argv.trimmable, ret at 1.
      destruct (JS.blank model) eqn:Bm;
        destruct (existsSync (path_resolve s)) eqn:Hex;
        destruct (Validate.version_ok ver) eqn:Hok;
        simpl; try (split; reflexivity).
      rewrite ?Hm, ?Tkey.
      repeat split; auto.
      * exists s. auto.
      * exists ver. auto.
      * intros _. exists model. auto.
    + rewrite Tmodel. unfold Argv.trimmable, throw.
      assert (Hthrow : forall e,
                match Argv.raw_ollama_model raw with
                | JS.VString s0 => ret s0
                | _ => fun w0 : World => Throw e w0
                end w = Throw e w).
      { intro e. destruct (Argv.raw_ollama_model raw); try reflexivity.
        exfalso. exact (Hmnot _ eq_refl). }
      rewrite Hthrow. split; [reflexivity |]. apply strings_none. auto.
  - (* a key that is a string *)
    rewrite Hkey.
    assert (Tk : JS.truthy (JS.VString key) = true)
      by (destruct key; [contradiction | reflexivity]).
    rewrite Tk. unfold Argv.trimmable at 1. unfold ret at 1.
    destruct (JS.blank key) eqn:Bk;
      [| destruct (List.length (JS.code_units key) <? 10)%nat eqn:Lk];
      unfold ret at 1;
      (destruct Hmodel
         as [Tmodel | [(model & Hm & Hmne) | (Tmodel & Hm & Hmnot)]];
       [ rewrite Tmodel; unfold ret at 1
       | rewrite Hm;
         assert (Tm : JS.truthy (JS.VString model) = true)
           by (destruct model; [contradiction | reflexivity]);
         rewrite Tm; unfold Argv.trimmable, ret at 1;
         destruct (JS.blank model) eqn:Bm; unfold ret at 1
       | rewrite Tmodel; unfold Argv.trimmable, throw;
         assert (Hthrow : forall e,
                   match Argv.raw_ollama_model raw with
                   | JS.VString s0 => ret s0
                   | _ => fun w0 : World => Throw e w0
                   end w = Throw e w)
           by (intro e; destruct (Argv.raw_ollama_model raw);
               try reflexivity; exfalso; exact (Hmnot _ eq_refl));
         rewrite Hthrow; split; [reflexivity |]; apply strings_none; auto ]);
      destruct (existsSync (path_resolve s)) eqn:Hex;
      destruct (Validate.version_ok ver) eqn:Hok;
      simpl; try (split; reflexivity);
      apply Nat.ltb_ge in Lk;
      rewrite ?Hkey, ?Hm, ?Tmodel;
      repeat split; auto;
      try (exists s; auto; fail);
      try (exists ver; auto; fail);
      try (left; exists key; auto; fail);
      try discriminate;
      try (intros _; exists model; auto; fail).
  - (* a key that is no string *)
    rewrite Tkey. unfold Argv.trimmable, throw.
    assert (Hthrow : forall e,
              match Argv.raw_gemini_key raw with
              | JS.VString s0 => ret s0
              | _ => fun w0 : World => Throw e w0
              end w = Throw e w).
    { intro e. destruct (Argv.raw_gemini_key raw); try reflexivity.
      exfalso. exact (Hknot _ eq_refl). }
    rewrite Hthrow. split; [reflexivity |]. apply strings_none. auto.
Qed.

Module Scenario3.

(** A command line that names both providers and no Ollama URL. *)
Definition command_line : Validate.Args :=
  {| Validate.arg_src := Some "/projects/app";
     Validate.arg_expo_version := Some "53.0.0";
     Validate.arg_gemini_key := Some "AIzaSy-example-key";
     Validate.arg_ollama_model := Some "llama3.2";
     Validate.arg_ollama_url := None |}.

Definition accepted : Validate.Validated :=
  {| Validate.sourcePath := "/projects/app";
     Validate.expoVersion := Some "53.0.0";
     Validate.geminiKey := Some "AIzaSy-example-key";
     Validate.ollamaUrl := "http://localhost:11434";
     Validate.ollamaModel := Some "llama3.2" |}.

(** A file system in which every path exists, and paths that are
    absolute already. *)
Definition path_resolve (p : string) : string := p.
Definition existsSync (p : string) : bool := true.

End Scenario3.

Module ArgvExamples.

(** A key made of digits arrives as a number and a flag without a
    value as [true]: validateArgs throws on both.  A version given
    twice arrives as an array, whose text is tested. *)
Example arguments_that_are_no_strings :
  (exists e,
     Argv.validateArgs Scenario3.path_resolve Scenario3.existsSync
       {| Argv.raw_src := JS.VString "/projects/app";
          Argv.raw_expo_version := JS.VString "53.0.0";
          Argv.raw_gemini_key := JS.VNumber 12345678901 0;
          Argv.raw_ollama_model := JS.VUndefined;
          Argv.raw_ollama_url := JS.VUndefined |} Scenario.staged
     = Throw e Scenario.staged)
  /\ (exists e,
        Argv.validateArgs Scenario3.path_resolve Scenario3.existsSync
          {| Argv.raw_src := JS.VBool true;
             Argv.raw_expo_version := JS.VString "53.0.0";
             Argv.raw_gemini_key := JS.VString "AIzaSy-example-key";
             Argv.raw_ollama_model := JS.VUndefined;
             Argv.raw_ollama_url := JS.VUndefined |} Scenario.staged
        = Throw e Scenario.staged)
  /\ (exists v,
        Argv.validateArgs Scenario3.path_resolve Scenario3.existsSync
          {| Argv.raw_src := JS.VString "/projects/app";
             Argv.raw_expo_version := JS.VArray [JS.VString "53.0.0"];
             Argv.raw_gemini_key := JS.VString "AIzaSy-example-key";
             Argv.raw_ollama_model := JS.VUndefined;
             Argv.raw_ollama_url := JS.VUndefined |} Scenario.staged
        = Return v Scenario.staged).
Proof. repeat split; eexists; reflexivity. Qed.

End ArgvExamples.

(** X14.  validateArgs refuses no well-formed command line: with a
    source path that exists, a version made of three runs of digits
    and two dots, and a key that is not blank and has ten UTF-16 units
    or more (or, without a key, a model), the model if given not being
    blank, it returns the resolved path, the version, the key and the
    model as given, and the Ollama URL given or the default one. *)
Theorem well_formed_arguments_are_accepted
  (path_resolve : string -> string) (existsSync : string -> bool)
  (args : Validate.Args) (w : World) (s a b c : string) :
  Validate.arg_src args = Some s ->
  s <> "" ->
  existsSync (path_resolve s) = true ->
  Validate.arg_expo_version args = Some (a ++ "." ++ b ++ "." ++ c) ->
  Validate.digits a /\ Validate.digits b /\ Validate.digits c ->
  match provided (Validate.arg_gemini_key args) with
  | Some key => JS.blank key = false /\ 10 <= List.length (JS.code_units key)
  | None => provided (Validate.arg_ollama_model args) <> None
  end ->
  (forall model, provided (Validate.arg_ollama_model args) = Some model ->
                 JS.blank model = false) ->
  Validate.validateArgs path_resolve existsSync args w
  = Return {| Validate.sourcePath := path_resolve s;
              Validate.expoVersion := Some (a ++ "." ++ b ++ "." ++ c);
              Validate.geminiKey := Validate.arg_gemini_key args;
              Validate.ollamaUrl :=
                match provided (Validate.arg_ollama_url args) with
                | Some url => url
                | None => "http://localhost:11434"
                end;
              Validate.ollamaModel := Validate.arg_ollama_model args |} w.
Proof.
  intros Hs Hne Hex Hv (Ha & Hb & Hc) Hkey Hmodel.
  assert (Hok : Validate.version_ok (a ++ "." ++ b ++ "." ++ c) = true).
  { assert (H1 : Validate.digits_then (a ++ "." ++ b ++ "." ++ c)
                 = Some ("." ++ b ++ "." ++ c)).
    { apply digits_then_spec. exists a. repeat split; apply Ha. }
    assert (H3 : Validate.digits_then (b ++ "." ++ c) = Some ("." ++ c)).
    { apply digits_then_spec. exists b. repeat split; apply Hb. }
    assert (H5 : Validate.digits_then c = Some "").
    { apply digits_then_spec. exists c. rewrite append_empty_r.
      repeat split; apply Hc. }
    assert (H2 : forall r, Validate.dot_then ("." ++ r) = Some r)
      by reflexivity.
    unfold Validate.version_ok. rewrite H1, H2, H3, H2, H5. reflexivity. }
  assert (Hver : provided (Some (a ++ "." ++ b ++ "." ++ c))
                 = Some (a ++ "." ++ b ++ "." ++ c)).
  { destruct Ha as [Hna _]. destruct a; [contradiction | reflexivity]. }
  assert (Hsrc : provided (Some s) = Some s).
  { destruct s; [contradiction | reflexivity]. }
  unfold Validate.validateArgs, Validate.missing, Validate.malformed,
    Validate.or_default.
  rewrite Hs, Hv, Hsrc, Hver. unfold Validate.shown, bind, ret.
  cbv beta iota. rewrite Hex, Hok.
  destruct (provided (Validate.arg_gemini_key args)) as [key |].
  - destruct Hkey as [Hblank Hlen]. apply Nat.ltb_ge in Hlen.
    rewrite Hblank, Hlen.
    destruct (provided (Validate.arg_ollama_model args)) as [model |].
    + rewrite (Hmodel model eq_refl). reflexivity.
    + reflexivity.
  - destruct (provided (Validate.arg_ollama_model args)) as [model |].
    + rewrite (Hmodel model eq_refl). reflexivity.
    + contradiction Hkey. reflexivity.
Qed.

Lemma well_formed_arguments_are_accepted_witness :
  Validate.validateArgs Scenario3.path_resolve Scenario3.existsSync
    Scenario3.command_line Scenario.staged
  = Return Scenario3.accepted Scenario.staged.
Proof.
  apply (well_formed_arguments_are_accepted Scenario3.path_resolve
           Scenario3.existsSync Scenario3.command_line Scenario.staged
           "/projects/app" "53" "0" "0").
  - reflexivity.
  - discriminate.
  - reflexivity.
  - reflexivity.
  - repeat split; discriminate.
  - simpl. split; [reflexivity | vm_compute; lia].
  - intros model H. inversion H. reflexivity.
Defined.

(** What validateArgs lets through can be used to ask a model. *)
Lemma validated_provider path_resolve existsSync args w v w1 :
  Validate.validateArgs path_resolve existsSync args w = Return v w1 ->
  Validate.geminiKey v = Validate.arg_gemini_key args
  /\ Validate.ollamaModel v = Validate.arg_ollama_model args
  /\ Validate.ollamaUrl v
     = Validate.or_default (Validate.arg_ollama_url args)
         "http://localhost:11434"
  /\ match provided (Validate.arg_gemini_key args) with
     | Some key => JS.blank key = false
     | None => exists model,
                 provided (Validate.arg_ollama_model args) = Some model
     end.
Proof.
  unfold Validate.validateArgs, Validate.missing, Validate.malformed.
  destruct (provided (Validate.arg_src args)) as [s |] eqn:Hs;
    [| simpl; discriminate].
  destruct (provided (Validate.arg_expo_version args)) as [ver |] eqn:Hv;
    [| simpl; discriminate].
  apply provided_some in Hs. destruct Hs as [Hs Hne].
  rewrite Hs. unfold bind, ret. cbv beta iota.
  destruct (provided (Validate.arg_gemini_key args)) as [key |] eqn:Hg;
    [destruct (JS.blank key) eqn:Hb;
     [| destruct (List.length (JS.code_units key) <? 10)%nat eqn:Hl] |];
    (destruct (provided (Validate.arg_ollama_model args)) as [model |] eqn:Ho;
     [destruct (JS.blank model) eqn:Hm |]);
    destruct (existsSync (path_resolve s)) eqn:Hex;
    destruct (Validate.version_ok (Validate.shown (Validate.arg_expo_version args)))
      eqn:Hok;
    simpl; try discriminate;
    intro H; inversion H; subst; simpl;
    repeat split; try reflexivity; eexists; reflexivity.
Qed.

(** X15.  With the arguments that validateArgs returned, a failed
    diagnostic over a manifest that can be read and parsed always
    reaches a model, once: the request goes to Gemini whenever a key
    was given, also when an Ollama model was given with it, and
    otherwise to /api/generate under the Ollama URL given, or under
    http://localhost:11434 when none was. *)
Theorem validated_arguments_reach_the_model
  (path_resolve : string -> string) (existsSync : string -> bool)
  (args : Validate.Args) (w0 w0' : World) (v : Validate.Validated)
  (env : Env) (src : string) (w : World) (result : ExecaResult)
  (text : string) (pj : JS.value) :
  Validate.validateArgs path_resolve existsSync args w0 = Return v w0' ->
  expo_doctor env (diagnostic_runs w) = Resolved result ->
  exit_zero result = false ->
  package_json (fs w) = Some text ->
  JS.parse (JS.VString text) = Some pj ->
  exists passed w1 url body,
    checkExpoDoctor env src (Validate.geminiKey v) (Validate.ollamaUrl v)
      (Validate.ollamaModel v) w = Return passed w1
    /\ llm_calls w1 = S (llm_calls w)
    /\ (exists tail,
          trace w1 = (trace w ++ EvExpoDoctor :: EvPost url body :: tail)%list)
    /\ url = match provided (Validate.arg_gemini_key args) with
             | Some key =>
                 Api.gemini_url "gemini-2.0-flash-lite" "generateContent" key
             | None =>
                 match provided (Validate.arg_ollama_url args) with
                 | Some given => given
                 | None => "http://localhost:11434"
                 end ++ "/api/generate"
             end.
Proof.
  intros Hv Hd Hz Ht Hp.
  destruct (validated_provider _ _ _ _ _ _ Hv) as (Hg & Ho & Hu & Hprov).
  rewrite Hg, Ho, Hu.
  assert (Hreq : exists url body,
             request_of (error_log src result) pj
               (Validate.arg_gemini_key args)
               (Validate.or_default (Validate.arg_ollama_url args)
                  "http://localhost:11434")
               (Validate.arg_ollama_model args) = Some (EvPost url body)
             /\ url = match provided (Validate.arg_gemini_key args) with
                      | Some key =>
                          Api.gemini_url "gemini-2.0-flash-lite"
                            "generateContent" key
                      | None =>
                          match provided (Validate.arg_ollama_url args) with
                          | Some given => given
                          | None => "http://localhost:11434"
                          end ++ "/api/generate"
                      end).
  { unfold request_of, Validate.or_default.
    destruct (provided (Validate.arg_gemini_key args)) as [key |].
    - rewrite Hprov. eexists. eexists. split; reflexivity.
    - destruct Hprov as [model ->]. eexists. eexists. split; reflexivity. }
  destruct Hreq as (url & body & Hreq & Hurl).
  destruct (failed_check_consults env src _ _ _ w result text pj _
              Hd Hz Ht Hp Hreq) as (passed & w1 & tail & Hc & Htr & Htail).
  exists passed, w1, url, body.
  split; [exact Hc |]. split; [| split; [exists tail; exact Htr | exact Hurl]].
  unfold llm_calls, count. rewrite Htr, filter_app, length_app. simpl.
  destruct Htail as [[-> _] | (c & -> & _)]; simpl; lia.
Qed.

Lemma validated_arguments_reach_the_model_witness :
  exists passed w1 url body,
    checkExpoDoctor (Scenario.never_passing "error") Scenario.project
      (Validate.geminiKey Scenario3.accepted)
      (Validate.ollamaUrl Scenario3.accepted)
      (Validate.ollamaModel Scenario3.accepted) Scenario.staged
    = Return passed w1
    /\ llm_calls w1 = S (llm_calls Scenario.staged)
    /\ (exists tail,
          trace w1
          = (trace Scenario.staged
             ++ EvExpoDoctor :: EvPost url body :: tail)%list)
    /\ url = match provided (Validate.arg_gemini_key Scenario3.command_line) with
             | Some key =>
                 Api.gemini_url "gemini-2.0-flash-lite" "generateContent" key
             | None =>
                 match provided (Validate.arg_ollama_url Scenario3.command_line) with
                 | Some given => given
                 | None => "http://localhost:11434"
                 end ++ "/api/generate"
             end.
Proof.
  apply (validated_arguments_reach_the_model Scenario3.path_resolve
           Scenario3.existsSync Scenario3.command_line Scenario.staged
           Scenario.staged Scenario3.accepted (Scenario.never_passing "error")
           Scenario.project Scenario.staged Scenario.failing
           (Scenario.text_of Scenario.manifest) Scenario.manifest).
  - vm_compute. reflexivity.
  - reflexivity.
  - reflexivity.
  - reflexivity.
  - vm_compute. reflexivity.
Defined.

(* ================================================================== *)
(** ** updatePackageJson and what follows it (expo-upgrade.js, lines
    255 to 260 and 292 to 330)

    The project directory is the one the upgrade works in ([dest] in
    [expoUpgrade], which becomes [src] at line 295), so the manifest
    that updatePackageJson writes is the one the repair loop reads. *)

Module Staging.
Import Proc Upgrade.

(** [target.k = v] in a module that is not in strict mode (the file
    has no such directive): a primitive target ignores the assignment,
    [undefined] and [null] throw a TypeError.  [k] is a name that is no
    array index and not [length]; on an array such a name becomes a
    property that [JSON.stringify] leaves out, and serialising is all
    that is done with the result. *)
Definition assign (target : JS.value) (k : string) (v : JS.value)
  : M JS.value :=
  match target with
  | JS.VUndefined | JS.VNull =>
      throw (Error ("Cannot set properties of "
                    ++ match target with
                       | JS.VNull => "null"
                       | _ => "undefined"
                       end
                    ++ " (setting '" ++ k ++ "')"))
  | JS.VObject props => ret (JS.VObject (JS.obj_set k v props))
  | _ => ret target
  end.

(** The object [holder] after the value it holds under [k] was changed
    in place to [x]. *)
Definition held (holder : JS.value) (k : string) (x : JS.value) : JS.value :=
  match holder with
  | JS.VObject props => JS.VObject (JS.replace_prop k x props)
  | _ => holder
  end.

Section Staging.

Variable env : Env.
Variable src : string.

Local Open Scope proc_scope.

Definition updatePackageJson (expoVersion : string) : M unit :=
  text <- readFileSync_package_json src ;;
  packageJson <- JSON_parse (JS.VString text) ;;
  dependencies <- prop packageJson "dependencies" ;;
  updated <- assign dependencies "expo" (JS.VString expoVersion) ;;
  writeFileSync_package_json
    match JS.stringify2 (held packageJson "dependencies" updated) with
    | Some json => JS.VString json
    | None => JS.VUndefined
    end.

(** Lines 292 to 330 of expoUpgrade: the version is written, the
    dependencies are installed, and the loop runs. *)
Definition expoUpgrade_staged (expoVersion : string) (args : ValidatedArgs)
  : M report :=
  try_catch
    (updatePackageJson expoVersion ;;
     installDependencies env ;;
     passed <- loop env src maxAttempts args maxAttempts 1 false ;;
     if (passed : bool) then ret Passed else ret Failed)
    (fun error => exit 1%Z).

End Staging.

End Staging.

(** *** Facts about updatePackageJson *)

Lemma assoc_replace_prop_same k v l :
  JS.assoc k l <> None -> JS.assoc k (JS.replace_prop k v l) = Some v.
Proof.
  induction l as [| [k' x] l IH]; simpl; [congruence |].
  destruct (String.eqb k k') eqn:E; simpl; rewrite E; auto.
Qed.

Lemma assoc_replace_prop_other k k' v l :
  k' <> k -> JS.assoc k' (JS.replace_prop k v l) = JS.assoc k' l.
Proof.
  intro Hne. induction l as [| [k0 x] l IH]; simpl; [reflexivity |].
  destruct (String.eqb k k0) eqn:E; simpl.
  - apply String.eqb_eq in E. subst k0.
    destruct (String.eqb k' k) eqn:E'; [| reflexivity].
    apply String.eqb_eq in E'. contradiction.
  - rewrite IH. reflexivity.
Qed.

Lemma keys_replace_prop k v l :
  map fst (JS.replace_prop k v l) = map fst l.
Proof.
  induction l as [| [k0 x] l IH]; simpl; [reflexivity |].
  destruct (String.eqb k k0); simpl; [| rewrite IH]; reflexivity.
Qed.

Lemma assoc_app_other k k' (v : JS.value) l :
  k' <> k -> JS.assoc k' (l ++ [(k, v)]) = JS.assoc k' l.
Proof.
  intro Hne. induction l as [| [k0 x] l IH]; simpl.
  - destruct (String.eqb k' k) eqn:E; [| reflexivity].
    apply String.eqb_eq in E. contradiction.
  - rewrite IH. reflexivity.
Qed.

Lemma assoc_app_new k (v : JS.value) l :
  JS.assoc k l = None -> JS.assoc k (l ++ [(k, v)]) = Some v.
Proof.
  induction l as [| [k0 x] l IH]; simpl.
  - rewrite String.eqb_refl. reflexivity.
  - destruct (String.eqb k k0); [discriminate | exact IH].
Qed.

(** What assigning a name that is no array index does to an object. *)
Lemma obj_set_name k v l :
  JS.array_index k = None ->
  JS.assoc k (JS.obj_set k v l) = Some v
  /\ (forall k', k' <> k -> JS.assoc k' (JS.obj_set k v l) = JS.assoc k' l)
  /\ map fst (JS.obj_set k v l)
     = match JS.assoc k l with
       | Some _ => map fst l
       | None => (map fst l ++ [k])%list
       end.
Proof.
  intro Hk. unfold JS.obj_set. rewrite Hk.
  destruct (JS.assoc k l) as [x |] eqn:E.
  - split; [apply assoc_replace_prop_same; congruence |].
    split; [intros; now apply assoc_replace_prop_other |].
    apply keys_replace_prop.
  - split; [now apply assoc_app_new |].
    split; [intros; now apply assoc_app_other |].
    rewrite map_app. reflexivity.
Qed.

(** X16.  On a manifest that is a JSON object whose dependencies are
    an object, and whose numbers are written back as they were read
    (see [Exact.plain]), updatePackageJson writes, once, the two-space
    JSON text of a manifest that differs from the one read in
    dependencies.expo alone: that entry is the version given, every
    other dependency and every other top-level entry is as it was,
    and the keys keep their order, expo going last when it is new. *)
Theorem updatePackageJson_sets_only_the_expo_entry (src version : string)
  (w : World) (text : string) (props deps : list (string * JS.value)) :
  package_json (fs w) = Some text ->
  JS.parse (JS.VString text) = Some (JS.VObject props) ->
  Exact.plain (JS.VObject props) = true ->
  JS.assoc "dependencies" props = Some (JS.VObject deps) ->
  exists props' deps' json,
    Staging.updatePackageJson src version w
    = Return tt (written (utf8 json) w)
    /\ JS.stringify2 (JS.VObject props') = Some json
    /\ JS.assoc "dependencies" props' = Some (JS.VObject deps')
    /\ JS.assoc "expo" deps' = Some (JS.VString version)
    /\ (forall k, k <> "expo" -> JS.assoc k deps' = JS.assoc k deps)
    /\ (forall k, k <> "dependencies" -> JS.assoc k props' = JS.assoc k props)
    /\ map fst props' = map fst props
    /\ map fst deps' = match JS.assoc "expo" deps with
                       | Some _ => map fst deps
                       | None => (map fst deps ++ ["expo"])%list
                       end.
Proof.
  intros Ht Hp _ Hd.
  destruct (obj_set_name "expo" (JS.VString version) deps eq_refl)
    as (S1 & S2 & S3).
  set (deps' := JS.obj_set "expo" (JS.VString version) deps) in *.
  set (props' := JS.replace_prop "dependencies" (JS.VObject deps') props).
  destruct (stringify2_defined (JS.VObject props')) as [json Hj];
    [discriminate |].
  exists props', deps', json.
  split.
  - unfold Staging.updatePackageJson, bind, readFileSync_package_json,
      JSON_parse, prop, ret.
    rewrite Ht, Hp. cbv beta iota. unfold JS.get. rewrite Hd.
    unfold Staging.assign, Staging.held, ret. fold deps'. fold props'.
    rewrite Hj. reflexivity.
  - split; [exact Hj |].
    split; [apply assoc_replace_prop_same; congruence |].
    split; [exact S1 |]. split; [exact S2 |].
    split; [intros; now apply assoc_replace_prop_other |].
    split; [apply keys_replace_prop | exact S3].
Qed.

Lemma updatePackageJson_sets_only_the_expo_entry_witness :
  exists props' deps' json,
    Staging.updatePackageJson Scenario.project "53.0.0" Scenario.staged
    = Return tt (written (utf8 json) Scenario.staged)
    /\ JS.stringify2 (JS.VObject props') = Some json
    /\ JS.assoc "dependencies" props' = Some (JS.VObject deps')
    /\ JS.assoc "expo" deps' = Some (JS.VString "53.0.0")
    /\ (forall k, k <> "expo" ->
                  JS.assoc k deps'
                  = JS.assoc k [("pkgA", JS.VString "^1.0.0")])
    /\ (forall k, k <> "dependencies" ->
                  JS.assoc k props'
                  = JS.assoc k [("dependencies",
                                 JS.VObject [("pkgA", JS.VString "^1.0.0")])])
    /\ map fst props' = ["dependencies"]
    /\ map fst deps' = ["pkgA"; "expo"].
Proof.
  apply (updatePackageJson_sets_only_the_expo_entry Scenario.project "53.0.0"
           Scenario.staged (Scenario.text_of Scenario.manifest)
           [("dependencies", JS.VObject [("pkgA", JS.VString "^1.0.0")])]
           [("pkgA", JS.VString "^1.0.0")]).
  - reflexivity.
  - vm_compute. reflexivity.
  - reflexivity.
  - reflexivity.
Defined.

Module Scenario4.

(** A project whose manifest has development dependencies only. *)
Definition tools_only : World :=
  with_package_json
    (Scenario.text_of
       (JS.VObject [("name", JS.VString "app");
                    ("devDependencies",
                     JS.VObject [("jest", JS.VString "29.0.0")])]))
    Scenario.staged.

(** npm install fails the first time it is run. *)
Definition first_install_fails : Env :=
  {| expo_doctor := fun _ => Resolved Scenario.passing;
     axios_post := fun _ => Rejected (Error "connect ECONNREFUSED");
     npm_install := fun n => match n with
                             | O => Scenario.install_failed
                             | S _ => Scenario.installed
                             end |}.

End Scenario4.

(** The manifest, once parsed, has nothing under dependencies that a
    property can be set on. *)
Definition lacks_dependencies (pj : JS.value) : Prop :=
  forall d, JS.get pj "dependencies" = Some d ->
            d = JS.VUndefined \/ d = JS.VNull.

(** X17.  When package.json is missing or is not JSON, or is JSON
    without dependencies (no such key, the value null, or a manifest
    that is not an object), updatePackageJson throws and writes
    nothing, and the upgrade from there ends with code 1 before npm,
    expo-doctor or a model is called. *)
Theorem manifest_without_dependencies_stops_the_upgrade (env : Env)
  (src version : string) (args : ValidatedArgs) (w : World) :
  (unreadable_manifest w
   \/ exists text pj,
        package_json (fs w) = Some text
        /\ JS.parse (JS.VString text) = Some pj
        /\ lacks_dependencies pj) ->
  (exists e, Staging.updatePackageJson src version w = Throw e w)
  /\ Staging.expoUpgrade_staged env src version args w = Exit 1 w.
Proof.
  intro H.
  assert (Ht : exists e, Staging.updatePackageJson src version w = Throw e w).
  { unfold Staging.updatePackageJson, bind, readFileSync_package_json,
      JSON_parse, prop, ret.
    destruct H as [Hu | (text & pj & Ht & Hp & Hl)].
    - unfold unreadable_manifest in Hu.
      destruct (package_json (fs w)) as [text |]; [| eauto].
      rewrite Hu. eexists. reflexivity.
    - rewrite Ht, Hp. cbv beta iota. unfold lacks_dependencies in Hl.
      destruct (JS.get pj "dependencies") as [d |]; [| eexists; reflexivity].
      destruct (Hl d eq_refl) as [-> | ->]; eexists; reflexivity. }
  split; [exact Ht |].
  destruct Ht as [e Ht].
  unfold Staging.expoUpgrade_staged, try_catch, bind.
  rewrite Ht. reflexivity.
Qed.

Lemma manifest_without_dependencies_stops_the_upgrade_witness :
  (exists e, Staging.updatePackageJson Scenario.project "53.0.0"
               Scenario4.tools_only = Throw e Scenario4.tools_only)
  /\ Staging.expoUpgrade_staged Scenario.healthy Scenario.project "53.0.0"
       Scenario.gemini_args Scenario4.tools_only
     = Exit 1 Scenario4.tools_only.
Proof.
  apply (manifest_without_dependencies_stops_the_upgrade Scenario.healthy
           Scenario.project "53.0.0" Scenario.gemini_args
           Scenario4.tools_only).
  right.
  exists (Scenario.text_of
            (JS.VObject [("name", JS.VString "app");
                         ("devDependencies",
                          JS.VObject [("jest", JS.VString "29.0.0")])])),
         (JS.VObject [("name", JS.VString "app");
                      ("devDependencies",
                       JS.VObject [("jest", JS.VString "29.0.0")])]).
  split; [reflexivity |]. split; [vm_compute; reflexivity |].
  intros d Hd. vm_compute in Hd. inversion Hd. left. reflexivity.
Defined.

(** X18.  On a manifest with a dependencies object the upgrade writes
    the version and then runs npm install, before any diagnostic: when
    that install fails the process ends with code 1 there; when it
    succeeds the repair loop starts from the manifest just written. *)
Theorem version_is_written_before_the_first_install (env : Env)
  (src version : string) (args : ValidatedArgs) (w : World) (text : string)
  (props deps : list (string * JS.value)) :
  package_json (fs w) = Some text ->
  JS.parse (JS.VString text) = Some (JS.VObject props) ->
  JS.assoc "dependencies" props = Some (JS.VObject deps) ->
  exists json w1,
    Staging.updatePackageJson src version w
    = Return tt (written (utf8 json) w)
    /\ w1 = record EvInstall
              (with_package_lock (lock_after (npm_install env (installs w)))
                 (with_node_modules
                    (modules_after (npm_install env (installs w)))
                    (written (utf8 json) w)))
    /\ package_json (fs w1) = Some (utf8 json)
    /\ diagnostic_runs w1 = diagnostic_runs w
    /\ Staging.expoUpgrade_staged env src version args w
       = match install (npm_install env (installs w)) with
         | Resolved _ => expoUpgrade env src args w1
         | Rejected _ => Exit 1 w1
         end.
Proof.
  intros Ht Hp Hd.
  assert (Hw : exists json,
             Staging.updatePackageJson src version w
             = Return tt (written (utf8 json) w)).
  { destruct (stringify2_defined
                (JS.VObject
                   (JS.replace_prop "dependencies"
                      (JS.VObject
                         (JS.obj_set "expo" (JS.VString version) deps))
                      props))) as [json Hj]; [discriminate |].
    exists json.
    unfold Staging.updatePackageJson, bind, readFileSync_package_json,
      JSON_parse, prop, ret.
    rewrite Ht, Hp. cbv beta iota. unfold JS.get. rewrite Hd.
    unfold Staging.assign, Staging.held, ret. rewrite Hj. reflexivity. }
  destruct Hw as [json Hw]. exists json. eexists.
  split; [exact Hw |]. split; [reflexivity |]. split; [reflexivity |].
  split.
  - unfold diagnostic_runs. rewrite count_record.
    unfold count, written. simpl. rewrite filter_app, length_app. simpl. lia.
  - assert (Hi : installs (written (utf8 json) w) = installs w).
    { unfold installs. rewrite count_written. simpl. lia. }
    unfold Staging.expoUpgrade_staged, expoUpgrade, upgrade_from,
      installDependencies, exec_npm_install, try_catch, bind, await.
    rewrite Hw. cbv beta iota zeta. rewrite Hi.
    destruct (install (npm_install env (installs w))) as [[] | e];
      reflexivity.
Qed.

Lemma version_is_written_before_the_first_install_witness :
  exists json w1,
    Staging.updatePackageJson Scenario.project "53.0.0" Scenario.staged
    = Return tt (written (utf8 json) Scenario.staged)
    /\ w1 = record EvInstall
              (with_package_lock
                 (lock_after (npm_install Scenario4.first_install_fails
                                (installs Scenario.staged)))
                 (with_node_modules
                    (modules_after (npm_install Scenario4.first_install_fails
                                      (installs Scenario.staged)))
                    (written (utf8 json) Scenario.staged)))
    /\ package_json (fs w1) = Some (utf8 json)
    /\ diagnostic_runs w1 = diagnostic_runs Scenario.staged
    /\ Staging.expoUpgrade_staged Scenario4.first_install_fails
         Scenario.project "53.0.0" Scenario.gemini_args Scenario.staged
       = match install (npm_install Scenario4.first_install_fails
                          (installs Scenario.staged)) with
         | Resolved _ =>
             expoUpgrade Scenario4.first_install_fails Scenario.project
               Scenario.gemini_args w1
         | Rejected _ => Exit 1 w1
         end.
Proof.
  apply (version_is_written_before_the_first_install
           Scenario4.first_install_fails Scenario.project "53.0.0"
           Scenario.gemini_args Scenario.staged
           (Scenario.text_of Scenario.manifest)
           [("dependencies", JS.VObject [("pkgA", JS.VString "^1.0.0")])]
           [("pkgA", JS.VString "^1.0.0")]).
  - reflexivity.
  - vm_compute. reflexivity.
  - reflexivity.
Defined.

(** X19.  Dependencies that are a string, a number, a boolean or an
    array take no expo entry: the module is not in strict mode, so the
    assignment is dropped without an error (on an array it makes a
    property that JSON.stringify leaves out), and updatePackageJson
    writes the manifest back as it read it, in two-space JSON (this
    for a manifest whose numbers are written back as they were read,
    see [Exact.plain]). *)
Theorem dependencies_that_are_no_object_are_kept (src version : string)
  (w : World) (text : string) (props : list (string * JS.value))
  (d : JS.value) :
  package_json (fs w) = Some text ->
  JS.parse (JS.VString text) = Some (JS.VObject props) ->
  Exact.plain (JS.VObject props) = true ->
  JS.assoc "dependencies" props = Some d ->
  match d with
  | JS.VBool _ | JS.VNumber _ _ | JS.VString _ | JS.VArray _ => True
  | _ => False
  end ->
  exists json,
    JS.stringify2 (JS.VObject props) = Some json
    /\ Staging.updatePackageJson src version w
       = Return tt (written (utf8 json) w).
Proof.
  intros Ht Hp _ Hd Hshape.
  assert (Hsame : forall k x l,
             JS.assoc k l = Some x -> JS.replace_prop k x l = l).
  { intros k x l. induction l as [| [k0 y] l IH]; simpl; [reflexivity |].
    destruct (String.eqb k k0).
    - intro H. inversion H. reflexivity.
    - intro H. rewrite (IH H). reflexivity. }
  destruct (stringify2_defined (JS.VObject props)) as [json Hj];
    [discriminate |].
  exists json. split; [exact Hj |].
  unfold Staging.updatePackageJson, bind, readFileSync_package_json,
    JSON_parse, prop, ret.
  rewrite Ht, Hp. cbv beta iota. unfold JS.get. rewrite Hd.
  destruct d; try contradiction;
    unfold Staging.assign, Staging.held, ret;
    rewrite (Hsame _ _ _ Hd), Hj; reflexivity.
Qed.

Lemma dependencies_that_are_no_object_are_kept_witness :
  exists json,
    JS.stringify2 (JS.VObject [("dependencies", JS.VArray [JS.VString "expo"])])
    = Some json
    /\ Staging.updatePackageJson Scenario.project "53.0.0"
         (with_package_json
            (Scenario.text_of
               (JS.VObject [("dependencies", JS.VArray [JS.VString "expo"])]))
            Scenario.staged)
       = Return tt
           (written (utf8 json)
              (with_package_json
                 (Scenario.text_of
                    (JS.VObject
                       [("dependencies", JS.VArray [JS.VString "expo"])]))
                 Scenario.staged)).
Proof.
  apply (dependencies_that_are_no_object_are_kept Scenario.project "53.0.0"
           (with_package_json
              (Scenario.text_of
                 (JS.VObject [("dependencies", JS.VArray [JS.VString "expo"])]))
              Scenario.staged)
           (Scenario.text_of
              (JS.VObject [("dependencies", JS.VArray [JS.VString "expo"])]))
           [("dependencies", JS.VArray [JS.VString "expo"])]
           (JS.VArray [JS.VString "expo"])).
  - reflexivity.
  - vm_compute. reflexivity.
  - reflexivity.
  - reflexivity.
  - exact I.
Defined.

(* ================================================================== *)
(** ** getDefaultDestination (expo-upgrade.js, lines 107 to 131)

    The function sees one directory, the one of the version under the
    home directory; the state is what that directory lists, or [None]
    while it does not exist.  The home directory is taken to be
    writable, so that [fs.mkdirSync] does not throw.  Numbers are the
    integers themselves, which is what the code computes as long as
    they stay below 2^53; the theorems say so where it matters. *)

Module Destination.

Fixpoint hex_digits_value (acc : Z) (s : string) : Z :=
  match s with
  | String c r => hex_digits_value (16 * acc + Z.of_N (JS.hex_value c))%Z r
  | EmptyString => acc
  end.

(** The value of the longest run of digits at the head of [s], if the
    run is not empty. *)
Definition radix10 (s : string) : option Z :=
  match JS.take_while JS.is_digit s with
  | (String c ds, _) => Some (JS.digits_value 0 (String c ds))
  | (EmptyString, _) => None
  end.

Definition radix16 (s : string) : option Z :=
  match JS.take_while JS.is_hex_digit s with
  | (String c ds, _) => Some (hex_digits_value 0 (String c ds))
  | (EmptyString, _) => None
  end.

(** [parseInt(s)] without a radix; [None] is [NaN].  Leading white
    space is dropped, then a sign, then [0x] or [0X], which makes the
    digits hexadecimal; what follows the digits is ignored. *)
Definition parseInt (s : string) : option Z :=
  let s1 := JS.trimStart s in
  let '(negative, s2) :=
    match s1 with
    | String c r =>
        if (JS.byte c =? 45)%N then (true, r)
        else if (JS.byte c =? 43)%N then (false, r)
        else (false, s1)
    | EmptyString => (false, s1)
    end in
  let magnitude :=
    match s2 with
    | String z (String x r) =>
        if ((JS.byte z =? 48)
            && ((JS.byte x =? 120) || (JS.byte x =? 88)))%N
        then radix16 r
        else radix10 s2
    | _ => radix10 s2
    end in
  match magnitude with
  | Some m => Some (if negative : bool then (- m)%Z else m)
  | None => None
  end.

(** The callback of [reduce]: [parseInt] does not throw, and
    [a <= NaN] is false. *)
Definition step (a : Z) (f : string) : Z :=
  match parseInt f with
  | Some c => if (a <=? c)%Z then (c + 1)%Z else a
  | None => a
  end.

Definition next_number (entries : list string) : Z :=
  fold_left step entries 1%Z.

(** What the version's directory lists once the first [mkdirSync]
    has made sure that it exists. *)
Definition listed (listing : option (list string)) : list string :=
  match listing with
  | Some entries => entries
  | None => []
  end.

Section Destination.

Variable homedir : string.

Definition upgrade_directory (version : string) : string :=
  homedir ++ "/.wm-reactnative-cli/upgrade/" ++ version.

(** The destination returned, and the listing of the version's
    directory afterwards: the first [mkdirSync] makes the directory if
    need be, the second one makes the destination in it unless it is
    there. *)
Definition getDefaultDestination (version : string)
  (listing : option (list string)) : string * option (list string) :=
  let path := upgrade_directory version in
  let entries := listed listing in
  let next := next_number entries in
  let name := Text.of_Z next in
  let dest := path ++ "/" ++ name in
  (dest,
   Some (if existsb (String.eqb name) entries then entries
         else (entries ++ [name])%list)).

End Destination.

(** Every numbered entry is below [Number.MAX_SAFE_INTEGER], so that
    the number and its successor are held exactly. *)
Definition safe (entries : list string) : Prop :=
  forall f c, In f entries -> parseInt f = Some c -> (c < 2 ^ 53 - 1)%Z.

End Destination.

Module DestinationExamples.

Example parseInt_examples :
  map Destination.parseInt
    ["7"; "12abc"; "  42"; "-3"; "+5"; "0x1F"; "0x"; "1e3"; ".git"; ""; "007"]
  = [Some 7; Some 12; Some 42; Some (-3); Some 5; Some 31; None; Some 1;
     None; None; Some 7]%Z.
Proof. reflexivity. Qed.

Example next_number_examples :
  map Destination.next_number
    [[]; ["notes.txt"]; ["1"; "2"; "3"]; ["3"; "1"]; ["2"; "10"; "9"]; ["-4"]]
  = [1; 1; 4; 4; 11; 1]%Z.
Proof. reflexivity. Qed.

End DestinationExamples.

(** *** Facts about getDefaultDestination *)

Lemma step_ge a f : (a <= Destination.step a f)%Z.
Proof.
  unfold Destination.step. destruct (Destination.parseInt f) as [c |]; [| lia].
  destruct (Z.leb_spec a c); lia.
Qed.

Lemma fold_step_ge l : forall a, (a <= fold_left Destination.step l a)%Z.
Proof.
  induction l as [| f l IH]; simpl; intro a; [lia |].
  pose proof (step_ge a f). pose proof (IH (Destination.step a f)). lia.
Qed.

Lemma fold_step_above l :
  forall a f c, In f l -> Destination.parseInt f = Some c ->
                (c < fold_left Destination.step l a)%Z.
Proof.
  induction l as [| f0 l IH]; simpl; intros a f c Hin Hp; [contradiction |].
  destruct Hin as [-> | Hin]; [| eapply IH; eassumption].
  pose proof (fold_step_ge l (Destination.step a f)) as H.
  assert (c < Destination.step a f)%Z; [| lia].
  unfold Destination.step. rewrite Hp. destruct (Z.leb_spec a c); lia.
Qed.

Lemma fold_step_reached l :
  forall a, fold_left Destination.step l a = a
            \/ exists f, In f l
                         /\ Destination.parseInt f
                            = Some (fold_left Destination.step l a - 1)%Z.
Proof.
  induction l as [| f0 l IH]; simpl; intro a; [auto |].
  destruct (IH (Destination.step a f0)) as [E | (f & Hin & Hp)].
  - rewrite E. unfold Destination.step.
    destruct (Destination.parseInt f0) as [c |] eqn:Hc; [| auto].
    destruct (Z.leb_spec a c); [| auto].
    right. exists f0. split; [auto |]. rewrite Hc. f_equal. lia.
  - right. exists f. auto.
Qed.

Lemma digits_value_app s1 : forall a s2,
  JS.digits_value a (s1 ++ s2) = JS.digits_value (JS.digits_value a s1) s2.
Proof. induction s1 as [| c s1 IH]; simpl; intros; [reflexivity | apply IH]. Qed.

Lemma all_chars_app p s1 s2 :
  Validate.all_chars p (s1 ++ s2)
  = Validate.all_chars p s1 && Validate.all_chars p s2.
Proof.
  induction s1 as [| c s1 IH]; simpl; [reflexivity |].
  rewrite IH, andb_assoc. reflexivity.
Qed.

Lemma digit_char (k : N) :
  (k < 10)%N ->
  JS.is_digit (ascii_of_N (48 + k)) = true
  /\ JS.byte (ascii_of_N (48 + k)) = (48 + k)%N.
Proof.
  intro Hk. unfold JS.is_digit, JS.byte.
  rewrite N_ascii_embedding by lia.
  split; [| reflexivity].
  apply andb_true_iff. split; apply N.leb_le; lia.
Qed.

Lemma digits_fuel_spec fuel :
  forall n acc,
    (Z.of_N n < 2 ^ Z.of_nat fuel)%Z ->
    exists ds,
      Text.digits_fuel fuel n acc = ds ++ acc
      /\ Validate.all_chars JS.is_digit ds = true
      /\ JS.digits_value 0 ds = Z.of_N n
      /\ (fuel <> 0 -> ds <> "").
Proof.
  induction fuel as [| fuel IH]; intros n acc Hn.
  - exists "". simpl in *. repeat split; try reflexivity; lia.
  - cbn [Text.digits_fuel].
    assert (Hd : (N.modulo n 10 < 10)%N) by (apply N.mod_lt; lia).
    destruct (digit_char _ Hd) as [D1 D2].
    set (d := ascii_of_N (48 + N.modulo n 10)) in *.
    destruct (N.eqb_spec (N.div n 10) 0) as [Hq | Hq].
    + exists (String d "").
      cbn [JS.digits_value Validate.all_chars append]. rewrite D1, D2.
      repeat split; try reflexivity; try discriminate.
      pose proof (N.div_mod n 10 ltac:(lia)) as Hdm. rewrite Hq in Hdm.
      generalize dependent (N.modulo n 10). intros. lia.
    + destruct (IH (N.div n 10) (String d acc)) as (ds & E & A & V & _).
      { rewrite Nat2Z.inj_succ, Z.pow_succ_r in Hn by lia.
        rewrite N2Z.inj_div. change (Z.of_N 10) with 10%Z.
        apply Z.div_lt_upper_bound; lia. }
      exists (ds ++ String d ""). rewrite E, append_assoc.
      cbn [append].
      rewrite all_chars_app, digits_value_app, A, V.
      cbn [JS.digits_value Validate.all_chars append andb]. rewrite D1, D2.
      repeat split; try reflexivity.
      * pose proof (N.div_mod n 10 ltac:(lia)) as Hdm.
        generalize dependent (N.modulo n 10).
        generalize dependent (N.div n 10). intros. lia.
      * intros _. destruct ds; discriminate.
Qed.

Lemma of_N_spec n :
  exists c ds,
    Text.of_N n = String c ds
    /\ Validate.all_chars JS.is_digit (String c ds) = true
    /\ JS.digits_value 0 (String c ds) = Z.of_N n.
Proof.
  unfold Text.of_N.
  destruct (digits_fuel_spec (S (N.to_nat (N.log2 n))) n "")
    as (ds & E & A & V & Hne).
  { rewrite Nat2Z.inj_succ, N_nat_Z.
    destruct n as [| p]; [reflexivity |].
    pose proof (N.log2_spec (Npos p) eq_refl) as [_ H].
    rewrite <- N2Z.inj_succ.
    change 2%Z with (Z.of_N 2). rewrite <- N2Z.inj_pow. lia. }
  rewrite append_empty_r in E. rewrite E.
  destruct ds as [| c ds]; [exfalso; apply Hne; [discriminate | reflexivity] |].
  exists c, ds. auto.
Qed.

Lemma trimStart_digit c r :
  JS.is_digit c = true -> JS.trimStart (String c r) = String c r.
Proof.
  unfold JS.is_digit. intro H. apply andb_true_iff in H.
  destruct H as [H1 H2]. apply N.leb_le in H1, H2.
  cbn [JS.trimStart]. cbv zeta.
  set (x := JS.byte c) in *.
  assert (E1 : ((9 <=? x) && (x <=? 13) || (x =? 32))%N = false).
  { destruct (N.leb_spec 9 x), (N.leb_spec x 13), (N.eqb_spec x 32);
      simpl; try reflexivity; lia. }
  assert (E2 : forall k, (57 < k)%N -> (x =? k)%N = false)
    by (intros; apply N.eqb_neq; lia).
  rewrite E1.
  destruct r as [| b r1]; [reflexivity |].
  rewrite (E2 194%N) by lia. simpl andb. cbv iota.
  destruct r1 as [| d r2]; [reflexivity |].
  rewrite (E2 225%N), (E2 226%N), (E2 227%N), (E2 239%N) by lia.
  reflexivity.
Qed.

Lemma parseInt_digits c ds :
  Validate.all_chars JS.is_digit (String c ds) = true ->
  Destination.parseInt (String c ds)
  = Some (JS.digits_value 0 (String c ds)).
Proof.
  intro Hall. pose proof Hall as Hall'. simpl in Hall'.
  apply andb_true_iff in Hall'. destruct Hall' as [Hc Hds].
  unfold Destination.parseInt. rewrite (trimStart_digit c ds Hc).
  pose proof Hc as Hc'. unfold JS.is_digit in Hc'.
  apply andb_true_iff in Hc'. destruct Hc' as [C1 C2].
  apply N.leb_le in C1, C2.
  assert (E45 : (JS.byte c =? 45)%N = false) by (apply N.eqb_neq; lia).
  assert (E43 : (JS.byte c =? 43)%N = false) by (apply N.eqb_neq; lia).
  rewrite E45, E43.
  assert (Hr : Destination.radix10 (String c ds)
               = Some (JS.digits_value 0 (String c ds))).
  { unfold Destination.radix10.
    pose proof (Validate.take_while_exact JS.is_digit (String c ds) ""
                  Hall I) as T.
    rewrite append_empty_r in T. rewrite T. reflexivity. }
  destruct ds as [| x r]; [rewrite Hr; reflexivity |].
  simpl in Hds. apply andb_true_iff in Hds. destruct Hds as [Hx _].
  unfold JS.is_digit in Hx. apply andb_true_iff in Hx.
  destruct Hx as [X1 X2]. apply N.leb_le in X1, X2.
  assert (E120 : (JS.byte x =? 120)%N = false) by (apply N.eqb_neq; lia).
  assert (E88 : (JS.byte x =? 88)%N = false) by (apply N.eqb_neq; lia).
  rewrite E120, E88, andb_false_r, Hr. reflexivity.
Qed.

(** A positive number printed and read back is itself. *)
Lemma parseInt_of_Z n : (0 <= n)%Z -> Destination.parseInt (Text.of_Z n) = Some n.
Proof.
  intro Hn. destruct n as [| p | p]; [reflexivity | | lia].
  unfold Text.of_Z.
  destruct (of_N_spec (Npos p)) as (c & ds & E & A & V).
  rewrite E, (parseInt_digits c ds A), V. reflexivity.
Qed.

Lemma next_number_spec entries :
  (1 <= Destination.next_number entries)%Z
  /\ (forall f c, In f entries -> Destination.parseInt f = Some c ->
                  (c < Destination.next_number entries)%Z)
  /\ (Destination.next_number entries = 1%Z
      \/ exists f, In f entries
                   /\ Destination.parseInt f
                      = Some (Destination.next_number entries - 1)%Z).
Proof.
  unfold Destination.next_number.
  split; [apply fold_step_ge |].
  split; [intros f c; apply fold_step_above | apply fold_step_reached].
Qed.

Lemma next_number_not_listed entries :
  ~ In (Text.of_Z (Destination.next_number entries)) entries.
Proof.
  destruct (next_number_spec entries) as (H1 & H2 & _).
  intro Hin.
  assert (Hp : Destination.parseInt
                 (Text.of_Z (Destination.next_number entries))
               = Some (Destination.next_number entries))
    by (apply parseInt_of_Z; lia).
  pose proof (H2 _ _ Hin Hp). lia.
Qed.

Lemma existsb_not_listed name entries :
  ~ In name entries -> existsb (String.eqb name) entries = false.
Proof.
  intro H. destruct (existsb (String.eqb name) entries) eqn:E; [| reflexivity].
  apply existsb_exists in E. destruct E as (f & Hin & Hf).
  apply String.eqb_eq in Hf. subst f. contradiction.
Qed.

(** X20.  getDefaultDestination never hands out a directory that is
    there already.  As long as the numbered entries of the version's
    directory are below Number.MAX_SAFE_INTEGER, the destination is the
    entry n that it adds to the directory, n being one more than the
    largest number that an entry starts with, and 1 when no entry
    starts with a number or that largest number is below 1: no entry
    is named n. *)
Theorem destination_is_new (homedir version : string)
  (listing : option (list string)) :
  Destination.safe (Destination.listed listing) ->
  exists n,
    (1 <= n <= 2 ^ 53 - 1)%Z
    /\ Destination.getDefaultDestination homedir version listing
       = (Destination.upgrade_directory homedir version ++ "/" ++ Text.of_Z n,
          Some (Destination.listed listing ++ [Text.of_Z n])%list)
    /\ ~ In (Text.of_Z n) (Destination.listed listing)
    /\ (forall f c, In f (Destination.listed listing) ->
                    Destination.parseInt f = Some c -> (c < n)%Z)
    /\ (n = 1%Z
        \/ exists f, In f (Destination.listed listing)
                     /\ Destination.parseInt f = Some (n - 1)%Z).
Proof.
  intro Hsafe.
  destruct (next_number_spec (Destination.listed listing)) as (H1 & H2 & H3).
  exists (Destination.next_number (Destination.listed listing)).
  split.
  - split; [exact H1 |].
    destruct H3 as [-> | (f & Hin & Hp)]; [vm_compute; discriminate |].
    pose proof (Hsafe _ _ Hin Hp). lia.
  - split.
    + unfold Destination.getDefaultDestination. cbv zeta.
      rewrite (existsb_not_listed _ _ (next_number_not_listed _)).
      reflexivity.
    + split; [apply next_number_not_listed |]. split; assumption.
Qed.

Lemma destination_is_new_witness :
  exists n,
    (1 <= n <= 2 ^ 53 - 1)%Z
    /\ Destination.getDefaultDestination "/home/dev" "53.0.0"
         (Some ["1"; "notes.txt"; "2"])
       = (Destination.upgrade_directory "/home/dev" "53.0.0" ++ "/"
          ++ Text.of_Z n,
          Some (Destination.listed (Some ["1"; "notes.txt"; "2"])
                ++ [Text.of_Z n])%list)
    /\ ~ In (Text.of_Z n) (Destination.listed (Some ["1"; "notes.txt"; "2"]))
    /\ (forall f c, In f (Destination.listed (Some ["1"; "notes.txt"; "2"])) ->
                    Destination.parseInt f = Some c -> (c < n)%Z)
    /\ (n = 1%Z
        \/ exists f, In f (Destination.listed (Some ["1"; "notes.txt"; "2"]))
                     /\ Destination.parseInt f = Some (n - 1)%Z).
Proof.
  apply (destination_is_new "/home/dev" "53.0.0"
           (Some ["1"; "notes.txt"; "2"])).
  intros f c [<- | [<- | [<- | []]]] H; vm_compute in H; inversion H;
    reflexivity.
Defined.

(** X21.  Two upgrades to the same version get destinations that are
    numbered one after the other: the second call, made on the
    directory as the first one left it, returns the next number (the
    numbered entries being below Number.MAX_SAFE_INTEGER, where the
    integers of the model are the numbers of the code). *)
Theorem successive_destinations_are_consecutive (homedir version : string)
  (listing : option (list string)) :
  Destination.safe (Destination.listed listing) ->
  exists n after,
    Destination.getDefaultDestination homedir version listing
    = (Destination.upgrade_directory homedir version ++ "/" ++ Text.of_Z n,
       after)
    /\ Destination.getDefaultDestination homedir version after
       = (Destination.upgrade_directory homedir version ++ "/"
          ++ Text.of_Z (n + 1),
          Some (Destination.listed listing
                ++ [Text.of_Z n; Text.of_Z (n + 1)])%list).
Proof.
  intros _.
  set (entries := Destination.listed listing).
  destruct (next_number_spec entries) as (H1 & H2 & _).
  pose proof (next_number_not_listed entries) as Hnew.
  set (n := Destination.next_number entries) in *.
  assert (Hnext : Destination.next_number (entries ++ [Text.of_Z n])
                  = (n + 1)%Z).
  { unfold Destination.next_number. rewrite fold_left_app.
    fold (Destination.next_number entries). fold n. simpl.
    unfold Destination.step. rewrite parseInt_of_Z by lia.
    rewrite Z.leb_refl. reflexivity. }
  exists n, (Some (entries ++ [Text.of_Z n])%list).
  split.
  - unfold Destination.getDefaultDestination. cbv zeta. fold entries. fold n.
    rewrite (existsb_not_listed _ _ Hnew). reflexivity.
  - unfold Destination.getDefaultDestination. cbv zeta.
    change (Destination.listed (Some (entries ++ [Text.of_Z n])%list))
      with (entries ++ [Text.of_Z n])%list.
    rewrite Hnext.
    rewrite existsb_not_listed.
    + rewrite <- app_assoc. reflexivity.
    + rewrite <- Hnext. apply next_number_not_listed.
Qed.

Lemma successive_destinations_are_consecutive_witness :
  exists n after,
    Destination.getDefaultDestination "/home/dev" "53.0.0" None
    = (Destination.upgrade_directory "/home/dev" "53.0.0" ++ "/"
       ++ Text.of_Z n, after)
    /\ Destination.getDefaultDestination "/home/dev" "53.0.0" after
       = (Destination.upgrade_directory "/home/dev" "53.0.0" ++ "/"
          ++ Text.of_Z (n + 1),
          Some (Destination.listed None
                ++ [Text.of_Z n; Text.of_Z (n + 1)])%list).
Proof.
  apply (successive_destinations_are_consecutive "/home/dev" "53.0.0" None).
  intros f c [].
Defined.

(** X22.  The destination does not depend on the order in which
    [readdirSync] lists the directory, nor on an entry being listed
    twice: listings with the same entries give the same destination
    (the numbered entries being below Number.MAX_SAFE_INTEGER). *)
Theorem destination_ignores_listing_order (homedir version : string)
  (entries entries' : list string) :
  Destination.safe entries ->
  (forall f, In f entries <-> In f entries') ->
  fst (Destination.getDefaultDestination homedir version (Some entries))
  = fst (Destination.getDefaultDestination homedir version (Some entries')).
Proof.
  intros _ Hsame.
  unfold Destination.getDefaultDestination. cbv zeta. simpl.
  destruct (next_number_spec entries) as (A1 & A2 & A3).
  destruct (next_number_spec entries') as (B1 & B2 & B3).
  assert (E : Destination.next_number entries
              = Destination.next_number entries').
  { apply Z.le_antisymm.
    - destruct A3 as [-> | (f & Hin & Hp)]; [exact B1 |].
      apply Hsame in Hin. pose proof (B2 _ _ Hin Hp). lia.
    - destruct B3 as [-> | (f & Hin & Hp)]; [exact A1 |].
      apply Hsame in Hin. pose proof (A2 _ _ Hin Hp). lia. }
  rewrite E. reflexivity.
Qed.

Lemma destination_ignores_listing_order_witness :
  fst (Destination.getDefaultDestination "/home/dev" "53.0.0"
         (Some ["2"; "10"; "9"]))
  = fst (Destination.getDefaultDestination "/home/dev" "53.0.0"
           (Some ["10"; "9"; "2"; "9"])).
Proof.
  apply (destination_ignores_listing_order "/home/dev" "53.0.0"
           ["2"; "10"; "9"] ["10"; "9"; "2"; "9"]).
  - intros f c [<- | [<- | [<- | []]]] H; vm_compute in H; inversion H;
      reflexivity.
  - intro f. simpl. tauto.
Defined.
